(** * AidFlow disaster agent: a verified model of [agents/disaster_agent.py]

    The agent polls two GeoJSON feeds (USGS earthquakes, FIRMS fires),
    keeps the features inside the India bounding box, normalises them into
    one record shape and upserts them into a MongoDB collection.

    The development is a shallow embedding: every Python function of the
    module is a Rocq function of the same name.  Python values coming out of
    [json()] are the inductive [value]; Python floats are IEEE binary64 data
    with round-to-nearest-even arithmetic; exceptions are an error sum;
    the collection, the clock, the network and standard output are an
    explicit world threaded through a state-and-exception monad. *)

From Stdlib Require Import ZArith QArith Qabs Bool List String Ascii Lia Lqa.
From Stdlib Require Import Floats DecimalString.
Import ListNotations.

Local Open Scope string_scope.
Local Open Scope Z_scope.
Set Warnings "-inexact-float,-register-all".

(** ** Exceptions and results *)

(** The Python exception classes the module can meet.  All of them derive
    from [Exception], so [except Exception] catches every one. *)
Inductive exn : Type :=
| KeyError (key : string)
| IndexError
| TypeError
| ValueError
| UnicodeEncodeError
| AttributeError
| OverflowError
| OSError
| ZeroDivisionError
| ConnectionError
| JSONDecodeError
| WriteError.

Inductive result (A : Type) : Type :=
| Ok (a : A)
| Raise (e : exn).
Arguments Ok {A} a.
Arguments Raise {A} e.

Definition rbind {A B} (r : result A) (k : A -> result B) : result B :=
  match r with
  | Ok a => k a
  | Raise e => Raise e
  end.

Definition is_ok {A} (r : result A) : bool :=
  match r with Ok _ => true | Raise _ => false end.

Declare Scope result_scope.
Delimit Scope result_scope with result.
Notation "x <- c ;; k" := (rbind c (fun x => k))
  (at level 61, c at next level, right associativity) : result_scope.

(** ** Python floats: IEEE 754 binary64 *)

Module Float64.

(** Precision 53; a finite datum is [(-1)^neg * m * 2^e] with
    [0 <= m < 2^53] and [emin <= e <= emax]; it is normal when
    [2^52 <= m] and subnormal (or zero) when [e = emin]. *)
Definition emin : Z := -1074.
Definition emax : Z := 971.

Inductive float : Type :=
| NaN
| Inf (neg : bool)
| Fin (neg : bool) (m : Z) (e : Z).

Definition zero (neg : bool) : float := Fin neg 0 emin.

(** The exact rational value of a finite datum. *)
Definition mag (m e : Z) : Q :=
  if 0 <=? e then inject_Z (m * 2 ^ e) else Qmake m (Z.to_pos (2 ^ (- e))).

Definition F2Q (x : float) : option Q :=
  match x with
  | Fin neg m e => Some (if neg then Qopp (mag m e) else mag m e)
  | _ => None
  end.

(** Nearest integer to [a / b] for [0 < b], ties to even. *)
Definition rhe (a b : Z) : Z :=
  let q := a / b in
  match 2 * (a mod b) ?= b with
  | Lt => q
  | Gt => q + 1
  | Eq => if Z.even q then q else q + 1
  end.

(** [floor (log2 (a / b))] for [0 < a] and [0 < b]. *)
Definition flog2 (a b : Z) : Z :=
  let k := Z.log2 a - Z.log2 b in
  if (if 0 <=? k then b * 2 ^ k <=? a else b <=? a * 2 ^ (- k))
  then k else k - 1.

(** Round the positive rational [a / b] to the nearest binary64 datum,
    ties to even, with the given sign. *)
Definition round_pos (neg : bool) (a b : Z) : float :=
  let e := Z.max emin (flog2 a b - 52) in
  let m := if 0 <=? e then rhe a (b * 2 ^ e) else rhe (a * 2 ^ (- e)) b in
  let m' := if m =? 2 ^ 53 then 2 ^ 52 else m in
  let e' := if m =? 2 ^ 53 then e + 1 else e in
  if emax <? e' then Inf neg else Fin neg m' e'.

(** Round the rational [a / b], [0 < b]; an exact zero is [+0.0]. *)
Definition RN (a b : Z) : float :=
  match a with
  | 0 => zero false
  | Zpos _ => round_pos false a b
  | Zneg _ => round_pos true (- a) b
  end.

Definition of_Z (z : Z) : float := RN z 1.

Definition fdiv (x y : float) : float :=
  match x, y with
  | NaN, _ | _, NaN => NaN
  | Inf _, Inf _ => NaN
  | Inf sx, Fin sy _ _ => Inf (xorb sx sy)
  | Fin sx _ _, Inf sy => zero (xorb sx sy)
  | Fin sx mx ex, Fin sy my ey =>
      if my =? 0 then (if mx =? 0 then NaN else Inf (xorb sx sy))
      else if mx =? 0 then zero (xorb sx sy)
      else
        let d := ex - ey in
        round_pos (xorb sx sy) (mx * 2 ^ Z.max 0 d) (my * 2 ^ Z.max 0 (- d))
  end.

Definition fmul (x y : float) : float :=
  match x, y with
  | NaN, _ | _, NaN => NaN
  | Inf sx, Inf sy => Inf (xorb sx sy)
  | Inf sx, Fin sy my _ => if my =? 0 then NaN else Inf (xorb sx sy)
  | Fin sx mx _, Inf sy => if mx =? 0 then NaN else Inf (xorb sx sy)
  | Fin sx mx ex, Fin sy my ey =>
      if mx * my =? 0 then zero (xorb sx sy)
      else
        let e := ex + ey in
        round_pos (xorb sx sy) (mx * my * 2 ^ Z.max 0 e) (2 ^ Z.max 0 (- e))
  end.

Definition signed (neg : bool) (m : Z) : Z := if neg then - m else m.

Definition fadd (x y : float) : float :=
  match x, y with
  | NaN, _ | _, NaN => NaN
  | Inf sx, Inf sy => if Bool.eqb sx sy then Inf sx else NaN
  | Inf sx, Fin _ _ _ => Inf sx
  | Fin _ _ _, Inf sy => Inf sy
  | Fin sx mx ex, Fin sy my ey =>
      let e := Z.min ex ey in
      let n := signed sx (mx * 2 ^ (ex - e)) + signed sy (my * 2 ^ (ey - e)) in
      if n =? 0 then zero (if mx + my =? 0 then sx && sy else false)
      else if 0 <=? e then RN (n * 2 ^ e) 1 else RN n (2 ^ (- e))
  end.

(** C's [modf]: the fractional and the integral part, both with the sign
    of the argument. *)
Definition modf (x : float) : float * float :=
  match x with
  | NaN => (NaN, NaN)
  | Inf s => (zero s, Inf s)
  | Fin s m e =>
      if 0 <=? e then (zero s, x)
      else
        let d := 2 ^ (- e) in
        let i := m / d in
        let r := m mod d in
        (if r =? 0 then zero s else round_pos s r d,
         if i =? 0 then zero s else round_pos s i 1)
  end.

(** Comparison is exact on the values; [NaN] compares false with
    everything, the two zeros are equal. *)
Definition leb (x y : float) : bool :=
  match x, y with
  | NaN, _ | _, NaN => false
  | Inf sx, Inf sy => implb sy sx
  | Inf sx, Fin _ _ _ => sx
  | Fin _ _ _, Inf sy => negb sy
  | Fin sx mx ex, Fin sy my ey =>
      Qle_bool (if sx then Qopp (mag mx ex) else mag mx ex)
               (if sy then Qopp (mag my ey) else mag my ey)
  end.

(** An integer against a float and a float against an integer, as
    Python compares them: exactly, without converting the integer. *)
Definition Z_leb_float (z : Z) (y : float) : bool :=
  match y with
  | NaN => false
  | Inf sy => negb sy
  | Fin sy my ey => Qle_bool (inject_Z z) (if sy then Qopp (mag my ey) else mag my ey)
  end.

Definition float_leb_Z (x : float) (z : Z) : bool :=
  match x with
  | NaN => false
  | Inf sx => sx
  | Fin sx mx ex => Qle_bool (if sx then Qopp (mag mx ex) else mag mx ex) (inject_Z z)
  end.

Definition is_zero (x : float) : bool :=
  match x with Fin _ 0 _ => true | _ => false end.

(** A datum of the Standard Library's [spec_float] in this model, used to
    compare the model with the kernel's hardware floats. *)
Definition of_spec (x : spec_float) : float :=
  match x with
  | S754_nan => NaN
  | S754_infinity s => Inf s
  | S754_zero s => zero s
  | S754_finite s m e => Fin s (Zpos m) e
  end.

Definition of_prim (x : PrimFloat.float) : float := of_spec (Prim2SF x).

End Float64.

Import Float64.

(** ** Python values

    What [requests.get(url).json()] can return: [None], booleans, integers
    (unbounded), floats, strings, lists and dictionaries with string keys.
    A dictionary is an association list in insertion order; a key is looked
    up at its first occurrence.  A string is a sequence of code points below
    256. *)

Inductive value : Type :=
| VNone
| VBool (b : bool)
| VInt (z : Z)
| VFloat (f : float)
| VStr (s : string)
| VList (l : list value)
| VDict (d : list (string * value)).

Fixpoint dict_lookup (k : string) (d : list (string * value)) : option value :=
  match d with
  | [] => None
  | (k', v) :: d' => if String.eqb k k' then Some v else dict_lookup k d'
  end.

(** [obj[key]] with a string key. *)
Definition getitem (obj : value) (key : string) : result value :=
  match obj with
  | VDict d =>
      match dict_lookup key d with
      | Some v => Ok v
      | None => Raise (KeyError key)
      end
  | _ => Raise TypeError
  end.

Fixpoint string_nth (n : nat) (s : string) : option ascii :=
  match s, n with
  | EmptyString, _ => None
  | String c _, O => Some c
  | String _ s', S n' => string_nth n' s'
  end.

(** [obj[i]] with the literal index [0] or [1]. *)
Definition getindex (obj : value) (i : nat) : result value :=
  match obj with
  | VList l =>
      match nth_error l i with
      | Some v => Ok v
      | None => Raise IndexError
      end
  | VStr s =>
      match string_nth i s with
      | Some c => Ok (VStr (String c EmptyString))
      | None => Raise IndexError
      end
  | VDict _ => Raise (KeyError (if Nat.eqb i 0 then "0" else "1"))
  | _ => Raise TypeError
  end.

(** [obj.get(key)]: only dictionaries have the method. *)
Definition dict_get (obj : value) (key : string) : result value :=
  match obj with
  | VDict d =>
      match dict_lookup key d with
      | Some v => Ok v
      | None => Ok VNone
      end
  | _ => Raise AttributeError
  end.

(** Truth value testing. *)
Definition truthy (v : value) : bool :=
  match v with
  | VNone => false
  | VBool b => b
  | VInt z => negb (z =? 0)
  | VFloat f => negb (is_zero f)
  | VStr s => negb (String.eqb s "")
  | VList l => match l with [] => false | _ => true end
  | VDict d => match d with [] => false | _ => true end
  end.

(** [a or b]. *)
Definition py_or (a b : value) : value := if truthy a then a else b.

(** Iterating over a value in a comprehension. *)
Definition py_iter (v : value) : result (list value) :=
  match v with
  | VList l => Ok l
  | VStr s => Ok (map (fun c => VStr (String c EmptyString)) (list_ascii_of_string s))
  | VDict d => Ok (map (fun kv => VStr (fst kv)) d)
  | _ => Raise TypeError
  end.

(** *** Characters *)

Definition code (c : ascii) : Z := Z.of_N (N_of_ascii c).
Definition chr (n : Z) : ascii := ascii_of_N (Z.to_N n).

Definition is_digit (c : ascii) : bool := (48 <=? code c) && (code c <=? 57).
Definition digit_val (c : ascii) : Z := code c - 48.

(** Unicode white space among the code points below 256. *)
Definition is_space (c : ascii) : bool :=
  let n := code c in
  ((9 <=? n) && (n <=? 13)) || ((28 <=? n) && (n <=? 32))
  || (n =? 133) || (n =? 160).

Definition lower (c : ascii) : ascii :=
  if (65 <=? code c) && (code c <=? 90) then chr (code c + 32) else c.

Definition digits_val (ds : list ascii) : Z :=
  fold_left (fun acc c => acc * 10 + digit_val c) ds 0.

Fixpoint lstrip (s : list ascii) : list ascii :=
  match s with
  | c :: s' => if is_space c then lstrip s' else s
  | [] => []
  end.

(** *** [float(x)] *)

(** White space to [float()]: the characters of C's [isspace] (9 to 13
    and 32), and the Unicode blanks above 127, which the conversion turns
    into spaces first (U+0085 and U+00A0 here).  The separators U+001C to
    U+001F, white space to [str.isspace] and to [\s], are not among
    them. *)
Definition is_float_space (c : ascii) : bool :=
  let n := code c in
  ((9 <=? n) && (n <=? 13)) || (n =? 32) || (n =? 133) || (n =? 160).

Fixpoint float_lstrip (s : list ascii) : list ascii :=
  match s with
  | c :: s' => if is_float_space c then float_lstrip s' else s
  | [] => []
  end.

Definition float_strip (s : list ascii) : list ascii :=
  rev (float_lstrip (rev (float_lstrip s))).

(** The digits of [digit (["_"] digit)*] after the first one, and the rest. *)
Fixpoint digitpart_tail (s : list ascii) : list ascii * list ascii :=
  match s with
  | c :: s' =>
      if is_digit c then
        let (ds, r) := digitpart_tail s' in (c :: ds, r)
      else if Ascii.eqb c "_" then
        match s' with
        | c' :: s'' =>
            if is_digit c' then
              let (ds, r) := digitpart_tail s'' in (c' :: ds, r)
            else ([], s)
        | [] => ([], s)
        end
      else ([], s)
  | [] => ([], [])
  end.

Definition digitpart (s : list ascii) : option (list ascii * list ascii) :=
  match s with
  | c :: s' => if is_digit c then let (ds, r) := digitpart_tail s' in Some (c :: ds, r) else None
  | [] => None
  end.

Definition opt_sign (s : list ascii) : bool * list ascii :=
  match s with
  | c :: s' =>
      if Ascii.eqb c "-" then (true, s')
      else if Ascii.eqb c "+" then (false, s')
      else (false, s)
  | [] => (false, [])
  end.

(** [e|E [sign] digitpart], giving the decimal exponent. *)
Definition exponent (s : list ascii) : option (Z * list ascii) :=
  match s with
  | c :: s' =>
      if Ascii.eqb (lower c) "e" then
        let (neg, s'') := opt_sign s' in
        match digitpart s'' with
        | Some (ds, r) => Some (signed neg (digits_val ds), r)
        | None => None
        end
      else Some (0, s)
  | [] => Some (0, [])
  end.

(** The decimal [[sign] m * 10^x] as a correctly rounded float. *)
Definition decimal_float (neg : bool) (m x : Z) : float :=
  if m =? 0 then zero neg
  else if 0 <=? x then round_pos neg (m * 10 ^ x) 1
  else round_pos neg m (10 ^ (- x)).

Definition float_of_string (s : string) : result float :=
  let (neg, body) := opt_sign (float_strip (list_ascii_of_string s)) in
  let low := string_of_list_ascii (map lower body) in
  if String.eqb low "inf" || String.eqb low "infinity" then Ok (Inf neg)
  else if String.eqb low "nan" then Ok NaN
  else
    let mantissa :=
      match digitpart body with
      | Some (ip, r) =>
          match r with
          | c :: r' =>
              if Ascii.eqb c "." then
                match digitpart r' with
                | Some (fp, r'') => Some ((ip ++ fp)%list, Z.of_nat (List.length fp), r'')
                | None => Some (ip, 0, r')
                end
              else Some (ip, 0, r)
          | [] => Some (ip, 0, [])
          end
      | None =>
          match body with
          | c :: r =>
              if Ascii.eqb c "." then
                match digitpart r with
                | Some (fp, r') => Some (fp, Z.of_nat (List.length fp), r')
                | None => None
                end
              else None
          | [] => None
          end
      end in
    match mantissa with
    | Some (ds, scale, r) =>
        match exponent r with
        | Some (x, []) => Ok (decimal_float neg (digits_val ds) (x - scale))
        | _ => Raise ValueError
        end
    | None => Raise ValueError
    end.

(** [float(x)]. *)
Definition py_float (v : value) : result float :=
  match v with
  | VFloat f => Ok f
  | VInt z => match of_Z z with Inf _ => Raise OverflowError | f => Ok f end
  | VBool b => Ok (of_Z (if b then 1 else 0))
  | VStr s => float_of_string s
  | _ => Raise TypeError
  end.

(** [x / n] for an integer literal [n] other than zero: true division. *)
Definition truediv_int (x : value) (n : Z) : result float :=
  match x with
  | VInt z => match RN z n with Inf _ => Raise OverflowError | f => Ok f end
  | VBool b => Ok (RN (if b then 1 else 0) n)
  | VFloat f => Ok (fdiv f (of_Z n))
  | _ => Raise TypeError
  end.

(** *** [str(x)] and [repr(x)] *)

Notation "a +++ b" := (String.append a b) (at level 60, right associativity).

Definition Z_to_string (z : Z) : string := NilZero.string_of_int (Z.to_int z).

Definition float_eqb (x y : float) : bool :=
  match x, y with
  | NaN, NaN => true
  | Inf s, Inf s' => Bool.eqb s s'
  | Fin s m e, Fin s' m' e' => Bool.eqb s s' && (m =? m') && (e =? e')
  | _, _ => false
  end.

Definition ge_pow10 (a b k : Z) : bool :=
  if 0 <=? k then b * 10 ^ k <=? a else b <=? a * 10 ^ (- k).

(** [floor (log10 (a / b))] for [0 < a] and [0 < b]. *)
Definition flog10 (a b : Z) : Z :=
  let k0 := flog2 a b * 30103 / 100000 in
  if ge_pow10 a b (k0 + 1) then k0 + 1
  else if ge_pow10 a b k0 then k0 else k0 - 1.

(** The shortest decimal [n * 10^x] that rounds to the positive float
    [Fin false m e], trying [p], [p+1], ... digits; among the candidates of
    one length the one nearest to the float. *)
Fixpoint shortest (fuel : nat) (p : Z) (m e : Z) : Z * Z :=
  let a := m * 2 ^ Z.max 0 e in
  let b := 2 ^ Z.max 0 (- e) in
  let x := flog10 a b - p + 1 in
  let sa := a * 10 ^ Z.max 0 (- x) in
  let sb := b * 10 ^ Z.max 0 x in
  let lo := sa / sb in
  let hi := lo + 1 in
  let ok n := float_eqb (decimal_float false n x) (Fin false m e) in
  let near :=
    match 2 * (sa mod sb) ?= sb with
    | Lt => lo
    | Gt => hi
    | Eq => if Z.even lo then lo else hi
    end in
  match fuel with
  | O => (near, x)
  | S fuel' =>
      if ok lo && ok hi then (near, x)
      else if ok lo then (lo, x)
      else if ok hi then (hi, x)
      else shortest fuel' (p + 1) m e
  end.

Fixpoint strip_zeros (fuel : nat) (n x : Z) : Z * Z :=
  match fuel with
  | O => (n, x)
  | S fuel' => if (n mod 10 =? 0) && negb (n =? 0) then strip_zeros fuel' (n / 10) (x + 1) else (n, x)
  end.

Definition zeros (n : Z) : string := string_of_list_ascii (repeat "0"%char (Z.to_nat n)).

Definition float_repr (f : float) : string :=
  match f with
  | NaN => "nan"
  | Inf s => if s then "-inf" else "inf"
  | Fin s m e =>
      let sign := if s then "-" else "" in
      if m =? 0 then sign +++ "0.0"
      else
        let (n0, x0) := shortest 16 1 m e in
        let (n, x) := strip_zeros 20 n0 x0 in
        let ds := Z_to_string n in
        let len := Z.of_nat (String.length ds) in
        let decpt := len + x in
        if (decpt <=? -4) || (16 <? decpt) then
          let ex := decpt - 1 in
          let exs := Z_to_string (Z.abs ex) in
          sign +++ substring 0 1 ds
               +++ (if len =? 1 then "" else "." +++ substring 1 (String.length ds - 1) ds)
               +++ "e" +++ (if ex <? 0 then "-" else "+")
               +++ (if Z.abs ex <? 10 then "0" else "") +++ exs
        else if decpt <=? 0 then sign +++ "0." +++ zeros (- decpt) +++ ds
        else if len <=? decpt then sign +++ ds +++ zeros (decpt - len) +++ ".0"
        else sign +++ substring 0 (Z.to_nat decpt) ds +++ "."
                  +++ substring (Z.to_nat decpt) (Z.to_nat (len - decpt)) ds
  end.

Definition hex_digit (n : Z) : ascii := if n <? 10 then chr (48 + n) else chr (87 + n).

Definition dquote : ascii := chr 34.
Definition squote : ascii := chr 39.
Definition backslash : ascii := chr 92.

Definition has_char (c : ascii) (s : list ascii) : bool := existsb (Ascii.eqb c) s.

Definition escape_char (q c : ascii) : list ascii :=
  let n := code c in
  if Ascii.eqb c backslash then [backslash; backslash]
  else if Ascii.eqb c q then [backslash; q]
  else if n =? 9 then [backslash; "t"%char]
  else if n =? 10 then [backslash; "n"%char]
  else if n =? 13 then [backslash; "r"%char]
  else if (n <? 32) || ((127 <=? n) && (n <=? 160)) || (n =? 173)
       then [backslash; "x"%char; hex_digit (n / 16); hex_digit (n mod 16)]
  else [c].

Definition str_repr (s : string) : string :=
  let cs := list_ascii_of_string s in
  let q := if has_char squote cs && negb (has_char dquote cs) then dquote else squote in
  string_of_list_ascii (q :: flat_map (escape_char q) cs ++ [q])%list.

Definition join (sep : string) (l : list string) : string :=
  match l with
  | [] => ""
  | x :: l' => fold_left (fun acc y => acc +++ sep +++ y) l' x
  end.

Fixpoint py_repr (v : value) : string :=
  match v with
  | VNone => "None"
  | VBool b => if b then "True" else "False"
  | VInt z => Z_to_string z
  | VFloat f => float_repr f
  | VStr s => str_repr s
  | VList l => "[" +++ join ", " (map py_repr l) +++ "]"
  | VDict d => "{" +++ join ", " (map (fun '(k, x) => str_repr k +++ ": " +++ py_repr x) d) +++ "}"
  end.

(** [str(x)], which is what an f-string field [{x}] produces. *)
Definition py_str (v : value) : string :=
  match v with
  | VStr s => s
  | _ => py_repr v
  end.

(** ** [datetime]

    The calendar arithmetic follows CPython's reference implementation
    ([Lib/datetime.py]); an aware datetime carries [Some utc]. *)

Inductive timezone : Type := utc.

Record datetime : Type := mkdt {
  year : Z; month : Z; day : Z;
  hour : Z; minute : Z; second : Z; microsecond : Z;
  tzinfo : option timezone
}.

Definition replace_tzinfo (d : datetime) (tz : option timezone) : datetime :=
  mkdt (year d) (month d) (day d) (hour d) (minute d) (second d) (microsecond d) tz.

Definition MINYEAR : Z := 1.
Definition MAXYEAR : Z := 9999.

Definition is_leap (y : Z) : bool :=
  (y mod 4 =? 0) && (negb (y mod 100 =? 0) || (y mod 400 =? 0)).

Definition days_before_year (y : Z) : Z :=
  let y := y - 1 in y * 365 + y / 4 - y / 100 + y / 400.

Definition DAYS_IN_MONTH (m : Z) : Z :=
  nth (Z.to_nat m) [-1; 31; 28; 31; 30; 31; 30; 31; 31; 30; 31; 30; 31] (-1).

Definition DAYS_BEFORE_MONTH (m : Z) : Z :=
  nth (Z.to_nat m) [-1; 0; 31; 59; 90; 120; 151; 181; 212; 243; 273; 304; 334] (-1).

Definition days_in_month (y m : Z) : Z :=
  if (m =? 2) && is_leap y then 29 else DAYS_IN_MONTH m.

Definition days_before_month (y m : Z) : Z :=
  DAYS_BEFORE_MONTH m + (if (2 <? m) && is_leap y then 1 else 0).

Definition ymd2ord (y m d : Z) : Z :=
  days_before_year y + days_before_month y m + d.

Definition DI400Y : Z := 146097.
Definition DI100Y : Z := 36524.
Definition DI4Y : Z := 1461.

Definition ord2ymd (n : Z) : Z * Z * Z :=
  let n := n - 1 in
  let n400 := n / DI400Y in
  let n := n mod DI400Y in
  let y := n400 * 400 + 1 in
  let n100 := n / DI100Y in
  let n := n mod DI100Y in
  let n4 := n / DI4Y in
  let n := n mod DI4Y in
  let n1 := n / 365 in
  let n := n mod 365 in
  let y := y + n100 * 100 + n4 * 4 + n1 in
  if (n1 =? 4) || (n100 =? 4) then (y - 1, 12, 31)
  else
    let leapyear := (n1 =? 3) && (negb (n4 =? 24) || (n100 =? 3)) in
    let m := (n + 50) / 32 in
    let preceding := DAYS_BEFORE_MONTH m + (if (2 <? m) && leapyear then 1 else 0) in
    if n <? preceding then
      let m := m - 1 in
      let preceding :=
        preceding - (DAYS_IN_MONTH m + (if (m =? 2) && leapyear then 1 else 0)) in
      (y, m, n - preceding + 1)
    else (y, m, n - preceding + 1).

(** The constructor [datetime(y, m, d, hh, mm, ss, us, tz)] with its checks. *)
Definition new_datetime (y m d hh mm ss us : Z) (tz : option timezone)
  : result datetime :=
  if negb ((MINYEAR <=? y) && (y <=? MAXYEAR)) then Raise ValueError
  else if negb ((1 <=? m) && (m <=? 12)) then Raise ValueError
  else if negb ((1 <=? d) && (d <=? days_in_month y m)) then Raise ValueError
  else if negb ((0 <=? hh) && (hh <=? 23)) then Raise ValueError
  else if negb ((0 <=? mm) && (mm <=? 59)) then Raise ValueError
  else if negb ((0 <=? ss) && (ss <=? 59)) then Raise ValueError
  else if negb ((0 <=? us) && (us <=? 999999)) then Raise ValueError
  else Ok (mkdt y m d hh mm ss us tz).

(** [time.gmtime]: broken-down UTC time of a number of seconds since the
    epoch (1970-01-01 is ordinal 719163).  The C library refuses a year
    that does not fit [tm_year], a 32-bit count of years since 1900. *)
Definition broken_down : Type := (Z * Z * Z * Z * Z * Z)%type.

Definition gmtime (secs : Z) : result broken_down :=
  let days := secs / 86400 in
  let rem := secs mod 86400 in
  let '(y, m, d) := ord2ymd (days + 719163) in
  if (- 2 ^ 31 <=? y - 1900) && (y - 1900 <? 2 ^ 31)
  then Ok (y, m, d, rem / 3600, rem mod 3600 / 60, rem mod 60)
  else Raise OSError.

(** [round(x)] of a float: the nearest integer, ties to even. *)
Definition py_round (x : float) : result Z :=
  match x with
  | NaN => Raise ValueError
  | Inf _ => Raise OverflowError
  | Fin s m e => Ok (signed s (if 0 <=? e then m * 2 ^ e else rhe m (2 ^ (- e))))
  end.

(** An integral float as a [time_t] (a signed 64-bit integer).  The range
    test is made on doubles, so [2^63] itself passes and wraps around. *)
Definition to_time_t (x : float) : result Z :=
  match x with
  | Fin s m e =>
      let z := signed s (if 0 <=? e then m * 2 ^ e else m / 2 ^ (- e)) in
      if (- 2 ^ 63 <=? z) && (z <=? 2 ^ 63)
      then Ok (if z =? 2 ^ 63 then - 2 ^ 63 else z)
      else Raise OverflowError
  | _ => Raise OverflowError
  end.

(** [datetime._fromtimestamp(t, utc, tz)] for a float [t], with the
    platform's [converter] ([time.gmtime] when a time zone is given,
    [time.localtime] otherwise).  [timezone.utc.fromutc] adds a zero
    offset. *)
Definition fromtimestamp_with (converter : Z -> result broken_down)
    (t : float) (tz : option timezone) : result datetime :=
  match t with
  | NaN => Raise ValueError
  | _ =>
      let (frac, ipart) := modf t in
      match py_round (fmul frac (of_Z 1000000)) with
      | Raise _ => Raise OverflowError
      | Ok us =>
          let ipart' :=
            if 1000000 <=? us then fadd ipart (of_Z 1)
            else if us <? 0 then fadd ipart (of_Z (-1))
            else ipart in
          let us' :=
            if 1000000 <=? us then us - 1000000
            else if us <? 0 then us + 1000000
            else us in
          (secs <- to_time_t ipart' ;;
           tm <- converter secs ;;
           let '(y, m, d, hh, mm, ss) := tm in
           new_datetime y m d hh mm (Z.min ss 59) us' tz)%result
      end
  end.

Definition utc_fromtimestamp (t : float) : result datetime :=
  fromtimestamp_with gmtime t (Some utc).

(** *** [datetime.strptime]

    A format is compiled to a regular expression whose directives are
    matched by backtracking, alternatives in the order CPython lists them;
    a run of white space in the format matches one or more white-space
    characters.  A matcher returns every way to match a prefix, in the
    order a backtracking engine tries them. *)

Inductive directive : Type :=
| DY | Dm | Dd | DH | DM
| DSpace
| DLit (c : ascii).

Definition matcher := list ascii -> list (list ascii * list ascii).

Definition m_class (p : ascii -> bool) : matcher :=
  fun s => match s with
           | c :: s' => if p c then [([c], s')] else []
           | [] => []
           end.

Definition m_range (lo hi : Z) : matcher :=
  m_class (fun c => (lo <=? code c) && (code c <=? hi)).

Definition m_seq (p q : matcher) : matcher :=
  fun s => flat_map (fun '(a, r) => map (fun '(b, r') => ((a ++ b)%list, r')) (q r)) (p s).

Definition m_alt (p q : matcher) : matcher := fun s => (p s ++ q s)%list.

Definition m_digit : matcher := m_class is_digit.
Definition m_chr (c : ascii) : matcher := m_class (Ascii.eqb c).

(** [\s+], greedy: the longest run first, then shorter ones. *)
Fixpoint m_spaces_from (acc : list ascii) (s : list ascii)
  : list (list ascii * list ascii) :=
  match s with
  | c :: s' =>
      if is_space c then
        (m_spaces_from (acc ++ [c]) s' ++ [((acc ++ [c])%list, s')])%list
      else []
  | [] => []
  end.

Definition m_spaces : matcher := m_spaces_from [].

Definition re_Y : matcher := m_seq m_digit (m_seq m_digit (m_seq m_digit m_digit)).
Definition re_m : matcher :=
  m_alt (m_seq (m_chr "1") (m_range 48 50))
    (m_alt (m_seq (m_chr "0") (m_range 49 57)) (m_range 49 57)).
Definition re_d : matcher :=
  m_alt (m_seq (m_chr "3") (m_range 48 49))
    (m_alt (m_seq (m_range 49 50) m_digit)
       (m_alt (m_seq (m_chr "0") (m_range 49 57))
          (m_alt (m_range 49 57) (m_seq (m_chr " ") (m_range 49 57))))).
Definition re_H : matcher :=
  m_alt (m_seq (m_chr "2") (m_range 48 51))
    (m_alt (m_seq (m_range 48 49) m_digit) m_digit).
Definition re_M : matcher := m_alt (m_seq (m_range 48 53) m_digit) m_digit.

(** The fields found so far: year, month, day, hour, minute. *)
Record found : Type := mkfound {
  f_year : option Z; f_month : Z; f_day : Z; f_hour : Z; f_minute : Z
}.

(** [int(s)] of a matched group: digits, possibly after a space. *)
Definition group_int (g : list ascii) : Z := digits_val (lstrip g).

Definition set_field (d : directive) (g : list ascii) (f : found) : found :=
  match d with
  | DY => mkfound (Some (group_int g)) (f_month f) (f_day f) (f_hour f) (f_minute f)
  | Dm => mkfound (f_year f) (group_int g) (f_day f) (f_hour f) (f_minute f)
  | Dd => mkfound (f_year f) (f_month f) (group_int g) (f_hour f) (f_minute f)
  | DH => mkfound (f_year f) (f_month f) (f_day f) (group_int g) (f_minute f)
  | DM => mkfound (f_year f) (f_month f) (f_day f) (f_hour f) (group_int g)
  | _ => f
  end.

Definition directive_re (d : directive) : matcher :=
  match d with
  | DY => re_Y | Dm => re_m | Dd => re_d | DH => re_H | DM => re_M
  | DSpace => m_spaces
  | DLit c => m_chr c
  end.

(** Every match of the compiled format against a prefix of [s], in
    backtracking order, with the fields it binds. *)
Fixpoint match_format (fmt : list directive) (f : found) (s : list ascii)
  : list (found * list ascii) :=
  match fmt with
  | [] => [(f, s)]
  | d :: fmt' =>
      flat_map (fun '(g, r) => match_format fmt' (set_field d g f) r)
               (directive_re d s)
  end.

(** The format string as directives; [None] for a directive outside
    [%Y %m %d %H %M]. *)
Fixpoint compile_format (fmt : list ascii) : option (list directive) :=
  match fmt with
  | [] => Some []
  | c :: fmt' =>
      if Ascii.eqb c "%" then
        match fmt' with
        | k :: fmt'' =>
            let d :=
              if Ascii.eqb k "Y" then Some DY
              else if Ascii.eqb k "m" then Some Dm
              else if Ascii.eqb k "d" then Some Dd
              else if Ascii.eqb k "H" then Some DH
              else if Ascii.eqb k "M" then Some DM
              else None in
            match d, compile_format fmt'' with
            | Some d, Some ds => Some (d :: ds)
            | _, _ => None
            end
        | [] => None
        end
      else
        match compile_format fmt' with
        | Some ds =>
            if is_space c then
              match ds with
              | DSpace :: _ => Some ds
              | _ => Some (DSpace :: ds)
              end
            else Some (DLit c :: ds)
        | None => None
        end
  end.

(** [datetime.strptime(data, format)]: a naive datetime. *)
Definition strptime (data format : string) : result datetime :=
  match compile_format (list_ascii_of_string format) with
  | None => Raise ValueError
  | Some fmt =>
      match match_format fmt (mkfound None 1 1 0 0) (list_ascii_of_string data) with
      | [] => Raise ValueError
      | (f, rest) :: _ =>
          match rest with
          | _ :: _ => Raise ValueError
          | [] =>
              new_datetime (match f_year f with Some y => y | None => 1900 end)
                           (f_month f) (f_day f) (f_hour f) (f_minute f) 0 0 None
          end
      end
  end.

(** ** Disaster events and the world around the agent *)

(** The unified record both normalisers build (a Python dict with exactly
    these five keys). *)
Record Event : Type := mkEvent {
  type : string;
  place : value;
  magnitude : value;
  coords : list value;
  time : datetime
}.

(** *** Values and dates as the collection holds and compares them

    The driver writes a record as a BSON document: [None], booleans,
    strings, lists and dictionaries as they are, an integer as an int32 or
    int64, a float as a double, a datetime as a UTC instant in whole
    milliseconds.  In a filter the server compares numbers by value,
    whatever their types; [nan] equals [nan] and the two zeros are equal;
    a boolean equals only a boolean; lists compare element by element and
    embedded documents field by field, in order. *)

Definition float_same (x y : float) : bool :=
  match x, y with
  | NaN, NaN => true
  | _, _ => leb x y && leb y x
  end.

Definition int_float_same (z : Z) (f : float) : bool :=
  Z_leb_float z f && float_leb_Z f z.

Fixpoint bson_eqb (a b : value) : bool :=
  match a, b with
  | VNone, VNone => true
  | VBool x, VBool y => Bool.eqb x y
  | VInt x, VInt y => x =? y
  | VInt x, VFloat y => int_float_same x y
  | VFloat x, VInt y => int_float_same y x
  | VFloat x, VFloat y => float_same x y
  | VStr x, VStr y => String.eqb x y
  | VList x, VList y =>
      (fix go (x y : list value) : bool :=
         match x, y with
         | [], [] => true
         | a :: x', b :: y' => bson_eqb a b && go x' y'
         | _, _ => false
         end) x y
  | VDict x, VDict y =>
      (fix go (x y : list (string * value)) : bool :=
         match x, y with
         | [], [] => true
         | (k, a) :: x', (k', b) :: y' => String.eqb k k' && bson_eqb a b && go x' y'
         | _, _ => false
         end) x y
  | _, _ => false
  end.

Fixpoint bson_list_eqb (x y : list value) : bool :=
  match x, y with
  | [], [] => true
  | a :: x', b :: y' => bson_eqb a b && bson_list_eqb x' y'
  | _, _ => false
  end.

(** The BSON date of a datetime: milliseconds since the epoch, as the
    driver computes them ([calendar.timegm] of the fields, times 1000, plus
    [microsecond // 1000]); a naive datetime is read as UTC, and the
    offset of [timezone.utc] is zero. *)
Definition EPOCH_ORD : Z := 719163.

Definition timegm (t : datetime) : Z :=
  let days := ymd2ord (year t) (month t) 1 - EPOCH_ORD + day t - 1 in
  let hours := days * 24 + hour t in
  let minutes := hours * 60 + minute t in
  minutes * 60 + second t.

Definition millis (t : datetime) : Z := timegm t * 1000 + microsecond t / 1000.

(** A date as the collection holds it and hands it back: to the
    millisecond, without a time zone. *)
Definition bson_date (t : datetime) : datetime :=
  mkdt (year t) (month t) (day t) (hour t) (minute t) (second t)
       (microsecond t / 1000 * 1000) None.

(** The document stored for a record. *)
Definition stored (ev : Event) : Event :=
  mkEvent (type ev) (place ev) (magnitude ev) (coords ev) (bson_date (time ev)).

(** What the agent does to the outside, in order. *)
Inductive effect : Type :=
| Print (msg : string)
| PrintExn (msg : string) (e : exn)
| HttpGet (url : string)
| ReadClock
| UpdateOne (filter_coords : list value) (filter_time : datetime)
            (set_on_insert : Event).

(** What [requests.get(url)] does: it raises, or returns a response with a
    status code whose [json()] raises or returns the decoded body. *)
Inductive http_outcome : Type :=
| GetRaises (e : exn)
| GetReturns (status : Z) (json : result value).

(** The environment decides what the agent cannot: the answer to a request,
    the clock, the platform's local time, whether a write fails (the
    driver refusing a document or the server a request), and which text
    the encoding of standard output can encode.  The first four are asked
    with the number of effects performed so far. *)
Record Env : Type := mkEnv {
  http : nat -> string -> http_outcome;
  clock : nat -> datetime;
  localtime : Z -> result broken_down;
  write_fails : nat -> option exn;
  stdout_encodes : string -> bool
}.

(** The collection [disasters] and the trace of effects. *)
Record World : Type := mkWorld {
  docs : list Event;
  trace : list effect
}.

(** *** The monad: environment, state and exceptions *)

Definition M (A : Type) : Type := Env -> World -> result A * World.

Definition ret {A} (a : A) : M A := fun _ w => (Ok a, w).

Definition raise {A} (e : exn) : M A := fun _ w => (Raise e, w).

Definition bind {A B} (c : M A) (k : A -> M B) : M B :=
  fun env w =>
    match c env w with
    | (Ok a, w') => k a env w'
    | (Raise e, w') => (Raise e, w')
    end.

Definition lift {A} (r : result A) : M A := fun _ w => (r, w).

(** [try: body / except Exception as e: handler e]. *)
Definition try_except {A} (body : M A) (handler : exn -> M A) : M A :=
  fun env w =>
    match body env w with
    | (Ok a, w') => (Ok a, w')
    | (Raise e, w') => handler e env w'
    end.

Definition emit (e : effect) : M unit :=
  fun _ w => (Ok tt, mkWorld (docs w) (trace w ++ [e])).

Declare Scope monad_scope.
Delimit Scope monad_scope with monad.
Notation "x <- c ;; k" := (bind c (fun x => k))
  (at level 61, c at next level, right associativity) : monad_scope.
Notation "c ;; k" := (bind c (fun _ => k))
  (at level 61, right associativity) : monad_scope.
Local Open Scope monad_scope.

(** [print(msg)].  A printed text is given by its UTF-8 bytes.  Text
    that is all ASCII is written whatever the encoding of standard output;
    other text is written when that encoding has its characters, and
    otherwise [print] raises [UnicodeEncodeError] before anything is
    written. *)
Definition is_ascii_text (s : string) : bool :=
  forallb (fun c => code c <? 128) (list_ascii_of_string s).

Definition print (msg : string) : M unit :=
  fun env w =>
    if is_ascii_text msg || stdout_encodes env msg then emit (Print msg) env w
    else (Raise UnicodeEncodeError, w).

(** [datetime.now(timezone.utc)]. *)
Definition now_utc : M datetime :=
  fun env w =>
    (Ok (clock env (List.length (trace w))), mkWorld (docs w) (trace w ++ [ReadClock])).

(** [datetime.fromtimestamp(t, tz=tz)]. *)
Definition fromtimestamp (t : float) (tz : option timezone) : M datetime :=
  fun env w =>
    (fromtimestamp_with (match tz with Some _ => gmtime | None => localtime env end) t tz,
     w).

(** A list in a filter matches a stored list that equals it, or that
    holds a list equal to it among its elements. *)
Definition coords_match (c : list value) (field : list value) : bool :=
  bson_list_eqb c field
  || existsb (fun x => match x with VList l => bson_list_eqb c l | _ => false end) field.

(** A filter [{coords: c, time: t}] matches a stored document. *)
Definition matches (c : list value) (t : datetime) (d : Event) : bool :=
  coords_match c (coords d) && (millis t =? millis (time d)).

(** [coll.update_one({coords: c, time: t}, {$setOnInsert: ev}, upsert=True)]:
    when the call fails the collection is unchanged; when a document
    matches nothing is modified; otherwise a document is inserted, made
    of the filter's two fields and then of the fields of [ev], which set
    all five, [coords] and [time] among them. *)
Definition update_one (c : list value) (t : datetime) (ev : Event) : M unit :=
  fun env w =>
    let tr := (trace w ++ [UpdateOne c t ev])%list in
    match write_fails env (List.length (trace w)) with
    | Some e => (Raise e, mkWorld (docs w) tr)
    | None =>
        if existsb (matches c t) (docs w) then (Ok tt, mkWorld (docs w) tr)
        else (Ok tt, mkWorld (docs w ++ [stored ev]) tr)
    end.

(** ** The agent *)

Definition f6 : float := of_Z 6.
Definition f37 : float := of_Z 37.
Definition f68 : float := of_Z 68.
Definition f97 : float := of_Z 97.

(** [x <= v] and [v <= x] for a float literal [x]. *)
Definition le_float_value (x : float) (v : value) : result bool :=
  match v with
  | VFloat f => Ok (leb x f)
  | VInt z => Ok (float_leb_Z x z)
  | VBool b => Ok (float_leb_Z x (if b then 1 else 0))
  | _ => Raise TypeError
  end.

Definition le_value_float (v : value) (x : float) : result bool :=
  match v with
  | VFloat f => Ok (leb f x)
  | VInt z => Ok (Z_leb_float z x)
  | VBool b => Ok (Z_leb_float (if b then 1 else 0) x)
  | _ => Raise TypeError
  end.

(** [lo <= v <= hi]: the second comparison is made only when the first
    holds. *)
Definition between (lo : float) (v : value) (hi : float) : result bool :=
  (a <- le_float_value lo v ;;
   if a then le_value_float v hi else Ok false)%result.

Definition in_india (lat lon : value) : result bool :=
  (a <- between f6 lat f37 ;;
   if a then between f68 lon f97 else Ok false)%result.

Definition normalize_usgs (event : value) : M Event :=
  g <- lift (getitem event "geometry") ;;
  cs <- lift (getitem g "coordinates") ;;
  props <- lift (getitem event "properties") ;;
  pl <- lift (dict_get props "place") ;;
  mag <- lift (dict_get props "mag") ;;
  c0 <- lift (getindex cs 0) ;;
  c1 <- lift (getindex cs 1) ;;
  ms <- lift (getitem props "time") ;;
  t <- lift (truediv_int ms 1000) ;;
  tm <- fromtimestamp t (Some utc) ;;
  ret (mkEvent "earthquake" pl mag [c0; c1] tm).

Definition normalize_firms (event : value) : M Event :=
  g <- lift (getitem event "geometry") ;;
  cs <- lift (getitem g "coordinates") ;;
  props <- lift (getitem event "properties") ;;
  brightness <- lift (dict_get props "brightness") ;;
  acq_date <- lift (dict_get props "acq_date") ;;
  acq_time <- lift (dict_get props "acq_time") ;;
  event_time <-
    try_except
      (d <- lift (strptime (py_str acq_date +++ " " +++ py_str acq_time)
                           "%Y-%m-%d %H%M") ;;
       ret (replace_tzinfo d (Some utc)))
      (fun _ => now_utc) ;;
  sat <- lift (dict_get props "satellite") ;;
  mag <- (if truthy brightness
          then f <- lift (py_float brightness) ;; ret (VFloat (fdiv f (of_Z 100)))
          else ret VNone) ;;
  c0 <- lift (getindex cs 0) ;;
  c1 <- lift (getindex cs 1) ;;
  ret (mkEvent "fire" (py_or sat (VStr "Unknown area")) mag [c0; c1] event_time).

(** The loop of [upsert_events], with the counter [inserted].  The text
    of an exception of the driver is taken to be ASCII, as the driver's
    own messages are: printing it does not fail. *)
Fixpoint upsert_loop (events : list Event) (inserted : Z) : M Z :=
  match events with
  | [] => ret inserted
  | ev :: rest =>
      inserted' <-
        try_except
          (update_one (coords ev) (time ev) ev ;; ret (inserted + 1))
          (fun e => emit (PrintExn "Upsert failed:" e) ;; ret inserted) ;;
      upsert_loop rest inserted'
  end.

Definition upsert_events (events : list Event) : M Z := upsert_loop events 0.

Definition USGS_URL : string :=
  "https://earthquake.usgs.gov/earthquakes/feed/v1.0/summary/all_day.geojson".
Definition FIRMS_URL : string :=
  "https://firms.modaps.eosdis.nasa.gov/data/active_fire/c6/geojson/global/24h.json".

(** [requests.get(url).json()["features"]]. *)
Definition fetch_features (url : string) : M value :=
  fun env w =>
    let w' := mkWorld (docs w) (trace w ++ [HttpGet url]) in
    match http env (List.length (trace w)) url with
    | GetRaises e => (Raise e, w')
    | GetReturns _ (Raise e) => (Raise e, w')
    | GetReturns _ (Ok body) => (getitem body "features", w')
    end.

(** The filter of both comprehensions:
    [in_india(f["geometry"]["coordinates"][1], f["geometry"]["coordinates"][0])]. *)
Definition feature_in_india (f : value) : result bool :=
  (g <- getitem f "geometry" ;;
   cs <- getitem g "coordinates" ;;
   lat <- getindex cs 1 ;;
   g' <- getitem f "geometry" ;;
   cs' <- getitem g' "coordinates" ;;
   lon <- getindex cs' 0 ;;
   in_india lat lon)%result.

(** [[normalize(f) for f in features if feature_in_india(f)]]. *)
Fixpoint comprehension (normalize : value -> M Event) (features : list value)
  : M (list Event) :=
  match features with
  | [] => ret []
  | f :: rest =>
      keep <- lift (feature_in_india f) ;;
      if keep then
        ev <- normalize f ;;
        evs <- comprehension normalize rest ;;
        ret (ev :: evs)
      else comprehension normalize rest
  end.

(** The check mark U+2705 that opens the last message, in UTF-8. *)
Definition CHECK_MARK : string :=
  String (chr 226) (String (chr 156) (String (chr 133) EmptyString)).

(** [f"<U+2705> Inserted/updated {inserted} disaster records in MongoDB."] *)
Definition completion_message (inserted : Z) : string :=
  CHECK_MARK +++ " Inserted/updated " +++ Z_to_string inserted
             +++ " disaster records in MongoDB.".

Definition run_pipeline : M Z :=
  print "Fetching earthquake data..." ;;
  eq_data <- fetch_features USGS_URL ;;
  print "Fetching fire data..." ;;
  fire_data <- fetch_features FIRMS_URL ;;
  eq_list <- lift (py_iter eq_data) ;;
  earthquakes <- comprehension normalize_usgs eq_list ;;
  fire_list <- lift (py_iter fire_data) ;;
  fires <- comprehension normalize_firms fire_list ;;
  let all_events := (earthquakes ++ fires)%list in
  inserted <- upsert_events all_events ;;
  print (completion_message inserted) ;;
  ret inserted.

(** * Properties *)

(** ** The geographic filter *)

(** The number a Python value stands for: integers and booleans exactly,
    finite floats exactly; nothing for [nan], the infinities and the
    values that are not numbers. *)
Definition num_value (v : value) : option Q :=
  match v with
  | VInt z => Some (inject_Z z)
  | VBool b => Some (inject_Z (if b then 1 else 0))
  | VFloat f => F2Q f
  | _ => None
  end.

Definition is_number (v : value) : bool :=
  match v with
  | VInt _ | VBool _ | VFloat _ => true
  | _ => false
  end.

(** The bounding box as the specification words it: latitude in
    [[6, 37]] and longitude in [[68, 97]], bounds included. *)
Definition in_box (lat lon : value) : Prop :=
  exists x y : Q,
    num_value lat = Some x /\ num_value lon = Some y
    /\ (6 <= x)%Q /\ (x <= 37)%Q /\ (68 <= y)%Q /\ (y <= 97)%Q.

Lemma between_spec (lo hi : float) (ql qh : Q) (a b : Z) (v : value) :
  F2Q lo = Some ql -> F2Q hi = Some qh ->
  (ql == inject_Z a)%Q -> (qh == inject_Z b)%Q ->
  (between lo v hi = Ok true <->
   exists x, num_value v = Some x /\ (inject_Z a <= x)%Q /\ (x <= inject_Z b)%Q)
  /\ (is_number v = true -> exists r, between lo v hi = Ok r).
Proof.
  intros Hlo Hhi Ql Qh.
  destruct lo as [| sl | sl ml el]; try discriminate.
  destruct hi as [| sh | sh mh eh]; try discriminate.
  simpl in Hlo, Hhi. inversion Hlo as [El]. inversion Hhi as [Eh].
  rewrite <- El in Ql. rewrite <- Eh in Qh. clear Hlo Hhi El Eh ql qh.
  assert (Num : forall x : Q,
             (if Qle_bool (if sl then - mag ml el else mag ml el) x
              then Ok (Qle_bool x (if sh then - mag mh eh else mag mh eh))
              else Ok false) = Ok true
             <-> (inject_Z a <= x)%Q /\ (x <= inject_Z b)%Q).
  { intro x. destruct (Qle_bool _ x) eqn:E1.
    - apply Qle_bool_iff in E1. rewrite Ql in E1.
      split.
      + intro H. inversion H as [H1]. apply Qle_bool_iff in H1.
        rewrite Qh in H1. split; assumption.
      + intros [_ H2]. f_equal. apply Qle_bool_iff. rewrite Qh. exact H2.
    - split; [discriminate |].
      intros [H1 _]. rewrite <- Ql in H1. apply Qle_bool_iff in H1. congruence. }
  split.
  - unfold between.
    destruct v as [| bv | z | f | s | l | d]; simpl;
      try (split; [discriminate | intros (x & Hx & _); discriminate]).
    + rewrite Num. split.
      * intro H. exists (inject_Z (if bv then 1 else 0)). split; [reflexivity | exact H].
      * intros (x & Hx & H). inversion Hx; subst. exact H.
    + rewrite Num. split.
      * intro H. exists (inject_Z z). split; [reflexivity | exact H].
      * intros (x & Hx & H). inversion Hx; subst. exact H.
    + destruct f as [| s | s m e]; simpl.
      * split; [discriminate | intros (x & Hx & _); discriminate].
      * split; [| intros (x & Hx & _); discriminate].
        destruct sl, s; simpl; discriminate.
      * rewrite Num. split.
        -- intro H. eexists. split; [reflexivity | exact H].
        -- intros (x & Hx & H). inversion Hx; subst. exact H.
  - unfold between. destruct v as [| bv | z | f | s | l | d]; simpl; try discriminate; intros _.
    + destruct (Qle_bool _ _); eexists; reflexivity.
    + destruct (Qle_bool _ _); eexists; reflexivity.
    + destruct f as [| s | s m e]; simpl.
      * eexists; reflexivity.
      * destruct s; simpl; eexists; reflexivity.
      * destruct (Qle_bool _ _); eexists; reflexivity.
Qed.

Lemma literal_values :
  F2Q f6 = Some (mag 6755399441055744 (-50))
  /\ F2Q f37 = Some (mag 5207287069147136 (-47))
  /\ F2Q f68 = Some (mag 4785074604081152 (-46))
  /\ F2Q f97 = Some (mag 6825768185233408 (-46)).
Proof. repeat split; reflexivity. Qed.

(** C2. [in_india lat lon] returns [True] exactly when the latitude is in
    [[6, 37]] and the longitude in [[68, 97]], both bounds included; on
    numbers it always returns a boolean. *)
Theorem in_india_iff_in_box (lat lon : value) :
  (in_india lat lon = Ok true <-> in_box lat lon)
  /\ (is_number lat = true -> is_number lon = true ->
      exists r, in_india lat lon = Ok r).
Proof.
  destruct literal_values as (V6 & V37 & V68 & V97).
  assert (Q6 : (mag 6755399441055744 (-50) == inject_Z 6)%Q) by reflexivity.
  assert (Q37 : (mag 5207287069147136 (-47) == inject_Z 37)%Q) by reflexivity.
  assert (Q68 : (mag 4785074604081152 (-46) == inject_Z 68)%Q) by reflexivity.
  assert (Q97 : (mag 6825768185233408 (-46) == inject_Z 97)%Q) by reflexivity.
  destruct (between_spec f6 f37 _ _ 6 37 lat V6 V37 Q6 Q37) as [Lat LatT].
  destruct (between_spec f68 f97 _ _ 68 97 lon V68 V97 Q68 Q97) as [Lon LonT].
  split.
  - unfold in_india, in_box.
    destruct (between f6 lat f37) as [[|] | e] eqn:E; simpl.
    + rewrite Lon. split.
      * intros (y & Hy & Hy1 & Hy2).
        destruct (proj1 Lat eq_refl) as (x & Hx & Hx1 & Hx2).
        exists x, y. repeat split; assumption.
      * intros (x & y & Hx & Hy & _ & _ & Hy1 & Hy2).
        exists y. repeat split; assumption.
    + split; [discriminate |].
      intros (x & y & Hx & Hy & Hx1 & Hx2 & _).
      assert (H : Ok false = Ok true).
      { apply Lat. exists x. repeat split; assumption. }
      discriminate.
    + split; [discriminate |].
      intros (x & y & Hx & Hy & Hx1 & Hx2 & _).
      assert (H : Raise e = Ok true).
      { apply Lat. exists x. repeat split; assumption. }
      discriminate.
  - intros Nlat Nlon. unfold in_india.
    destruct (LatT Nlat) as [r ->]. simpl.
    destruct r; [exact (LonT Nlon) | eexists; reflexivity].
Qed.

(** The boundary latitudes [6.0] and [37.0] pass, and so do the boundary
    longitudes; a point just outside does not. *)
Example in_india_boundaries :
  in_india (VFloat (of_Z 6)) (VFloat (of_prim 77.2%float)) = Ok true
  /\ in_india (VFloat (of_Z 37)) (VFloat (of_prim 77.2%float)) = Ok true
  /\ in_india (VFloat (of_prim 28.6%float)) (VInt 68) = Ok true
  /\ in_india (VFloat (of_prim 28.6%float)) (VInt 97) = Ok true
  /\ in_india (VFloat (of_prim 5.999999%float)) (VInt 80) = Ok false
  /\ in_india (VFloat (of_prim 50.0%float)) (VFloat (of_prim (-10.0)%float)) = Ok false
  /\ in_india (VFloat (of_prim 50.0%float)) (VStr "east") = Ok false
  /\ in_india (VFloat NaN) (VInt 80) = Ok false
  /\ in_india (VStr "north") (VInt 80) = Raise TypeError.
Proof. vm_compute. repeat split; reflexivity. Qed.

(** ** The seismic normaliser *)

(** [d.get(k)] on a dictionary: the value, or [None]. *)
Definition get_or_none (k : string) (d : list (string * value)) : value :=
  match dict_lookup k d with
  | Some v => v
  | None => VNone
  end.

(** The record [normalize_usgs] computes, as a function of the feature
    alone. *)
Definition usgs_record (event : value) : result Event :=
  (g <- getitem event "geometry" ;;
   cs <- getitem g "coordinates" ;;
   props <- getitem event "properties" ;;
   pl <- dict_get props "place" ;;
   mag <- dict_get props "mag" ;;
   c0 <- getindex cs 0 ;;
   c1 <- getindex cs 1 ;;
   ms <- getitem props "time" ;;
   t <- truediv_int ms 1000 ;;
   tm <- utc_fromtimestamp t ;;
   Ok (mkEvent "earthquake" pl mag [c0; c1] tm))%result.

Ltac run_step :=
  match goal with
  | |- context [rbind ?r _] =>
      let E := fresh "E" in destruct r eqn:E; simpl; try reflexivity
  end.

Lemma normalize_usgs_run (event : value) (env : Env) (w : World) :
  normalize_usgs event env w = (usgs_record event, w).
Proof.
  unfold normalize_usgs, usgs_record, bind, lift, ret, fromtimestamp, utc_fromtimestamp.
  repeat run_step.
Qed.

Lemma usgs_record_ok (event g : value) (c0 c1 : value) (rest : list value)
    (d : list (string * value)) (ms : value) (t : float) (tm : datetime) :
  getitem event "geometry" = Ok g ->
  getitem g "coordinates" = Ok (VList (c0 :: c1 :: rest)) ->
  getitem event "properties" = Ok (VDict d) ->
  dict_lookup "time" d = Some ms ->
  truediv_int ms 1000 = Ok t ->
  utc_fromtimestamp t = Ok tm ->
  usgs_record event
  = Ok (mkEvent "earthquake" (get_or_none "place" d) (get_or_none "mag" d) [c0; c1] tm).
Proof.
  intros Hg Hc Hp Ht Hd Hf. unfold usgs_record.
  rewrite Hg; simpl. rewrite Hc; simpl. rewrite Hp; simpl.
  rewrite Ht. unfold get_or_none.
  destruct (dict_lookup "place" d); destruct (dict_lookup "mag" d); simpl;
    rewrite Hd; simpl; rewrite Hf; reflexivity.
Qed.

(** C8. Seismic normalisation is deterministic: the record depends on the
    feature alone (not on the network, the clock, the local time zone or
    the collection), the world is left as it was, and normalising the same
    feature twice gives the same record. *)
Theorem normalize_usgs_deterministic (event : value) :
  (forall env1 env2 w1 w2,
      fst (normalize_usgs event env1 w1) = fst (normalize_usgs event env2 w2))
  /\ (forall env w, snd (normalize_usgs event env w) = w)
  /\ (forall env w r1 r2 w',
         (a <- normalize_usgs event ;; b <- normalize_usgs event ;; ret (a, b)) env w
         = (Ok (r1, r2), w') ->
         r1 = r2 /\ w' = w).
Proof.
  split; [| split].
  - intros. rewrite !normalize_usgs_run. reflexivity.
  - intros. rewrite normalize_usgs_run. reflexivity.
  - intros env w r1 r2 w'. unfold bind, ret. rewrite normalize_usgs_run.
    destruct (usgs_record event) as [r | e] eqn:E.
    + rewrite normalize_usgs_run, E. intro H. inversion H; subst. split; reflexivity.
    + discriminate.
Qed.

(** C9. A feature whose properties lack the key [time] makes the
    normaliser raise, and so does one whose coordinates have fewer than
    two elements; a missing [place] or [mag] raises nothing and the field
    is [None]. *)
Theorem normalize_usgs_required_fields (event : value) (env : Env) (w : World) :
  (forall d, getitem event "properties" = Ok (VDict d) ->
             dict_lookup "time" d = None ->
             exists e, fst (normalize_usgs event env w) = Raise e)
  /\ (forall g c0 c1 rest d,
         getitem event "geometry" = Ok g ->
         getitem g "coordinates" = Ok (VList (c0 :: c1 :: rest)) ->
         getitem event "properties" = Ok (VDict d) ->
         dict_lookup "time" d = None ->
         fst (normalize_usgs event env w) = Raise (KeyError "time"))
  /\ (forall g l,
         getitem event "geometry" = Ok g ->
         getitem g "coordinates" = Ok (VList l) ->
         (List.length l < 2)%nat ->
         exists e, fst (normalize_usgs event env w) = Raise e)
  /\ (forall g l d,
         getitem event "geometry" = Ok g ->
         getitem g "coordinates" = Ok (VList l) ->
         getitem event "properties" = Ok (VDict d) ->
         (List.length l < 2)%nat ->
         fst (normalize_usgs event env w) = Raise IndexError)
  /\ (forall g c0 c1 rest d ms t tm,
         getitem event "geometry" = Ok g ->
         getitem g "coordinates" = Ok (VList (c0 :: c1 :: rest)) ->
         getitem event "properties" = Ok (VDict d) ->
         dict_lookup "time" d = Some ms ->
         truediv_int ms 1000 = Ok t ->
         utc_fromtimestamp t = Ok tm ->
         exists r, fst (normalize_usgs event env w) = Ok r
                   /\ (dict_lookup "place" d = None -> place r = VNone)
                   /\ (dict_lookup "mag" d = None -> magnitude r = VNone)).
Proof.
  rewrite normalize_usgs_run. simpl. unfold usgs_record.
  repeat split.
  - intros d Hp Ht.
    destruct (getitem event "geometry") as [g |]; simpl; [| eexists; reflexivity].
    destruct (getitem g "coordinates") as [cs |]; simpl; [| eexists; reflexivity].
    rewrite Hp; simpl. rewrite Ht.
    destruct (dict_lookup "place" d); destruct (dict_lookup "mag" d); simpl;
      (destruct (getindex cs 0); simpl; [| eexists; reflexivity]);
      (destruct (getindex cs 1); simpl; eexists; reflexivity).
  - intros g c0 c1 rest d Hg Hc Hp Ht.
    rewrite Hg; simpl. rewrite Hc; simpl. rewrite Hp; simpl. rewrite Ht.
    destruct (dict_lookup "place" d); destruct (dict_lookup "mag" d); reflexivity.
  - intros g l Hg Hc Hl.
    rewrite Hg; simpl. rewrite Hc; simpl.
    destruct (getitem event "properties") as [props |]; simpl; [| eexists; reflexivity].
    destruct (dict_get props "place"); simpl; [| eexists; reflexivity].
    destruct (dict_get props "mag"); simpl; [| eexists; reflexivity].
    destruct l as [| x0 [| x1 l]]; simpl in *; try lia; eexists; reflexivity.
  - intros g l d Hg Hc Hp Hl.
    rewrite Hg; simpl. rewrite Hc; simpl. rewrite Hp; simpl.
    destruct l as [| x0 [| x1 l]]; simpl in *; try lia;
      destruct (dict_lookup "place" d); destruct (dict_lookup "mag" d); reflexivity.
  - intros g c0 c1 rest d ms t tm Hg Hc Hp Ht Hd Hf.
    fold (usgs_record event).
    rewrite (usgs_record_ok _ _ _ _ _ _ _ _ _ Hg Hc Hp Ht Hd Hf).
    eexists. split; [reflexivity |]. unfold get_or_none; simpl.
    split; intros ->; reflexivity.
Qed.

(** ** Rounding: the arithmetic behind [x / 1000] and [frac * 1e6] *)

Section Rounding.

Local Open Scope Z_scope.

Lemma rhe_bound (a b : Z) :
  0 < b -> - b <= 2 * (rhe a b * b - a) <= b.
Proof.
  intro Hb. unfold rhe.
  pose proof (Z.div_mod a b ltac:(lia)) as Hd.
  pose proof (Z.mod_pos_bound a b Hb) as Hm.
  set (q := a / b) in *. set (r := a mod b) in *. clearbody q r.
  destruct (Z.compare_spec (2 * r) b); [destruct (Z.even q) | |]; nia.
Qed.

Lemma rhe_near (a b N : Z) :
  0 < b -> - b < 2 * (N * b - a) < b -> rhe a b = N.
Proof.
  intros Hb HN. unfold rhe.
  pose proof (Z.div_mod a b ltac:(lia)) as Hd.
  pose proof (Z.mod_pos_bound a b Hb) as Hm.
  set (q := a / b) in *. set (r := a mod b) in *. clearbody q r.
  assert (N = q \/ N = q + 1) as [-> | ->] by nia;
    destruct (Z.compare_spec (2 * r) b); try nia;
    destruct (Z.even q); nia.
Qed.

Lemma rhe_exact (c b : Z) : 0 < b -> rhe (c * b) b = c.
Proof. intro Hb. apply rhe_near; lia. Qed.

Lemma rhe_nonneg (a b : Z) : 0 <= a -> 0 < b -> 0 <= rhe a b.
Proof. intros Ha Hb. pose proof (rhe_bound a b Hb). nia. Qed.

Lemma log2_bounds (a : Z) : 0 < a -> 2 ^ Z.log2 a <= a < 2 ^ (Z.log2 a + 1).
Proof. intro Ha. pose proof (Z.log2_spec a Ha). unfold Z.succ in *. lia. Qed.

(** [flog2 a b] is below every [K] with [a / b < 2^K]. *)
Lemma flog2_lt (a b K : Z) :
  0 < a -> 0 < b -> 0 <= K -> a < b * 2 ^ K -> flog2 a b < K.
Proof.
  intros Ha Hb HK Hlt.
  pose proof (log2_bounds a Ha) as [La Ua].
  pose proof (log2_bounds b Hb) as [Lb Ub].
  pose proof (Z.log2_nonneg a) as Na. pose proof (Z.log2_nonneg b) as Nb.
  assert (Hk0 : Z.log2 a - Z.log2 b <= K).
  { assert (H : 2 ^ Z.log2 a < 2 ^ (Z.log2 b + 1 + K)).
    { rewrite Z.pow_add_r by lia.
      assert (0 < 2 ^ K) by (apply Z.pow_pos_nonneg; lia). nia. }
    apply Z.pow_lt_mono_r_iff in H; lia. }
  unfold flog2.
  destruct (0 <=? Z.log2 a - Z.log2 b) eqn:Es.
  - destruct (b * 2 ^ (Z.log2 a - Z.log2 b) <=? a) eqn:Et; [| lia].
    apply Z.leb_le in Et.
    destruct (Z.eq_dec (Z.log2 a - Z.log2 b) K) as [E | E]; [| lia].
    rewrite E in Et. lia.
  - apply Z.leb_gt in Es.
    destruct (b <=? a * 2 ^ (- (Z.log2 a - Z.log2 b))); lia.
Qed.

(** With [k = flog2 a b], [a / b < 2^(k+1)], here scaled by [2^(52-k)]. *)
Lemma flog2_upper (a b : Z) :
  0 < a -> 0 < b -> flog2 a b <= 52 ->
  a * 2 ^ (52 - flog2 a b) < b * 2 ^ 53.
Proof.
  intros Ha Hb.
  pose proof (log2_bounds a Ha) as [La Ua].
  pose proof (log2_bounds b Hb) as [Lb Ub].
  pose proof (Z.log2_nonneg a) as Na. pose proof (Z.log2_nonneg b) as Nb.
  unfold flog2.
  set (k0 := Z.log2 a - Z.log2 b).
  assert (Ek : Z.log2 a = Z.log2 b + k0) by (unfold k0; lia).
  assert (P53 : 0 < 2 ^ 53) by reflexivity.
  destruct (0 <=? k0) eqn:Es.
  - apply Z.leb_le in Es.
    destruct (b * 2 ^ k0 <=? a) eqn:Et; intro Hk.
    + (* k = k0 *)
      assert (H1 : a < 2 ^ Z.log2 b * 2 ^ (k0 + 1)).
      { rewrite <- Z.pow_add_r by lia. replace (Z.log2 b + (k0 + 1)) with (Z.log2 a + 1) by lia.
        exact Ua. }
      assert (H2 : 2 ^ (k0 + 1) * 2 ^ (52 - k0) = 2 ^ 53).
      { rewrite <- Z.pow_add_r by lia. f_equal. lia. }
      assert (0 < 2 ^ (52 - k0)) by (apply Z.pow_pos_nonneg; lia).
      assert (0 < 2 ^ (k0 + 1)) by (apply Z.pow_pos_nonneg; lia).
      nia.
    + (* k = k0 - 1 *)
      apply Z.leb_gt in Et.
      replace (52 - (k0 - 1)) with (53 - k0) by lia.
      assert (H2 : 2 ^ k0 * 2 ^ (53 - k0) = 2 ^ 53).
      { rewrite <- Z.pow_add_r by lia. f_equal. lia. }
      assert (0 < 2 ^ (53 - k0)) by (apply Z.pow_pos_nonneg; lia).
      assert (0 < 2 ^ k0) by (apply Z.pow_pos_nonneg; lia).
      nia.
  - apply Z.leb_gt in Es.
    destruct (b <=? a * 2 ^ (- k0)) eqn:Et; intro Hk.
    + (* k = k0 < 0 *)
      assert (H1 : a * 2 ^ (- k0 - 1) < 2 ^ Z.log2 b).
      { assert (2 ^ (Z.log2 a + 1) * 2 ^ (- k0 - 1) = 2 ^ Z.log2 b).
        { rewrite <- Z.pow_add_r by lia. f_equal. lia. }
        assert (0 < 2 ^ (- k0 - 1)) by (apply Z.pow_pos_nonneg; lia).
        nia. }
      assert (H2 : 2 ^ (- k0 - 1) * 2 ^ 53 = 2 ^ (52 - k0)).
      { rewrite <- Z.pow_add_r by lia. f_equal. lia. }
      nia.
    + (* k = k0 - 1 *)
      apply Z.leb_gt in Et.
      replace (52 - (k0 - 1)) with (53 - k0) by lia.
      assert (H2 : 2 ^ (- k0) * 2 ^ 53 = 2 ^ (53 - k0)).
      { rewrite <- Z.pow_add_r by lia. f_equal. lia. }
      nia.
Qed.

Lemma mag_neg (m e : Z) : e < 0 -> mag m e = Qmake m (Z.to_pos (2 ^ (- e))).
Proof. intro He. unfold mag. destruct (0 <=? e) eqn:E; [apply Z.leb_le in E; lia | reflexivity]. Qed.

Lemma mag_nonneg_exp (m e : Z) : 0 <= e -> mag m e = inject_Z (m * 2 ^ e).
Proof. intro He. unfold mag. destruct (0 <=? e) eqn:E; [reflexivity | apply Z.leb_gt in E; lia]. Qed.

Lemma Q_near (m a E b T : Z) :
  0 < E -> 0 < b -> 0 < T ->
  - (E * b) <= T * (m * b - a * E) <= E * b ->
  (Qmake a (Z.to_pos b) - Qmake 1 (Z.to_pos T) <= Qmake m (Z.to_pos E))%Q
  /\ (Qmake m (Z.to_pos E) <= Qmake a (Z.to_pos b) + Qmake 1 (Z.to_pos T))%Q.
Proof.
  intros HE Hb HT H.
  unfold Qle, Qminus, Qplus, Qopp; simpl.
  rewrite !Pos2Z.inj_mul, !Z2Pos.id by assumption.
  split; nia.
Qed.

(** The error of one rounding: for [a / b < 2^K] the result is a finite
    float within [2^(K-54)] of [a / b], and it is [a / b] itself when that
    is an integer. *)
Lemma round_pos_error (neg : bool) (a b K : Z) :
  0 < a -> 0 < b -> 0 <= K <= 51 -> a < b * 2 ^ K ->
  exists m e,
    round_pos neg a b = Fin neg m e
    /\ 0 <= m < 2 ^ 53 /\ emin <= e < 0
    /\ (Qmake a (Z.to_pos b) - Qmake 1 (Z.to_pos (2 ^ (54 - K))) <= mag m e)%Q
    /\ (mag m e <= Qmake a (Z.to_pos b) + Qmake 1 (Z.to_pos (2 ^ (54 - K))))%Q
    /\ (forall c, a = c * b -> (mag m e == inject_Z c)%Q).
Proof.
  intros Ha Hb HK Hlt.
  pose proof (flog2_lt a b K Ha Hb ltac:(lia) Hlt) as Hk.
  pose proof (flog2_upper a b Ha Hb ltac:(lia)) as Hu.
  unfold round_pos.
  set (k := flog2 a b) in *.
  set (e0 := Z.max emin (k - 52)).
  assert (He0 : emin <= e0 <= K - 53) by (unfold e0, emin; lia).
  assert (Hk52 : k - 52 <= e0) by (unfold e0; lia).
  replace (0 <=? e0) with false by (symmetry; apply Z.leb_gt; lia).
  set (E := 2 ^ (- e0)).
  assert (HE : 0 < E) by (apply Z.pow_pos_nonneg; unfold emin in *; lia).
  set (T := 2 ^ (54 - K)).
  assert (HT : 0 < T) by (apply Z.pow_pos_nonneg; lia).
  assert (HTE : T <= 2 * E).
  { unfold T, E. replace (2 * 2 ^ (- e0)) with (2 ^ (1 - e0)).
    - apply Z.pow_le_mono_r; lia.
    - replace (1 - e0) with (1 + - e0) by lia. rewrite Z.pow_add_r by lia. reflexivity. }
  assert (HEk : E <= 2 ^ (52 - k)) by (unfold E; apply Z.pow_le_mono_r; lia).
  pose proof (rhe_bound (a * E) b Hb) as Hr.
  pose proof (rhe_nonneg (a * E) b ltac:(nia) Hb) as Hn.
  set (m0 := rhe (a * E) b) in *.
  assert (P53 : 2 ^ 53 = 9007199254740992) by reflexivity.
  assert (P52 : 2 ^ 52 = 4503599627370496) by reflexivity.
  assert (Hm : m0 <= 2 ^ 53) by nia.
  destruct (m0 =? 2 ^ 53) eqn:Em.
  - apply Z.eqb_eq in Em.
    replace (emax <? e0 + 1) with false by (symmetry; apply Z.ltb_ge; unfold emax; lia).
    exists (2 ^ 52), (e0 + 1).
    assert (HE1 : E = 2 * 2 ^ (- (e0 + 1))).
    { unfold E. replace (- e0) with (1 + - (e0 + 1)) by lia.
      rewrite Z.pow_add_r by lia. reflexivity. }
    set (E1 := 2 ^ (- (e0 + 1))) in *.
    assert (0 < E1) by lia.
    rewrite mag_neg by lia. fold E1.
    split; [reflexivity |]. split; [lia |]. split; [lia |].
    destruct (Q_near (2 ^ 52) a E1 b T) as [Q1 Q2]; try assumption; [nia |].
    split; [exact Q1 |]. split; [exact Q2 |].
    intros c Hc. unfold Qeq; simpl. rewrite Z2Pos.id by assumption.
    subst a. nia.
  - apply Z.eqb_neq in Em.
    replace (emax <? e0) with false by (symmetry; apply Z.ltb_ge; unfold emax; lia).
    exists m0, e0.
    rewrite mag_neg by lia. fold E.
    split; [reflexivity |]. split; [lia |]. split; [lia |].
    destruct (Q_near m0 a E b T) as [Q1 Q2]; try assumption; [nia |].
    split; [exact Q1 |]. split; [exact Q2 |].
    intros c Hc. unfold Qeq; simpl. rewrite Z2Pos.id by assumption.
    subst a. nia.
Qed.

(** A rational [r / 2^j] with [r < 2^53] is a float: rounding it is exact. *)
Lemma round_pos_exact (neg : bool) (r j : Z) :
  0 < r < 2 ^ 53 -> 0 <= j <= 1074 ->
  exists m e,
    round_pos neg r (2 ^ j) = Fin neg m e
    /\ 0 < m < 2 ^ 53 /\ emin <= e <= 0
    /\ m * 2 ^ j = r * 2 ^ (- e).
Proof.
  intros Hr Hj.
  assert (P53 : 2 ^ 53 = 9007199254740992) by reflexivity.
  pose proof (log2_bounds r ltac:(lia)) as [Lr Ur].
  pose proof (Z.log2_nonneg r) as Nr.
  set (L := Z.log2 r) in *.
  assert (HL : L <= 52).
  { assert (H : 2 ^ L < 2 ^ 53) by lia. apply Z.pow_lt_mono_r_iff in H; lia. }
  assert (Hf : flog2 r (2 ^ j) = L - j).
  { unfold flog2. rewrite Z.log2_pow2 by lia. fold L.
    destruct (0 <=? L - j) eqn:Es.
    - apply Z.leb_le in Es.
      rewrite <- Z.pow_add_r by lia. replace (j + (L - j)) with L by lia.
      replace (2 ^ L <=? r) with true by (symmetry; apply Z.leb_le; lia). reflexivity.
    - apply Z.leb_gt in Es.
      assert (H : 2 ^ L * 2 ^ (- (L - j)) = 2 ^ j).
      { rewrite <- Z.pow_add_r by lia. f_equal. lia. }
      assert (0 < 2 ^ (- (L - j))) by (apply Z.pow_pos_nonneg; lia).
      replace (2 ^ j <=? r * 2 ^ (- (L - j))) with true
        by (symmetry; apply Z.leb_le; nia).
      reflexivity. }
  unfold round_pos. rewrite Hf.
  set (e0 := Z.max emin (L - j - 52)).
  assert (He0 : emin <= e0 <= 0) by (unfold e0, emin; lia).
  assert (Hs : 0 <= - e0 - j) by (unfold e0, emin; lia).
  assert (Hs' : - e0 - j <= 52 - L) by (unfold e0; lia).
  set (s := - e0 - j) in *.
  assert (HE : 2 ^ (- e0) = 2 ^ s * 2 ^ j).
  { rewrite <- Z.pow_add_r by lia. f_equal. unfold s. lia. }
  assert (Hpj : 0 < 2 ^ j) by (apply Z.pow_pos_nonneg; lia).
  assert (Hps : 0 < 2 ^ s) by (apply Z.pow_pos_nonneg; lia).
  assert (Hm : r * 2 ^ s < 2 ^ 53).
  { assert (2 ^ s <= 2 ^ (52 - L)) by (apply Z.pow_le_mono_r; lia).
    assert (2 ^ (L + 1) * 2 ^ (52 - L) = 2 ^ 53).
    { rewrite <- Z.pow_add_r by lia. f_equal. lia. }
    assert (0 < 2 ^ (52 - L)) by (apply Z.pow_pos_nonneg; lia).
    nia. }
  assert (Em : (if 0 <=? e0 then rhe r (2 ^ j * 2 ^ e0) else rhe (r * 2 ^ (- e0)) (2 ^ j))
               = r * 2 ^ s).
  { destruct (0 <=? e0) eqn:Es.
    - apply Z.leb_le in Es. assert (e0 = 0) by lia.
      assert (Ej : j = 0) by (unfold s in *; lia).
      assert (Es0 : s = 0) by (unfold s; lia).
      rewrite Es0, H, Ej. change (2 ^ 0 * 2 ^ 0) with 1. change (2 ^ 0) with 1.
      rewrite Z.mul_1_r. pose proof (rhe_exact r 1 ltac:(lia)) as Hx.
      rewrite Z.mul_1_r in Hx. exact Hx.
    - rewrite HE. replace (r * (2 ^ s * 2 ^ j)) with (r * 2 ^ s * 2 ^ j) by ring.
      apply rhe_exact. assumption. }
  rewrite Em.
  replace (r * 2 ^ s =? 2 ^ 53) with false by (symmetry; apply Z.eqb_neq; lia).
  replace (emax <? e0) with false by (symmetry; apply Z.ltb_ge; unfold emax; lia).
  exists (r * 2 ^ s), e0.
  split; [reflexivity |]. split; [nia |]. split; [lia |].
  rewrite HE. ring.
Qed.

Lemma py_round_near (neg : bool) (m e N : Z) :
  e < 0 ->
  (inject_Z N - (1 # 2) < mag m e)%Q -> (mag m e < inject_Z N + (1 # 2))%Q ->
  py_round (Fin neg m e) = Ok (signed neg N).
Proof.
  intros He H1 H2. rewrite mag_neg in H1, H2 by assumption.
  assert (HE : 0 < 2 ^ (- e)) by (apply Z.pow_pos_nonneg; lia).
  unfold Qlt, Qminus, Qplus, Qopp, inject_Z in H1, H2; simpl in H1, H2.
  rewrite ?Pos2Z.inj_mul, ?Z2Pos.id in H1, H2 by assumption.
  unfold py_round.
  replace (0 <=? e) with false by (symmetry; apply Z.leb_gt; lia).
  f_equal. f_equal. apply rhe_near; [assumption | lia].
Qed.

(** The integral part of a float, as [to_time_t] reads it. *)
Lemma to_time_t_exact (neg : bool) (m e i : Z) :
  emin <= e <= 0 -> 0 <= i < 2 ^ 53 -> m * 2 ^ 0 = i * 2 ^ (- e) ->
  to_time_t (Fin neg m e) = Ok (signed neg i).
Proof.
  intros He Hi Hm. change (2 ^ 0) with 1 in Hm. rewrite Z.mul_1_r in Hm.
  assert (HE : 0 < 2 ^ (- e)) by (apply Z.pow_pos_nonneg; lia).
  assert (P53 : 2 ^ 53 = 9007199254740992) by reflexivity.
  assert (P63 : 2 ^ 63 = 9223372036854775808) by reflexivity.
  unfold to_time_t.
  assert (Ez : (if 0 <=? e then m * 2 ^ e else m / 2 ^ (- e)) = i).
  { destruct (0 <=? e) eqn:Es.
    - apply Z.leb_le in Es. assert (e = 0) by lia. subst e.
      change (2 ^ (- 0)) with 1 in Hm. change (2 ^ 0) with 1. lia.
    - subst m. apply Z.div_mul. lia. }
  rewrite Ez.
  assert (Hs : - 2 ^ 53 < signed neg i < 2 ^ 53) by (destruct neg; simpl; lia).
  replace ((- 2 ^ 63 <=? signed neg i) && (signed neg i <=? 2 ^ 63)) with true.
  - replace (signed neg i =? 2 ^ 63) with false by (symmetry; apply Z.eqb_neq; lia).
    reflexivity.
  - symmetry. apply andb_true_iff. split; apply Z.leb_le; lia.
Qed.

(** Taking one from the integral part [-q] of a negative float gives
    exactly [-q - 1]. *)
Lemma to_time_t_pred (mi ei q : Z) :
  emin <= ei <= 0 -> 0 <= q < 2 ^ 33 -> mi = q * 2 ^ (- ei) ->
  to_time_t (fadd (Fin true mi ei) (of_Z (-1))) = Ok (- q - 1).
Proof.
  intros He Hq Hm.
  assert (P33 : 2 ^ 33 = 8589934592) by reflexivity.
  assert (P34 : 2 ^ 34 = 17179869184) by reflexivity.
  assert (P53 : 2 ^ 53 = 9007199254740992) by reflexivity.
  assert (P63 : 2 ^ 63 = 9223372036854775808) by reflexivity.
  change (of_Z (-1)) with (Fin true 4503599627370496 (-52)).
  unfold fadd.
  set (e := Z.min ei (-52)).
  assert (Hle : emin <= e <= -52) by (unfold e, emin in *; lia).
  set (b := 2 ^ (- e)).
  assert (Hb : 0 < b) by (apply Z.pow_pos_nonneg; lia).
  assert (HA : mi * 2 ^ (ei - e) = q * b).
  { rewrite Hm, <- Z.mul_assoc, <- Z.pow_add_r by (unfold e; lia).
    unfold b. do 2 f_equal. lia. }
  assert (HB : 4503599627370496 * 2 ^ (-52 - e) = b).
  { change 4503599627370496 with (2 ^ 52). rewrite <- Z.pow_add_r by (unfold e; lia).
    unfold b. f_equal. lia. }
  unfold signed. rewrite HA, HB.
  replace (- (q * b) + - b) with (- ((q + 1) * b)) by ring.
  replace (- ((q + 1) * b) =? 0) with false by (symmetry; apply Z.eqb_neq; nia).
  replace (0 <=? e) with false by (symmetry; apply Z.leb_gt; lia).
  fold b.
  assert (ERN : RN (- ((q + 1) * b)) b = round_pos true ((q + 1) * b) b).
  { unfold RN. destruct (- ((q + 1) * b)) as [| p | p] eqn:En; try nia.
    f_equal. lia. }
  rewrite ERN.
  destruct (round_pos_error true ((q + 1) * b) b 34) as (m & e' & Hr & Hmr & He' & _ & _ & Hex);
    [nia | assumption | lia | nia |].
  rewrite Hr.
  specialize (Hex (q + 1) eq_refl).
  rewrite mag_neg in Hex by lia.
  assert (HE' : 0 < 2 ^ (- e')) by (apply Z.pow_pos_nonneg; lia).
  unfold Qeq in Hex; simpl in Hex. rewrite Z2Pos.id in Hex by assumption.
  rewrite Z.mul_1_r in Hex.
  unfold to_time_t.
  replace (0 <=? e') with false by (symmetry; apply Z.leb_gt; lia).
  rewrite Hex, Z.div_mul by lia. simpl signed.
  replace ((- 2 ^ 63 <=? - (q + 1)) && (- (q + 1) <=? 2 ^ 63)) with true
    by (symmetry; apply andb_true_iff; split; apply Z.leb_le; lia).
  replace (- (q + 1) =? 2 ^ 63) with false by (symmetry; apply Z.eqb_neq; lia).
  f_equal. lia.
Qed.

(** The float [x / 1000] of a millisecond count below [2^33] seconds, of
    either sign, splits into exactly the whole seconds and the
    microseconds of the count, both with its sign. *)
Lemma timestamp_parts (neg : bool) (n : Z) :
  0 < n < 2 ^ 33 * 1000 ->
  exists t frac ipart,
    round_pos neg n 1000 = t /\ (forall s, t <> Inf s) /\ t <> NaN
    /\ modf t = (frac, ipart)
    /\ py_round (fmul frac (of_Z 1000000)) = Ok (signed neg (n mod 1000 * 1000))
    /\ to_time_t ipart = Ok (signed neg (n / 1000))
    /\ exists mi ei,
         ipart = Fin neg mi ei /\ emin <= ei <= 0 /\ mi = n / 1000 * 2 ^ (- ei).
Proof.
  intros Hn.
  assert (P33 : 2 ^ 33 = 8589934592) by reflexivity.
  assert (P53 : 2 ^ 53 = 9007199254740992) by reflexivity.
  pose proof (Z.div_mod n 1000 ltac:(lia)) as Hdm.
  pose proof (Z.mod_pos_bound n 1000 ltac:(lia)) as HR.
  set (q := n / 1000) in *. set (R := n mod 1000) in *.
  assert (Hq : 0 <= q < 2 ^ 33) by (unfold q; split;
    [apply Z.div_pos; lia | apply Z.div_lt_upper_bound; lia]).
  destruct (round_pos_error neg n 1000 33 ltac:(lia) ltac:(lia) ltac:(lia) ltac:(lia))
    as (m & e & Ht & Hm & He & B1 & B2 & Hex).
  set (d := 2 ^ (- e)).
  assert (Hd : 0 < d) by (apply Z.pow_pos_nonneg; lia).
  rewrite mag_neg in B1, B2, Hex by lia. fold d in B1, B2, Hex.
  (* the integral part is [q], the remainder [r] is near [R / 1000] *)
  assert (Hqr : q * d <= m < (q + 1) * d /\ (R = 0 -> m = q * d)
                /\ - (1000 * d) <= 2097152 * (1000 * (m - q * d) - R * d) <= 1000 * d).
  { change (2 ^ (54 - 33)) with 2097152 in B1, B2.
    unfold Qle, Qminus, Qplus, Qopp in B1, B2; simpl in B1, B2.
    rewrite ?Pos2Z.inj_mul, ?Z2Pos.id in B1, B2 by assumption.
    assert (HR0 : R = 0 -> m = q * d).
    { intro E0. specialize (Hex q ltac:(lia)).
      unfold Qeq in Hex; simpl in Hex. rewrite Z2Pos.id in Hex by assumption. lia. }
    split; [| split; [exact HR0 | nia]].
    destruct (Z.eq_dec R 0) as [E0 | E0]; [rewrite (HR0 E0); lia | nia]. }
  destruct Hqr as (Hm1 & HR0 & Hr).
  assert (Ei : m / d = q).
  { symmetry. apply Z.div_unique with (r := m - q * d); [lia | ring]. }
  assert (Er : m mod d = m - q * d).
  { symmetry. apply Z.mod_unique with (q := q); [lia | ring]. }
  set (r := m - q * d) in *.
  assert (Hr0 : 0 <= r < d) by (unfold r; lia).
  (* the two parts as floats *)
  assert (Hj : 0 <= - e <= 1074) by (unfold emin in He; lia).
  exists (Fin neg m e).
  exists (if r =? 0 then zero neg else round_pos neg r d).
  exists (if q =? 0 then zero neg else round_pos neg q 1).
  split; [exact Ht |]. split; [discriminate |]. split; [discriminate |].
  split.
  { unfold modf. replace (0 <=? e) with false by (symmetry; apply Z.leb_gt; lia).
    fold d. rewrite Ei, Er. reflexivity. }
  split.
  { (* microseconds *)
    destruct (r =? 0) eqn:Er0.
    + apply Z.eqb_eq in Er0.
      assert (R = 0) by nia. replace (R * 1000) with 0 by lia.
      destruct neg; reflexivity.
    + apply Z.eqb_neq in Er0.
      destruct (round_pos_exact neg r (- e) ltac:(lia) Hj) as (mf & ef & Hf & Hmf & Hef & Vf).
      fold d in Hf, Vf. rewrite Hf.
      change (of_Z 1000000) with (Fin false 8589934592000000 (-33)).
      unfold fmul.
      replace (mf * 8589934592000000 =? 0) with false by (symmetry; apply Z.eqb_neq; lia).
      replace (Z.max 0 (ef + -33)) with 0 by lia.
      replace (Z.max 0 (- (ef + -33))) with (33 - ef) by lia.
      change (2 ^ 0) with 1. rewrite Z.mul_1_r.
      replace (xorb neg false) with neg by (destruct neg; reflexivity).
      set (a := mf * 8589934592000000).
      set (b := 2 ^ (33 - ef)).
      assert (Hb : b = 8589934592 * 2 ^ (- ef)).
      { unfold b. replace (33 - ef) with (33 + - ef) by lia.
        rewrite Z.pow_add_r by lia. reflexivity. }
      assert (Hpf : 0 < 2 ^ (- ef)) by (apply Z.pow_pos_nonneg; lia).
      assert (Hab : a * d = 1000000 * r * b) by (unfold a; rewrite Hb; nia).
      assert (Hmf2 : mf < 2 ^ (- ef)) by nia.
      destruct (round_pos_error neg a b 20 ltac:(unfold a; lia) ltac:(lia) ltac:(lia))
        as (mp & ep & Hp & Hmp & Hep & C1 & C2 & _).
      { change (2 ^ 20) with 1048576. unfold a. rewrite Hb. nia. }
      rewrite Hp.
      change (Z.to_pos (2 ^ (54 - 20))) with 17179869184%positive in C1, C2.
      apply py_round_near; [lia | |].
      * assert (G : (inject_Z (R * 1000) - (1 # 2) + (1 # 17179869184)
                     < Qmake a (Z.to_pos b))%Q).
        { unfold Qlt, Qminus, Qplus, Qopp, inject_Z; simpl.
          rewrite ?Pos2Z.inj_mul, ?Z2Pos.id by lia.
          apply Z.mul_lt_mono_pos_r with (p := d); [assumption |].
          replace (a * 34359738368 * d) with (a * d * 34359738368) by ring.
          rewrite Hab.
          assert (K1 : ((R * 1000 * 2 + -1) * 17179869184 + 2) * d
                       < 1000000 * r * 34359738368) by lia.
          nia. }
        lra.
      * assert (G : (Qmake a (Z.to_pos b)
                     < inject_Z (R * 1000) + (1 # 2) - (1 # 17179869184))%Q).
        { unfold Qlt, Qminus, Qplus, Qopp, inject_Z; simpl.
          rewrite ?Pos2Z.inj_mul, ?Z2Pos.id by lia.
          apply Z.mul_lt_mono_pos_r with (p := d); [assumption |].
          replace (a * 34359738368 * d) with (a * d * 34359738368) by ring.
          rewrite Hab.
          assert (K1 : 1000000 * r * 34359738368
                       < ((R * 1000 * 2 + 1) * 17179869184 + -2) * d) by lia.
          nia. }
        lra. }
  (* whole seconds *)
  destruct (q =? 0) eqn:Eq0.
  - apply Z.eqb_eq in Eq0. rewrite Eq0.
    split; [destruct neg; reflexivity |].
    exists 0, emin. split; [reflexivity |]. split; [unfold emin; lia | reflexivity].
  - apply Z.eqb_neq in Eq0.
    destruct (round_pos_exact neg q 0 ltac:(lia) ltac:(lia)) as (mi & ei & Hi & Hmi & Hei & Vi).
    change (2 ^ 0) with 1 in Hi. rewrite Hi.
    split; [apply to_time_t_exact; [assumption | lia | exact Vi] |].
    exists mi, ei. split; [reflexivity |]. split; [assumption |].
    change (2 ^ 0) with 1 in Vi. lia.
Qed.

End Rounding.

(** ** Epoch milliseconds as a UTC datetime *)

(** The specification's reading of a seismic [time]: the instant [ms]
    milliseconds after 1970-01-01T00:00:00Z, in the proleptic Gregorian
    calendar, to the microsecond. *)
Definition utc_of_epoch_ms (ms : Z) : datetime :=
  let secs := ms / 1000 in
  let rem := secs mod 86400 in
  let '(y, m, d) := ord2ymd (secs / 86400 + 719163) in
  mkdt y m d (rem / 3600) (rem mod 3600 / 60) (rem mod 60)
       (ms mod 1000 * 1000) (Some utc).

(** A day number of the epoch gives a valid date between 1697 and 2242
    whose ordinal is that day. *)
Definition day_ok (n : Z) : bool :=
  let '(y, m, d) := ord2ymd (n + 719163) in
  (1697 <=? y) && (y <=? 2242) && (1 <=? m) && (m <=? 12)
  && (1 <=? d) && (d <=? days_in_month y m)
  && (ymd2ord y m d =? n + 719163).

(** [P] holds on [lo], [lo + 1], ..., [lo + n - 1]. *)
Fixpoint all_from (P : Z -> bool) (lo : Z) (n : nat) : bool :=
  match n with
  | O => true
  | S n' => P lo && all_from P (lo + 1) n'
  end.

Lemma all_from_spec (P : Z -> bool) (n : nat) :
  forall lo, all_from P lo n = true ->
             forall z, lo <= z < lo + Z.of_nat n -> P z = true.
Proof.
  induction n as [| n IH]; intros lo H z Hz.
  - lia.
  - simpl in H. apply andb_true_iff in H. destruct H as [H0 H1].
    destruct (Z.eq_dec z lo) as [-> | Hne]; [exact H0 |].
    apply (IH (lo + 1) H1). lia.
Qed.

Lemma days_checked : all_from day_ok (-99421) (Z.to_nat 198842) = true.
Proof. vm_compute. reflexivity. Qed.

Lemma day_ok_range (n : Z) : -99421 <= n < 99421 -> day_ok n = true.
Proof.
  intro Hn. apply (all_from_spec day_ok (Z.to_nat 198842) (-99421) days_checked). lia.
Qed.

Lemma gmtime_in_range (secs us : Z) :
  - 2 ^ 33 <= secs < 2 ^ 33 -> 0 <= us <= 999999 ->
  (tm <- gmtime secs ;;
   let '(y, m, d, hh, mm, ss) := tm in
   new_datetime y m d hh mm (Z.min ss 59) us (Some utc))%result
  = Ok (let rem := secs mod 86400 in
        let '(y, m, d) := ord2ymd (secs / 86400 + 719163) in
        mkdt y m d (rem / 3600) (rem mod 3600 / 60) (rem mod 60) us (Some utc)).
Proof.
  intros Hs Hus.
  assert (P33 : 2 ^ 33 = 8589934592) by reflexivity.
  assert (Hd : -99421 <= secs / 86400 < 99421).
  { split; [apply Z.div_le_lower_bound; lia | apply Z.div_lt_upper_bound; lia]. }
  pose proof (day_ok_range _ Hd) as Hok.
  pose proof (Z.mod_pos_bound secs 86400 ltac:(lia)) as Hrem.
  unfold gmtime. unfold day_ok in Hok.
  set (rem := secs mod 86400) in *.
  destruct (ord2ymd (secs / 86400 + 719163)) as [[y m] d].
  repeat (apply andb_true_iff in Hok; destruct Hok as [Hok ?]).
  repeat match goal with H : (_ <=? _) = true |- _ => apply Z.leb_le in H end.
  assert (P31 : 2 ^ 31 = 2147483648) by reflexivity.
  replace ((- 2 ^ 31 <=? y - 1900) && (y - 1900 <? 2 ^ 31)) with true
    by (symmetry; apply andb_true_iff; split; [apply Z.leb_le | apply Z.ltb_lt]; lia).
  simpl rbind.
  assert (Hh : 0 <= rem / 3600 <= 23).
  { split; [apply Z.div_pos; lia |].
    assert (rem / 3600 < 24) by (apply Z.div_lt_upper_bound; lia). lia. }
  pose proof (Z.mod_pos_bound rem 3600 ltac:(lia)) as Hm3600.
  assert (Hmm : 0 <= rem mod 3600 / 60 <= 59).
  { split; [apply Z.div_pos; lia |].
    assert (rem mod 3600 / 60 < 60) by (apply Z.div_lt_upper_bound; lia). lia. }
  pose proof (Z.mod_pos_bound rem 60 ltac:(lia)) as Hss.
  replace (Z.min (rem mod 60) 59) with (rem mod 60) by lia.
  unfold new_datetime, MINYEAR, MAXYEAR.
  repeat match goal with
         | |- context [negb ((?a <=? ?b) && (?c <=? ?d))] =>
             replace ((a <=? b) && (c <=? d)) with true
               by (symmetry; apply andb_true_iff; split; apply Z.leb_le; lia);
             simpl negb; cbv iota
         end.
  reflexivity.
Qed.

(** After the epoch: the float [ms / 1000] splits into the seconds and
    the microseconds of [ms]. *)
Lemma fromtimestamp_exact_pos (ms : Z) :
  0 < ms < 2 ^ 33 * 1000 ->
  exists t, truediv_int (VInt ms) 1000 = Ok t
            /\ utc_fromtimestamp t = Ok (utc_of_epoch_ms ms).
Proof.
  intro Hms.
  assert (P33 : 2 ^ 33 = 8589934592) by reflexivity.
  destruct (timestamp_parts false ms Hms)
    as (t & frac & ip & Et & Hinf & Hnan & Hmodf & Hus & Hsec & _).
  assert (ERN : RN ms 1000 = t) by (destruct ms; try lia; exact Et).
  exists t. split.
  - unfold truediv_int. rewrite ERN.
    destruct t; try reflexivity. exfalso. eapply Hinf. reflexivity.
  - pose proof (Z.mod_pos_bound ms 1000 ltac:(lia)) as HR.
    unfold utc_fromtimestamp, fromtimestamp_with.
    destruct t as [| s | s m e]; [congruence | exfalso; eapply Hinf; reflexivity |].
    rewrite Hmodf, Hus. simpl signed.
    replace (1000000 <=? ms mod 1000 * 1000) with false by (symmetry; apply Z.leb_gt; lia).
    replace (ms mod 1000 * 1000 <? 0) with false by (symmetry; apply Z.ltb_ge; lia).
    rewrite Hsec. simpl rbind.
    assert (Hq : - 2 ^ 33 <= ms / 1000 < 2 ^ 33).
    { split; [apply Z.div_le_lower_bound; lia | apply Z.div_lt_upper_bound; lia]. }
    pose proof (gmtime_in_range (ms / 1000) (ms mod 1000 * 1000) Hq ltac:(lia)) as G.
    unfold utc_of_epoch_ms. exact G.
Qed.

(** Before the epoch: the fraction of the float is negative, so a second
    is borrowed from the integral part and the microseconds count up from
    the second below. *)
Lemma fromtimestamp_exact_neg (n : Z) :
  0 < n < 2 ^ 33 * 1000 ->
  exists t, truediv_int (VInt (- n)) 1000 = Ok t
            /\ utc_fromtimestamp t = Ok (utc_of_epoch_ms (- n)).
Proof.
  intro Hn.
  assert (P33 : 2 ^ 33 = 8589934592) by reflexivity.
  destruct (timestamp_parts true n Hn)
    as (t & frac & ip & Et & Hinf & Hnan & Hmodf & Hus & Hsec & mi & ei & Hip & Hei & Hmi).
  assert (ERN : RN (- n) 1000 = t).
  { unfold RN. destruct n as [| p | p]; try lia. exact Et. }
  pose proof (Z.div_mod n 1000 ltac:(lia)) as Hdm.
  pose proof (Z.mod_pos_bound n 1000 ltac:(lia)) as HR.
  set (q := n / 1000) in *. set (R := n mod 1000) in *.
  assert (Hq : 0 <= q < 2 ^ 33) by (unfold q; split;
    [apply Z.div_pos; lia | apply Z.div_lt_upper_bound; lia]).
  exists t. split.
  - unfold truediv_int. rewrite ERN.
    destruct t; try reflexivity. exfalso. eapply Hinf. reflexivity.
  - unfold utc_fromtimestamp, fromtimestamp_with.
    destruct t as [| s | s m e]; [congruence | exfalso; eapply Hinf; reflexivity |].
    rewrite Hmodf, Hus. simpl signed.
    replace (1000000 <=? - (R * 1000)) with false by (symmetry; apply Z.leb_gt; lia).
    destruct (Z.eq_dec R 0) as [R0 | R0].
    + (* a whole number of seconds *)
      replace (- (R * 1000) <? 0) with false by (symmetry; apply Z.ltb_ge; lia).
      rewrite Hsec. simpl signed. simpl rbind.
      assert (Ediv : - n / 1000 = - q).
      { symmetry. apply Z.div_unique with (r := 0); lia. }
      assert (Emod : - n mod 1000 = 0).
      { symmetry. apply Z.mod_unique with (q := - q); lia. }
      pose proof (gmtime_in_range (- q) 0 ltac:(lia) ltac:(lia)) as G.
      unfold utc_of_epoch_ms. rewrite Ediv, Emod.
      replace (- (R * 1000)) with 0 by lia. exact G.
    + replace (- (R * 1000) <? 0) with true by (symmetry; apply Z.ltb_lt; lia).
      rewrite Hip, (to_time_t_pred mi ei q Hei Hq Hmi). simpl rbind.
      assert (Ediv : - n / 1000 = - q - 1).
      { symmetry. apply Z.div_unique with (r := 1000 - R); lia. }
      assert (Emod : - n mod 1000 = 1000 - R).
      { symmetry. apply Z.mod_unique with (q := - q - 1); lia. }
      pose proof (gmtime_in_range (- q - 1) (- (R * 1000) + 1000000)
                    ltac:(lia) ltac:(lia)) as G.
      unfold utc_of_epoch_ms. rewrite Ediv, Emod.
      replace ((1000 - R) * 1000) with (- (R * 1000) + 1000000) by ring. exact G.
Qed.

(** The two ends of the range. *)
Lemma fromtimestamp_exact_last :
  exists t, truediv_int (VInt 8589934592000) 1000 = Ok t
            /\ utc_fromtimestamp t = Ok (utc_of_epoch_ms 8589934592000).
Proof.
  exists (RN 8589934592000 1000). split; vm_compute; reflexivity.
Qed.

Lemma fromtimestamp_exact_first :
  exists t, truediv_int (VInt (-8589934592000)) 1000 = Ok t
            /\ utc_fromtimestamp t = Ok (utc_of_epoch_ms (-8589934592000)).
Proof.
  exists (RN (-8589934592000) 1000). split; vm_compute; reflexivity.
Qed.

(** Inside [-2^33 * 1000 <= ms <= 2^33 * 1000] (from 1697-10-17 to
    2242-03-16) the float detour [fromtimestamp(ms / 1000)] loses
    nothing. *)
Lemma fromtimestamp_exact (ms : Z) :
  - (2 ^ 33 * 1000) <= ms <= 2 ^ 33 * 1000 ->
  exists t, truediv_int (VInt ms) 1000 = Ok t
            /\ utc_fromtimestamp t = Ok (utc_of_epoch_ms ms).
Proof.
  intro Hms.
  change (2 ^ 33 * 1000) with 8589934592000 in Hms.
  destruct (Z.eq_dec ms 0) as [E0 | Hnz].
  { subst ms. exists (zero false). split; reflexivity. }
  destruct (Z.eq_dec ms 8589934592000) as [Ehi | Hhi].
  { subst ms. exact fromtimestamp_exact_last. }
  destruct (Z.eq_dec ms (-8589934592000)) as [Elo | Hlo].
  { subst ms. exact fromtimestamp_exact_first. }
  destruct (Z_lt_le_dec 0 ms) as [Hpos | Hneg].
  - apply fromtimestamp_exact_pos. change (2 ^ 33 * 1000) with 8589934592000. lia.
  - replace ms with (- (- ms)) by lia. apply fromtimestamp_exact_neg.
    change (2 ^ 33 * 1000) with 8589934592000. lia.
Qed.

(** A quiet environment and an empty world, for concrete runs. *)
Definition epoch : datetime := mkdt 1970 1 1 0 0 0 0 (Some utc).

Definition env0 : Env :=
  mkEnv (fun _ _ => GetRaises ConnectionError) (fun _ => epoch)
        (fun _ => Raise OSError) (fun _ => None) (fun _ => true).

Definition w0 : World := mkWorld [] [].

Definition feature (cs : list value) (props : list (string * value)) : value :=
  VDict [("type", VStr "Feature");
         ("geometry", VDict [("type", VStr "Point"); ("coordinates", VList cs)]);
         ("properties", VDict props)].

(** The end-to-end scenario of the specification: a quake near Delhi. *)
Definition delhi_quake : value :=
  feature [VFloat (of_prim 77.2%float); VFloat (of_prim 28.6%float); VInt 10]
          [("mag", VFloat (of_prim 4.5%float)); ("place", VStr "Delhi");
           ("time", VInt 1700000000000)].

(** The same feature one millisecond after [2^33] seconds past the epoch,
    and one millisecond before [2^33] seconds ahead of it. *)
Definition late_quake : value :=
  feature [VFloat (of_prim 77.2%float); VFloat (of_prim 28.6%float); VInt 10]
          [("mag", VFloat (of_prim 4.5%float)); ("place", VStr "Delhi");
           ("time", VInt 8589934592001)].

Definition early_quake : value :=
  feature [VFloat (of_prim 77.2%float); VFloat (of_prim 28.6%float); VInt 10]
          [("mag", VFloat (of_prim 4.5%float)); ("place", VStr "Delhi");
           ("time", VInt (-8589934592001))].

(** C4, as the code has it.  For a seismic feature with coordinates
    [[lon, lat, ...]] and an integer [time] of [ms] milliseconds with
    [-2^33 * 1000 <= ms <= 2^33 * 1000], before or after the epoch, the
    normaliser returns type [earthquake], [place] and [mag] passed through
    ([None] when missing), coordinates [[lon, lat]], and the UTC datetime
    of the instant [ms] milliseconds from the epoch. *)
Theorem normalize_usgs_record (event g lon lat : value) (rest : list value)
    (d : list (string * value)) (ms : Z) (env : Env) (w : World) :
  getitem event "geometry" = Ok g ->
  getitem g "coordinates" = Ok (VList (lon :: lat :: rest)) ->
  getitem event "properties" = Ok (VDict d) ->
  dict_lookup "time" d = Some (VInt ms) ->
  - (2 ^ 33 * 1000) <= ms <= 2 ^ 33 * 1000 ->
  normalize_usgs event env w
  = (Ok (mkEvent "earthquake" (get_or_none "place" d) (get_or_none "mag" d)
                 [lon; lat] (utc_of_epoch_ms ms)), w).
Proof.
  intros Hg Hc Hp Ht Hms.
  destruct (fromtimestamp_exact ms Hms) as (t & Hd & Hf).
  rewrite normalize_usgs_run.
  rewrite (usgs_record_ok _ _ _ _ _ _ _ _ _ Hg Hc Hp Ht Hd Hf).
  reflexivity.
Qed.

Lemma normalize_usgs_record_witness :
  normalize_usgs delhi_quake env0 w0
  = (Ok (mkEvent "earthquake" (VStr "Delhi") (VFloat (of_prim 4.5%float))
                 [VFloat (of_prim 77.2%float); VFloat (of_prim 28.6%float)]
                 (mkdt 2023 11 14 22 13 20 0 (Some utc))), w0).
Proof.
  apply (normalize_usgs_record delhi_quake
           (VDict [("type", VStr "Point");
                   ("coordinates",
                    VList [VFloat (of_prim 77.2%float); VFloat (of_prim 28.6%float); VInt 10])])
           (VFloat (of_prim 77.2%float)) (VFloat (of_prim 28.6%float)) [VInt 10]
           [("mag", VFloat (of_prim 4.5%float)); ("place", VStr "Delhi");
            ("time", VInt 1700000000000)]
           1700000000000 env0 w0);
    [reflexivity | reflexivity | reflexivity | reflexivity | vm_compute; split; discriminate].
Defined.

(** C4 as stated fails beyond that range, on either side: the quotient
    [ms / 1000] is a double, and from [2^33] seconds on its spacing exceeds
    a microsecond.  One millisecond past the upper bound the time is a
    microsecond short; one millisecond below the lower bound it is a
    microsecond long. *)
Lemma normalize_usgs_time_counterexample :
  (exists r,
      fst (normalize_usgs late_quake env0 w0) = Ok r
      /\ time r = mkdt 2242 3 16 12 56 32 999 (Some utc)
      /\ utc_of_epoch_ms 8589934592001 = mkdt 2242 3 16 12 56 32 1000 (Some utc)
      /\ time r <> utc_of_epoch_ms 8589934592001)
  /\ (exists r,
         fst (normalize_usgs early_quake env0 w0) = Ok r
         /\ time r = mkdt 1697 10 17 11 3 27 999001 (Some utc)
         /\ utc_of_epoch_ms (-8589934592001) = mkdt 1697 10 17 11 3 27 999000 (Some utc)
         /\ time r <> utc_of_epoch_ms (-8589934592001)).
Proof.
  split.
  - eexists. split; [vm_compute; reflexivity |].
    split; [reflexivity |]. split; [vm_compute; reflexivity |].
    vm_compute. discriminate.
  - eexists. split; [vm_compute; reflexivity |].
    split; [reflexivity |]. split; [vm_compute; reflexivity |].
    vm_compute. discriminate.
Qed.

(** Either side of the epoch: the last millisecond of 1969, and the
    specification's instant. *)
Example normalize_usgs_before_epoch :
  utc_fromtimestamp (RN (-1) 1000) = Ok (mkdt 1969 12 31 23 59 59 999000 (Some utc))
  /\ utc_of_epoch_ms (-1) = mkdt 1969 12 31 23 59 59 999000 (Some utc)
  /\ utc_of_epoch_ms 1700000000000 = mkdt 2023 11 14 22 13 20 0 (Some utc).
Proof. vm_compute. repeat split; reflexivity. Qed.

(** ** Parsing the acquisition date *)

Definition digit_char (k : Z) : ascii := chr (48 + k).

Definition two_digits (n : Z) : list ascii :=
  [digit_char (n / 10); digit_char (n mod 10)].

Definition four_digits (n : Z) : list ascii :=
  [digit_char (n / 1000); digit_char (n / 100 mod 10);
   digit_char (n / 10 mod 10); digit_char (n mod 10)].

(** A well-formed [acq_date], [YYYY-MM-DD], and [acq_time], [HHMM]. *)
Definition date_string (y m d : Z) : string :=
  string_of_list_ascii
    (four_digits y ++ "-"%char :: two_digits m ++ "-"%char :: two_digits d)%list.

Definition time_string (H M : Z) : string :=
  string_of_list_ascii (two_digits H ++ two_digits M)%list.

Definition FIRMS_FORMAT : string := "%Y-%m-%d %H%M".

Ltac enum_from n k tac :=
  first
    [ exfalso; lia
    | destruct (Z.eq_dec n k) as [-> | ?];
      [ tac | let k' := eval compute in (k + 1) in enum_from n k' tac ] ].

Lemma m_digit_char (k : Z) :
  0 <= k <= 9 ->
  is_digit (digit_char k) = true
  /\ digit_val (digit_char k) = k
  /\ is_space (digit_char k) = false.
Proof.
  intro Hk. enum_from k 0 ltac:(vm_compute; repeat split; reflexivity).
Qed.

Lemma re_Y_four_digits (y : Z) (rest : list ascii) :
  0 <= y <= 9999 ->
  re_Y (four_digits y ++ rest)%list = [(four_digits y, rest)]
  /\ group_int (four_digits y) = y.
Proof.
  intro Hy. unfold four_digits.
  assert (H1 : 0 <= y / 1000 <= 9).
  { split; [apply Z.div_pos; lia |].
    assert (y / 1000 < 10) by (apply Z.div_lt_upper_bound; lia). lia. }
  pose proof (Z.mod_pos_bound (y / 100) 10 ltac:(lia)) as H2.
  pose proof (Z.mod_pos_bound (y / 10) 10 ltac:(lia)) as H3.
  pose proof (Z.mod_pos_bound y 10 ltac:(lia)) as H4.
  assert (Ey : y = 1000 * (y / 1000) + 100 * (y / 100 mod 10)
                   + 10 * (y / 10 mod 10) + y mod 10).
  { pose proof (Z.div_mod y 10 ltac:(lia)).
    pose proof (Z.div_mod (y / 10) 10 ltac:(lia)).
    pose proof (Z.div_mod (y / 100) 10 ltac:(lia)).
    replace (y / 100) with (y / 10 / 10) in * by (rewrite Z.div_div by lia; reflexivity).
    replace (y / 1000) with (y / 10 / 10 / 10) in * by (rewrite !Z.div_div by lia; reflexivity).
    lia. }
  set (a := y / 1000) in *. set (b := y / 100 mod 10) in *.
  set (c := y / 10 mod 10) in *. set (d := y mod 10) in *.
  clearbody a b c d.
  split.
  - destruct (m_digit_char a H1) as (Da & _).
    destruct (m_digit_char b ltac:(lia)) as (Db & _).
    destruct (m_digit_char c ltac:(lia)) as (Dc & _).
    destruct (m_digit_char d ltac:(lia)) as (Dd & _).
    unfold re_Y, m_seq, m_digit, m_class. simpl.
    rewrite Da; simpl. rewrite Db; simpl. rewrite Dc; simpl. rewrite Dd; simpl.
    reflexivity.
  - unfold group_int. simpl lstrip.
    destruct (m_digit_char a H1) as (_ & Va & ->).
    destruct (m_digit_char b ltac:(lia)) as (_ & Vb & _).
    destruct (m_digit_char c ltac:(lia)) as (_ & Vc & _).
    destruct (m_digit_char d ltac:(lia)) as (_ & Vd & _).
    unfold digits_val. simpl fold_left. rewrite Va, Vb, Vc, Vd. lia.
Qed.

Ltac first_match := vm_compute; split; [eexists; reflexivity | reflexivity].

Lemma re_m_two_digits (m : Z) (rest : list ascii) :
  1 <= m <= 12 ->
  (exists more, re_m (two_digits m ++ rest)%list = (two_digits m, rest) :: more)
  /\ group_int (two_digits m) = m.
Proof. intro H. enum_from m 1 first_match. Qed.

Lemma re_d_two_digits (d : Z) (rest : list ascii) :
  1 <= d <= 31 ->
  (exists more, re_d (two_digits d ++ rest)%list = (two_digits d, rest) :: more)
  /\ group_int (two_digits d) = d.
Proof. intro H. enum_from d 1 first_match. Qed.

Lemma re_H_two_digits (h : Z) (rest : list ascii) :
  0 <= h <= 23 ->
  (exists more, re_H (two_digits h ++ rest)%list = (two_digits h, rest) :: more)
  /\ group_int (two_digits h) = h.
Proof. intro H. enum_from h 0 first_match. Qed.

Lemma re_M_two_digits (mi : Z) (rest : list ascii) :
  0 <= mi <= 59 ->
  (exists more, re_M (two_digits mi ++ rest)%list = (two_digits mi, rest) :: more)
  /\ group_int (two_digits mi) = mi.
Proof. intro H. enum_from mi 0 first_match. Qed.

Lemma spaces_before_hour (h : Z) (rest : list ascii) :
  0 <= h <= 23 ->
  m_spaces (" "%char :: two_digits h ++ rest)%list
  = [([" "%char], (two_digits h ++ rest)%list)].
Proof. intro H. enum_from h 0 ltac:(vm_compute; reflexivity). Qed.

Lemma match_format_step (d : directive) (fmt : list directive) (f : found)
    (s g r : list ascii) (more : list (list ascii * list ascii))
    (x : found * list ascii) :
  directive_re d s = (g, r) :: more ->
  (exists more', match_format fmt (set_field d g f) r = x :: more') ->
  exists more', match_format (d :: fmt) f s = x :: more'.
Proof.
  intros Hd [more' Hm]. simpl. rewrite Hd. simpl. rewrite Hm.
  eexists. reflexivity.
Qed.

(** A well-formed date and time parse to the datetime they spell. *)
Lemma strptime_well_formed (y m d H M : Z) :
  1 <= y <= 9999 -> 1 <= m <= 12 -> 1 <= d <= days_in_month y m ->
  0 <= H <= 23 -> 0 <= M <= 59 ->
  strptime (date_string y m d +++ " " +++ time_string H M) FIRMS_FORMAT
  = Ok (mkdt y m d H M 0 0 None).
Proof.
  intros Hy Hm Hd HH HM.
  assert (Hd31 : 1 <= d <= 31).
  { unfold days_in_month, DAYS_IN_MONTH in Hd.
    destruct ((m =? 2) && is_leap y); [lia |].
    enum_from m 1 ltac:(simpl in Hd; lia). }
  unfold strptime.
  change (compile_format (list_ascii_of_string FIRMS_FORMAT))
    with (Some [DY; DLit "-"%char; Dm; DLit "-"%char; Dd; DSpace; DH; DM]).
  assert (Es : list_ascii_of_string (date_string y m d +++ " " +++ time_string H M)
               = (four_digits y ++ "-"%char :: two_digits m ++ "-"%char :: two_digits d
                    ++ " "%char :: two_digits H ++ two_digits M ++ [])%list).
  { unfold date_string, time_string, four_digits, two_digits. reflexivity. }
  rewrite Es.
  destruct (re_Y_four_digits y ("-"%char :: two_digits m ++ "-"%char :: two_digits d
               ++ " "%char :: two_digits H ++ two_digits M ++ [])%list ltac:(lia)) as [RY VY].
  destruct (re_m_two_digits m ("-"%char :: two_digits d
               ++ " "%char :: two_digits H ++ two_digits M ++ [])%list Hm) as [[? Rm] Vm].
  destruct (re_d_two_digits d (" "%char :: two_digits H ++ two_digits M ++ [])%list Hd31)
    as [[? Rd] Vd].
  pose proof (spaces_before_hour H (two_digits M ++ [])%list HH) as Rs.
  destruct (re_H_two_digits H (two_digits M ++ [])%list HH) as [[? RH] VH].
  destruct (re_M_two_digits M [] HM) as [[? RM] VM].
  assert (Hmatch : exists more,
             match_format [DY; DLit "-"%char; Dm; DLit "-"%char; Dd; DSpace; DH; DM]
               (mkfound None 1 1 0 0)
               (four_digits y ++ "-"%char :: two_digits m ++ "-"%char :: two_digits d
                  ++ " "%char :: two_digits H ++ two_digits M ++ [])%list
             = (mkfound (Some y) m d H M, []) :: more).
  { eapply match_format_step; [exact RY |].
    eapply match_format_step; [reflexivity |].
    eapply match_format_step; [exact Rm |].
    eapply match_format_step; [reflexivity |].
    eapply match_format_step; [exact Rd |].
    eapply match_format_step; [exact Rs |].
    eapply match_format_step; [exact RH |].
    eapply match_format_step; [exact RM |].
    simpl. rewrite VY, Vm, Vd, VH, VM. eexists. reflexivity. }
  destruct Hmatch as [more ->]. simpl.
  unfold new_datetime, MINYEAR, MAXYEAR.
  repeat match goal with
         | |- context [negb ((?a <=? ?b) && (?c <=? ?d))] =>
             replace ((a <=? b) && (c <=? d)) with true
               by (symmetry; apply andb_true_iff; split; apply Z.leb_le; lia);
             simpl negb; cbv iota
         end.
  reflexivity.
Qed.

(** ** The thermal normaliser *)

(** [(float(brightness) / 100) if brightness else None]. *)
Definition firms_magnitude (brightness : value) : result value :=
  if truthy brightness
  then (f <- py_float brightness ;; Ok (VFloat (fdiv f (of_Z 100))))%result
  else Ok VNone.

(** The text handed to [strptime]: [f"{acq_date} {acq_time}"]. *)
Definition acq_text (d : list (string * value)) : string :=
  py_str (get_or_none "acq_date" d) +++ " " +++ py_str (get_or_none "acq_time" d).

Lemma dict_get_dict (k : string) (d : list (string * value)) :
  dict_get (VDict d) k = Ok (get_or_none k d).
Proof. unfold dict_get, get_or_none. destruct (dict_lookup k d); reflexivity. Qed.

Lemma dict_get_inv (props v : value) (k : string) :
  dict_get props k = Ok v -> exists d, props = VDict d.
Proof. destruct props; simpl; try discriminate. intros _. eexists. reflexivity. Qed.

(** What [normalize_firms] returns on a feature with two coordinates, a
    properties dictionary and a usable brightness. *)
Lemma normalize_firms_ok (event g c0 c1 : value) (rest : list value)
    (d : list (string * value)) (mag : value) (env : Env) (w : World) :
  getitem event "geometry" = Ok g ->
  getitem g "coordinates" = Ok (VList (c0 :: c1 :: rest)) ->
  getitem event "properties" = Ok (VDict d) ->
  firms_magnitude (get_or_none "brightness" d) = Ok mag ->
  normalize_firms event env w
  = match strptime (acq_text d) FIRMS_FORMAT with
    | Ok dt =>
        (Ok (mkEvent "fire" (py_or (get_or_none "satellite" d) (VStr "Unknown area"))
                     mag [c0; c1] (replace_tzinfo dt (Some utc))), w)
    | Raise _ =>
        (Ok (mkEvent "fire" (py_or (get_or_none "satellite" d) (VStr "Unknown area"))
                     mag [c0; c1] (clock env (List.length (trace w)))),
         mkWorld (docs w) (trace w ++ [ReadClock]))
    end.
Proof.
  intros Hg Hc Hp Hm.
  unfold normalize_firms, bind, lift, ret, try_except, now_utc.
  rewrite Hg, Hc, Hp, !dict_get_dict.
  unfold firms_magnitude in Hm. unfold acq_text, FIRMS_FORMAT.
  destruct (strptime _ _) as [dt | e]; simpl.
  - destruct (truthy (get_or_none "brightness" d)).
    + destruct (py_float (get_or_none "brightness" d)); simpl in *; [| discriminate].
      inversion Hm; subst. reflexivity.
    + inversion Hm; subst. reflexivity.
  - destruct (truthy (get_or_none "brightness" d)).
    + destruct (py_float (get_or_none "brightness" d)); simpl in *; [| discriminate].
      inversion Hm; subst. reflexivity.
    + inversion Hm; subst. reflexivity.
Qed.

(** Whenever [normalize_firms] returns a record, its type, place and
    magnitude are these. *)
Lemma normalize_firms_inv (event : value) (env : Env) (w w' : World) (r : Event) :
  normalize_firms event env w = (Ok r, w') ->
  exists d,
    getitem event "properties" = Ok (VDict d)
    /\ type r = "fire"
    /\ place r = py_or (get_or_none "satellite" d) (VStr "Unknown area")
    /\ firms_magnitude (get_or_none "brightness" d) = Ok (magnitude r).
Proof.
  unfold normalize_firms, bind, lift, ret, try_except, now_utc.
  destruct (getitem event "geometry") as [g |]; [| discriminate].
  destruct (getitem g "coordinates") as [cs |]; [| discriminate].
  destruct (getitem event "properties") as [props |]; [| discriminate].
  destruct (dict_get props "brightness") as [b |] eqn:Eb; [| discriminate].
  destruct (dict_get_inv _ _ _ Eb) as [d ->].
  rewrite dict_get_dict in Eb. inversion Eb; subst b. rewrite !dict_get_dict.
  intro H. exists d. split; [reflexivity |].
  unfold firms_magnitude.
  destruct (strptime _ _); simpl in H;
    (destruct (truthy (get_or_none "brightness" d));
     [ destruct (py_float (get_or_none "brightness" d)); simpl in H; [| discriminate] | ];
     (destruct (getindex cs 0); simpl in H; [| discriminate]);
     (destruct (getindex cs 1); simpl in H; [| discriminate]);
     inversion H; subst; simpl; repeat split; reflexivity).
Qed.

(** A thermal feature as the feed documents it. *)
Definition good_fire : value :=
  feature [VFloat (of_prim 78.9%float); VFloat (of_prim 20.5%float)]
          [("satellite", VStr "N"); ("brightness", VFloat (of_prim 330.5%float));
           ("acq_date", VStr "2024-03-01"); ("acq_time", VStr "0530")].

(** A thermal feature whose satellite is the empty string, whose
    brightness is zero and whose date does not parse. *)
Definition odd_fire : value :=
  feature [VFloat (of_prim 78.9%float); VFloat (of_prim 20.5%float)]
          [("satellite", VStr ""); ("brightness", VInt 0);
           ("acq_date", VStr "yesterday"); ("acq_time", VNone)].

(** C3, as the code has it.  Whenever the thermal normaliser returns a
    record, its type is [fire]; its place is the satellite property when
    that is truthy and the literal [Unknown area] otherwise (absent,
    [None], or an empty string); its magnitude is [float(brightness) / 100]
    when brightness is truthy and [None] otherwise (absent, [None], or a
    zero). *)
Theorem normalize_firms_fields (event : value) (env : Env) (w w' : World) (r : Event) :
  normalize_firms event env w = (Ok r, w') ->
  exists d,
    getitem event "properties" = Ok (VDict d)
    /\ type r = "fire"
    /\ (truthy (get_or_none "satellite" d) = true -> place r = get_or_none "satellite" d)
    /\ (truthy (get_or_none "satellite" d) = false -> place r = VStr "Unknown area")
    /\ (dict_lookup "satellite" d = None -> place r = VStr "Unknown area")
    /\ (truthy (get_or_none "brightness" d) = true ->
        exists f, py_float (get_or_none "brightness" d) = Ok f
                  /\ magnitude r = VFloat (fdiv f (of_Z 100)))
    /\ (truthy (get_or_none "brightness" d) = false -> magnitude r = VNone)
    /\ (dict_lookup "brightness" d = None -> magnitude r = VNone).
Proof.
  intro H. destruct (normalize_firms_inv _ _ _ _ _ H) as (d & Hp & Ht & Hpl & Hm).
  exists d. split; [exact Hp |]. split; [exact Ht |].
  unfold py_or in Hpl. unfold firms_magnitude in Hm.
  repeat split.
  - intro T. rewrite T in Hpl. exact Hpl.
  - intro T. rewrite T in Hpl. exact Hpl.
  - intro A. unfold get_or_none in Hpl. rewrite A in Hpl. exact Hpl.
  - intro T. rewrite T in Hm.
    destruct (py_float (get_or_none "brightness" d)) as [f |]; [| discriminate].
    exists f. split; [reflexivity |].
    change (Ok (VFloat (fdiv f (of_Z 100))) = Ok (magnitude r)) in Hm.
    inversion Hm. reflexivity.
  - intro T. rewrite T in Hm. congruence.
  - intro A. unfold get_or_none in Hm. rewrite A in Hm. simpl in Hm. congruence.
Qed.

Lemma normalize_firms_fields_witness :
  exists d,
    getitem good_fire "properties" = Ok (VDict d)
    /\ type (mkEvent "fire" (VStr "N") (VFloat (of_prim 3.305%float))
               [VFloat (of_prim 78.9%float); VFloat (of_prim 20.5%float)]
               (mkdt 2024 3 1 5 30 0 0 (Some utc))) = "fire"
    /\ (truthy (get_or_none "satellite" d) = true -> VStr "N" = get_or_none "satellite" d)
    /\ (truthy (get_or_none "satellite" d) = false -> VStr "N" = VStr "Unknown area")
    /\ (dict_lookup "satellite" d = None -> VStr "N" = VStr "Unknown area")
    /\ (truthy (get_or_none "brightness" d) = true ->
        exists f, py_float (get_or_none "brightness" d) = Ok f
                  /\ VFloat (of_prim 3.305%float) = VFloat (fdiv f (of_Z 100)))
    /\ (truthy (get_or_none "brightness" d) = false -> VFloat (of_prim 3.305%float) = VNone)
    /\ (dict_lookup "brightness" d = None -> VFloat (of_prim 3.305%float) = VNone).
Proof.
  apply (normalize_firms_fields good_fire env0 w0 w0
           (mkEvent "fire" (VStr "N") (VFloat (of_prim 3.305%float))
              [VFloat (of_prim 78.9%float); VFloat (of_prim 20.5%float)]
              (mkdt 2024 3 1 5 30 0 0 (Some utc)))).
  vm_compute. reflexivity.
Defined.

(** C3 as stated fails: a satellite that is present but empty gives the
    place [Unknown area], and a brightness that is present but zero gives
    no magnitude. *)
Lemma normalize_firms_fields_counterexample :
  exists r d,
    fst (normalize_firms odd_fire env0 w0) = Ok r
    /\ getitem odd_fire "properties" = Ok (VDict d)
    /\ dict_lookup "satellite" d = Some (VStr "")
    /\ place r = VStr "Unknown area"
    /\ place r <> VStr ""
    /\ dict_lookup "brightness" d = Some (VInt 0)
    /\ magnitude r = VNone.
Proof.
  eexists. eexists. split; [vm_compute; reflexivity |].
  split; [reflexivity |]. repeat split; discriminate.
Qed.

(** C5. On a thermal feature with two coordinates, a properties dictionary
    and a usable brightness, the normaliser always returns a record,
    whatever [acq_date] and [acq_time] are.  Its time is the parse of
    [f"{acq_date} {acq_time}"] under [%Y-%m-%d %H%M], read as UTC, when
    that parse succeeds (so a well-formed [YYYY-MM-DD] and [HHMM] give
    exactly that minute); when the parse raises, the exception is caught
    and the time is the clock's current UTC reading. *)
Theorem normalize_firms_time (event g c0 c1 : value) (rest : list value)
    (d : list (string * value)) (mag : value) (env : Env) (w : World) :
  getitem event "geometry" = Ok g ->
  getitem g "coordinates" = Ok (VList (c0 :: c1 :: rest)) ->
  getitem event "properties" = Ok (VDict d) ->
  firms_magnitude (get_or_none "brightness" d) = Ok mag ->
  exists r w',
    normalize_firms event env w = (Ok r, w')
    /\ (forall dt, strptime (acq_text d) FIRMS_FORMAT = Ok dt ->
                   time r = replace_tzinfo dt (Some utc) /\ w' = w)
    /\ (forall e, strptime (acq_text d) FIRMS_FORMAT = Raise e ->
                  time r = clock env (List.length (trace w))
                  /\ w' = mkWorld (docs w) (trace w ++ [ReadClock]))
    /\ (forall y m dd H M,
           1 <= y <= 9999 -> 1 <= m <= 12 -> 1 <= dd <= days_in_month y m ->
           0 <= H <= 23 -> 0 <= M <= 59 ->
           get_or_none "acq_date" d = VStr (date_string y m dd) ->
           get_or_none "acq_time" d = VStr (time_string H M) ->
           time r = mkdt y m dd H M 0 0 (Some utc)).
Proof.
  intros Hg Hc Hp Hm.
  pose proof (normalize_firms_ok event g c0 c1 rest d mag env w Hg Hc Hp Hm) as Hrun.
  destruct (strptime (acq_text d) FIRMS_FORMAT) as [dt | e] eqn:Es.
  - eexists. eexists. split; [exact Hrun |].
    split; [intros dt' E; inversion E; subst; split; reflexivity |].
    split; [intros e E; discriminate |].
    intros y m dd H M Hy Hmo Hd HH HM Ed Et.
    unfold acq_text in Es. rewrite Ed, Et in Es. simpl py_str in Es.
    rewrite (strptime_well_formed y m dd H M Hy Hmo Hd HH HM) in Es.
    inversion Es; subst. reflexivity.
  - eexists. eexists. split; [exact Hrun |].
    split; [intros dt E; discriminate |].
    split; [intros e' E; split; reflexivity |].
    intros y m dd H M Hy Hmo Hd HH HM Ed Et.
    unfold acq_text in Es. rewrite Ed, Et in Es. simpl py_str in Es.
    rewrite (strptime_well_formed y m dd H M Hy Hmo Hd HH HM) in Es.
    discriminate.
Qed.

Lemma normalize_firms_time_witness :
  exists r w',
    normalize_firms good_fire env0 w0 = (Ok r, w')
    /\ (forall dt, strptime "2024-03-01 0530" FIRMS_FORMAT = Ok dt ->
                   time r = replace_tzinfo dt (Some utc) /\ w' = w0)
    /\ (forall e, strptime "2024-03-01 0530" FIRMS_FORMAT = Raise e ->
                  time r = epoch /\ w' = mkWorld [] [ReadClock])
    /\ (forall y m dd H M,
           1 <= y <= 9999 -> 1 <= m <= 12 -> 1 <= dd <= days_in_month y m ->
           0 <= H <= 23 -> 0 <= M <= 59 ->
           VStr "2024-03-01" = VStr (date_string y m dd) ->
           VStr "0530" = VStr (time_string H M) ->
           time r = mkdt y m dd H M 0 0 (Some utc)).
Proof.
  apply (normalize_firms_time good_fire
           (VDict [("type", VStr "Point");
                   ("coordinates",
                    VList [VFloat (of_prim 78.9%float); VFloat (of_prim 20.5%float)])])
           (VFloat (of_prim 78.9%float)) (VFloat (of_prim 20.5%float)) []
           [("satellite", VStr "N"); ("brightness", VFloat (of_prim 330.5%float));
            ("acq_date", VStr "2024-03-01"); ("acq_time", VStr "0530")]
           (VFloat (of_prim 3.305%float)) env0 w0);
    vm_compute; reflexivity.
Defined.

(** The two test cases of the specification: a well-formed date gives
    2024-03-01T05:30:00Z, a malformed one gives the clock's reading. *)
Example normalize_firms_parses :
  fst (normalize_firms good_fire env0 w0)
  = Ok (mkEvent "fire" (VStr "N") (VFloat (of_prim 3.305%float))
          [VFloat (of_prim 78.9%float); VFloat (of_prim 20.5%float)]
          (mkdt 2024 3 1 5 30 0 0 (Some utc)))
  /\ normalize_firms odd_fire env0 w0
     = (Ok (mkEvent "fire" (VStr "Unknown area") VNone
              [VFloat (of_prim 78.9%float); VFloat (of_prim 20.5%float)] epoch),
        mkWorld [] [ReadClock]).
Proof. vm_compute. split; reflexivity. Qed.

(** ** The collection and the upsert writer *)

(** *** The collection's equality is an equivalence *)

(** What a number is to the collection: [nan], an infinity, or a
    rational value. *)
Inductive number : Type :=
| NNaN
| NInf (neg : bool)
| NFin (q : Q).

Definition float_number (f : float) : number :=
  match f with
  | NaN => NNaN
  | Inf s => NInf s
  | Fin s m e => NFin (if s then Qopp (mag m e) else mag m e)
  end.

Definition bson_number (v : value) : option number :=
  match v with
  | VInt z => Some (NFin (inject_Z z))
  | VFloat f => Some (float_number f)
  | _ => None
  end.

Definition same_number (a b : number) : Prop :=
  match a, b with
  | NNaN, NNaN => True
  | NInf s, NInf s' => s = s'
  | NFin q, NFin q' => (q == q')%Q
  | _, _ => False
  end.

Lemma same_number_refl (a : number) : same_number a a.
Proof. destruct a; simpl; [exact I | reflexivity | apply Qeq_refl]. Qed.

Lemma same_number_sym (a b : number) : same_number a b -> same_number b a.
Proof.
  destruct a, b; simpl; try tauto; [congruence | apply Qeq_sym].
Qed.

Lemma same_number_trans (a b c : number) :
  same_number a b -> same_number b c -> same_number a c.
Proof.
  destruct a, b, c; simpl; try tauto; [congruence | apply Qeq_trans].
Qed.

Lemma Qle_both (x y : Q) : Qle_bool x y && Qle_bool y x = true <-> (x == y)%Q.
Proof.
  rewrite andb_true_iff, !Qle_bool_iff. split.
  - intros [H1 H2]. apply Qle_antisym; assumption.
  - intro H. split; rewrite H; apply Qle_refl.
Qed.

Lemma float_same_iff (x y : float) :
  float_same x y = true <-> same_number (float_number x) (float_number y).
Proof.
  destruct x as [| sx | sx mx ex], y as [| sy | sy my ey]; simpl;
    try (split; [discriminate | tauto]); try tauto.
  - destruct sx, sy; simpl; split; congruence.
  - destruct sx; simpl; split; (discriminate || tauto).
  - destruct sy; simpl; split; (discriminate || tauto).
  - apply Qle_both.
Qed.

Lemma int_float_same_iff (z : Z) (f : float) :
  int_float_same z f = true <-> same_number (NFin (inject_Z z)) (float_number f).
Proof.
  unfold int_float_same. destruct f as [| s | s m e]; simpl.
  - split; [discriminate | tauto].
  - destruct s; simpl; split; (discriminate || tauto).
  - apply Qle_both.
Qed.

Lemma int_same_iff (x y : Z) :
  (x =? y) = true <-> same_number (NFin (inject_Z x)) (NFin (inject_Z y)).
Proof. simpl. rewrite Z.eqb_eq, inject_Z_injective. reflexivity. Qed.

Lemma bson_eqb_number (a b : value) (na nb : number) :
  bson_number a = Some na -> bson_number b = Some nb ->
  (bson_eqb a b = true <-> same_number na nb).
Proof.
  destruct a as [| | x | x | | |], b as [| | y | y | | |]; simpl; try discriminate;
    intros Ha Hb; inversion Ha; inversion Hb; subst.
  - apply int_same_iff.
  - apply int_float_same_iff.
  - rewrite int_float_same_iff. split; apply same_number_sym.
  - apply float_same_iff.
Qed.

Lemma bson_eqb_number_r (a b : value) (na : number) :
  bson_number a = Some na -> bson_eqb a b = true -> exists nb, bson_number b = Some nb.
Proof.
  destruct a as [| | x | x | | |], b as [| | y | y | | |]; simpl; try discriminate;
    intros _ _; eexists; reflexivity.
Qed.

Fixpoint bson_eqb_refl (a : value) : bson_eqb a a = true.
Proof.
  destruct a as [| x | x | x | x | l | d]; simpl.
  - reflexivity.
  - apply Bool.eqb_reflx.
  - apply Z.eqb_refl.
  - apply float_same_iff, same_number_refl.
  - apply String.eqb_refl.
  - induction l as [| a l IH]; [reflexivity |].
    rewrite (bson_eqb_refl a), IH. reflexivity.
  - induction d as [| [k a] d IH]; [reflexivity |].
    rewrite String.eqb_refl, (bson_eqb_refl a), IH. reflexivity.
Qed.

Fixpoint bson_eqb_sym (a b : value) {struct a} : bson_eqb a b = true -> bson_eqb b a = true.
Proof.
  destruct a as [| x | x | x | x | l | d], b as [| y | y | y | y | l' | d'];
    simpl; try discriminate; try (intro H; exact H).
  - intro H. apply Bool.eqb_prop in H. subst. apply Bool.eqb_reflx.
  - intro H. rewrite Z.eqb_sym. exact H.
  - intro H. apply float_same_iff, same_number_sym, float_same_iff. exact H.
  - intro H. rewrite String.eqb_sym. exact H.
  - revert l'. induction l as [| a l IH]; intros [| b l'] H; try discriminate.
    + reflexivity.
    + apply andb_true_iff in H. destruct H as [Ha Hl].
      rewrite (bson_eqb_sym a b Ha), (IH l' Hl). reflexivity.
  - revert d'. induction d as [| [k a] d IH]; intros [| [k' b] d'] H; try discriminate.
    + reflexivity.
    + apply andb_true_iff in H. destruct H as [H Hd].
      apply andb_true_iff in H. destruct H as [Hk Ha].
      rewrite String.eqb_sym, Hk, (bson_eqb_sym a b Ha), (IH d' Hd). reflexivity.
Qed.

Fixpoint bson_eqb_trans (a b c : value) {struct a} :
  bson_eqb a b = true -> bson_eqb b c = true -> bson_eqb a c = true.
Proof.
  assert (Num : forall na, bson_number a = Some na ->
                bson_eqb a b = true -> bson_eqb b c = true -> bson_eqb a c = true).
  { intros na Ha H1 H2.
    destruct (bson_eqb_number_r a b na Ha H1) as [nb Hb].
    destruct (bson_eqb_number_r b c nb Hb H2) as [nc Hc].
    apply (bson_eqb_number a c na nc Ha Hc).
    apply (same_number_trans na nb nc).
    - apply (bson_eqb_number a b na nb Ha Hb). exact H1.
    - apply (bson_eqb_number b c nb nc Hb Hc). exact H2. }
  destruct a as [| x | x | x | x | l | d].
  - destruct b, c; simpl; try discriminate; reflexivity.
  - destruct b, c; simpl; try discriminate.
    intros H1 H2. apply Bool.eqb_prop in H1, H2. subst. apply Bool.eqb_reflx.
  - exact (Num _ eq_refl).
  - exact (Num _ eq_refl).
  - destruct b, c; simpl; try discriminate.
    intros H1 H2. apply String.eqb_eq in H1, H2. subst. apply String.eqb_refl.
  - clear Num. destruct b as [| | | | | l' |], c as [| | | | | l'' |]; simpl; try discriminate.
    revert l' l''. induction l as [| a l IH]; intros [| b l'] [| c l''] H1 H2;
      try discriminate; [reflexivity |].
    apply andb_true_iff in H1. destruct H1 as [Ha Hl].
    apply andb_true_iff in H2. destruct H2 as [Hb Hl'].
    rewrite (bson_eqb_trans a b c Ha Hb), (IH l' l'' Hl Hl'). reflexivity.
  - clear Num. destruct b as [| | | | | | d'], c as [| | | | | | d'']; simpl; try discriminate.
    revert d' d''. induction d as [| [k a] d IH]; intros [| [k' b] d'] [| [k'' c] d''] H1 H2;
      try discriminate; [reflexivity |].
    apply andb_true_iff in H1. destruct H1 as [H1 Hd].
    apply andb_true_iff in H1. destruct H1 as [Hk Ha].
    apply andb_true_iff in H2. destruct H2 as [H2 Hd'].
    apply andb_true_iff in H2. destruct H2 as [Hk' Hb].
    apply String.eqb_eq in Hk, Hk'. subst.
    rewrite String.eqb_refl, (bson_eqb_trans a b c Ha Hb), (IH d' d'' Hd Hd'). reflexivity.
Qed.

Lemma bson_list_eqb_refl (x : list value) : bson_list_eqb x x = true.
Proof.
  induction x as [| a x IH]; [reflexivity |]. simpl. rewrite bson_eqb_refl, IH. reflexivity.
Qed.

Lemma bson_list_eqb_sym (x y : list value) :
  bson_list_eqb x y = true -> bson_list_eqb y x = true.
Proof.
  revert y. induction x as [| a x IH]; intros [| b y] H; try discriminate; [reflexivity |].
  simpl in *. apply andb_true_iff in H. destruct H as [Ha Hx].
  rewrite (bson_eqb_sym a b Ha), (IH y Hx). reflexivity.
Qed.

Lemma bson_list_eqb_trans (x y z : list value) :
  bson_list_eqb x y = true -> bson_list_eqb y z = true -> bson_list_eqb x z = true.
Proof.
  revert y z. induction x as [| a x IH]; intros [| b y] [| c z] H1 H2;
    try discriminate; [reflexivity |].
  simpl in *. apply andb_true_iff in H1. destruct H1 as [Ha Hx].
  apply andb_true_iff in H2. destruct H2 as [Hb Hy].
  rewrite (bson_eqb_trans a b c Ha Hb), (IH y z Hx Hy). reflexivity.
Qed.

(** Lists the collection holds equal match the same stored lists. *)
Lemma bson_list_eqb_congr (c c' x : list value) :
  bson_list_eqb c c' = true -> bson_list_eqb c x = bson_list_eqb c' x.
Proof.
  intro H.
  destruct (bson_list_eqb c x) eqn:E1, (bson_list_eqb c' x) eqn:E2; try reflexivity.
  - rewrite <- E2. symmetry.
    apply (bson_list_eqb_trans c' c x); [apply bson_list_eqb_sym; exact H | exact E1].
  - rewrite <- E1. apply (bson_list_eqb_trans c c' x); assumption.
Qed.

Lemma coords_match_congr (c c' field : list value) :
  bson_list_eqb c c' = true -> coords_match c field = coords_match c' field.
Proof.
  intro H. unfold coords_match. rewrite (bson_list_eqb_congr c c' field H). f_equal.
  induction field as [| x field IH]; [reflexivity |].
  simpl. rewrite IH. f_equal.
  destruct x; try reflexivity. apply bson_list_eqb_congr. exact H.
Qed.

(** *** Keys *)

(** Cutting the microseconds to milliseconds leaves the BSON date as it
    is. *)
Lemma millis_bson_date (t : datetime) : millis (bson_date t) = millis t.
Proof.
  unfold millis, timegm, bson_date. simpl. rewrite Z.div_mul by lia. reflexivity.
Qed.

(** Two records share their key: their coordinates are equal to the
    collection and their times fall in the same millisecond. *)
Definition same_key (a b : Event) : Prop :=
  bson_list_eqb (coords a) (coords b) = true /\ millis (time a) = millis (time b).

Lemma same_key_sym (a b : Event) : same_key a b -> same_key b a.
Proof. intros [Hc Ht]. split; [apply bson_list_eqb_sym; exact Hc | symmetry; exact Ht]. Qed.

Lemma same_key_stored (a : Event) : same_key a (stored a).
Proof.
  split; [apply bson_list_eqb_refl | simpl; symmetry; apply millis_bson_date].
Qed.

(** A record's filter matches every document that shares its key. *)
Lemma same_key_matches (x d : Event) :
  same_key x d -> matches (coords x) (time x) d = true.
Proof.
  intros [Hc Ht]. unfold matches, coords_match. rewrite Hc, Ht, Z.eqb_refl. reflexivity.
Qed.

(** Records that share their key match the same documents. *)
Lemma matches_congr (x y d : Event) :
  same_key x y -> matches (coords x) (time x) d = matches (coords y) (time y) d.
Proof.
  intros [Hc Ht]. unfold matches. rewrite (coords_match_congr _ _ _ Hc), Ht. reflexivity.
Qed.

Lemma existsb_matches (c : list value) (t : datetime) (ds : list Event) :
  existsb (matches c t) ds = true <-> exists d, In d ds /\ matches c t d = true.
Proof. apply existsb_exists. Qed.

(** No two stored documents share both [coords] and [time]. *)
Definition unique_keys (ds : list Event) : Prop :=
  forall i j di dj,
    nth_error ds i = Some di -> nth_error ds j = Some dj ->
    same_key di dj -> i = j.

Lemma unique_keys_snoc (ds : list Event) (x : Event) :
  unique_keys ds ->
  existsb (matches (coords x) (time x)) ds = false ->
  unique_keys (ds ++ [stored x]).
Proof.
  intros U N i j di dj Hi Hj K.
  assert (Fresh : forall k dk, nth_error ds k = Some dk -> ~ same_key x dk).
  { intros k dk Hk Hkey.
    assert (T : existsb (matches (coords x) (time x)) ds = true).
    { apply existsb_matches. exists dk.
      split; [eapply nth_error_In; exact Hk | apply same_key_matches; exact Hkey]. }
    congruence. }
  assert (Fresh' : forall k dk, nth_error ds k = Some dk -> ~ same_key (stored x) dk).
  { intros k dk Hk [Hc Ht]. apply (Fresh k dk Hk). split; [exact Hc |].
    rewrite <- Ht. simpl. symmetry. apply millis_bson_date. }
  destruct (Nat.lt_ge_cases i (List.length ds)) as [Li | Li];
    destruct (Nat.lt_ge_cases j (List.length ds)) as [Lj | Lj].
  - rewrite nth_error_app1 in Hi, Hj by assumption.
    exact (U i j di dj Hi Hj K).
  - rewrite nth_error_app1 in Hi by assumption.
    rewrite nth_error_app2 in Hj by assumption.
    destruct (j - List.length ds)%nat as [| k] eqn:Ej; simpl in Hj.
    + inversion Hj; subst dj. exfalso. apply (Fresh' i di Hi). apply same_key_sym. exact K.
    + destruct k; discriminate.
  - rewrite nth_error_app2 in Hi by assumption.
    rewrite nth_error_app1 in Hj by assumption.
    destruct (i - List.length ds)%nat as [| k] eqn:Ei; simpl in Hi.
    + inversion Hi; subst di. exfalso. apply (Fresh' j dj Hj). exact K.
    + destruct k; discriminate.
  - rewrite nth_error_app2 in Hi, Hj by assumption.
    destruct (i - List.length ds)%nat as [| k] eqn:Ei; simpl in Hi;
      [| destruct k; discriminate].
    destruct (j - List.length ds)%nat as [| k] eqn:Ej; simpl in Hj;
      [| destruct k; discriminate].
    lia.
Qed.

(** The [update_one] calls of a trace, in order: filter coordinates,
    filter time and the document to set on insert. *)
Definition update_calls (tr : list effect) : list (list value * datetime * Event) :=
  flat_map (fun e => match e with
                     | UpdateOne c t ev => [(c, t, ev)]
                     | _ => []
                     end) tr.

(** The call [upsert_events] makes for a record. *)
Definition upsert_call (ev : Event) : list value * datetime * Event :=
  (coords ev, time ev, ev).

(** Whether each write of a batch succeeds, when the batch starts after
    [pos] effects: a successful write is one effect, a failed one two (the
    call and the message). *)
Fixpoint write_outcomes (env : Env) (pos : nat) (events : list Event) : list bool :=
  match events with
  | [] => []
  | _ :: rest =>
      match write_fails env pos with
      | Some _ => false :: write_outcomes env (pos + 2) rest
      | None => true :: write_outcomes env (pos + 1) rest
      end
  end.

Definition successes (outcomes : list bool) : Z :=
  Z.of_nat (List.length (filter (fun b : bool => b) outcomes)).

Lemma update_calls_app (a b : list effect) :
  update_calls (a ++ b) = (update_calls a ++ update_calls b)%list.
Proof. unfold update_calls. apply flat_map_app. Qed.

(** One turn of the loop. *)
Lemma upsert_loop_cons (ev : Event) (rest : list Event) (n : Z) (env : Env) (w : World) :
  upsert_loop (ev :: rest) n env w
  = match write_fails env (List.length (trace w)) with
    | Some e =>
        upsert_loop rest n env
          (mkWorld (docs w)
             ((trace w ++ [UpdateOne (coords ev) (time ev) ev])
                ++ [PrintExn "Upsert failed:" e]))
    | None =>
        upsert_loop rest (n + 1) env
          (mkWorld (if existsb (matches (coords ev) (time ev)) (docs w)
                    then docs w else (docs w ++ [stored ev])%list)
                   (trace w ++ [UpdateOne (coords ev) (time ev) ev]))
    end.
Proof.
  simpl. unfold bind at 1. unfold try_except, bind, update_one, ret, emit.
  destruct (write_fails env (List.length (trace w))) as [e |]; simpl.
  - reflexivity.
  - destruct (existsb (matches (coords ev) (time ev)) (docs w)); reflexivity.
Qed.

Lemma upsert_loop_spec (events : list Event) :
  forall (env : Env) (w : World) (n : Z),
  exists w',
    upsert_loop events n env w
    = (Ok (n + successes (write_outcomes env (List.length (trace w)) events)), w')
    /\ update_calls (trace w')
       = (update_calls (trace w) ++ map upsert_call events)%list
    /\ (exists added, docs w' = (docs w ++ added)%list)
    /\ (unique_keys (docs w) -> unique_keys (docs w'))
    /\ (forall i ev,
           nth_error events i = Some ev ->
           nth_error (write_outcomes env (List.length (trace w)) events) i = Some true ->
           exists d, In d (docs w') /\ matches (coords ev) (time ev) d = true).
Proof.
  induction events as [| ev rest IH]; intros env w n.
  - exists w. simpl. unfold ret, successes. simpl.
    split; [f_equal; f_equal; lia |].
    split; [rewrite app_nil_r; reflexivity |].
    split; [exists []; rewrite app_nil_r; reflexivity |].
    split; [tauto |].
    intros [| i] ev H; discriminate.
  - rewrite upsert_loop_cons. simpl write_outcomes.
    destruct (write_fails env (List.length (trace w))) as [e |].
    + (* the write fails: nothing stored, nothing counted *)
      set (w1 := mkWorld (docs w)
                   ((trace w ++ [UpdateOne (coords ev) (time ev) ev])
                      ++ [PrintExn "Upsert failed:" e])).
      destruct (IH env w1 n) as (w' & Hrun & Hcalls & Hadd & Huniq & Hwr).
      assert (Len : List.length (trace w1) = (List.length (trace w) + 2)%nat).
      { unfold w1. simpl. rewrite !length_app. simpl. lia. }
      rewrite Len in Hrun, Hwr.
      exists w'. split.
      { rewrite Hrun. unfold successes. simpl. reflexivity. }
      split.
      { rewrite Hcalls. unfold w1. simpl trace. rewrite !update_calls_app. simpl.
        rewrite !app_nil_r, <- app_assoc. reflexivity. }
      split; [exact Hadd |]. split; [exact Huniq |].
      intros [| i] ev' Hi Ho; simpl in Hi, Ho; [discriminate |].
      exact (Hwr i ev' Hi Ho).
    + (* the write succeeds: inserted unless a document matches *)
      set (ds1 := if existsb (matches (coords ev) (time ev)) (docs w)
                  then docs w else (docs w ++ [stored ev])%list).
      set (w1 := mkWorld ds1 (trace w ++ [UpdateOne (coords ev) (time ev) ev])).
      destruct (IH env w1 (n + 1)) as (w' & Hrun & Hcalls & [added Hadd] & Huniq & Hwr).
      assert (Len : List.length (trace w1) = (List.length (trace w) + 1)%nat).
      { unfold w1. simpl. rewrite length_app. simpl. lia. }
      rewrite Len in Hrun, Hwr.
      assert (Hds1 : exists a1, ds1 = (docs w ++ a1)%list).
      { unfold ds1. destruct (existsb _ _);
          [exists []; rewrite app_nil_r | exists [stored ev]]; reflexivity. }
      assert (Hin1 : exists d, In d ds1 /\ matches (coords ev) (time ev) d = true).
      { unfold ds1. destruct (existsb _ _) eqn:Ex.
        - apply existsb_matches in Ex. exact Ex.
        - exists (stored ev). split; [apply in_or_app; right; left; reflexivity |].
          apply same_key_matches, same_key_stored. }
      exists w'. split.
      { rewrite Hrun. unfold successes. simpl filter. simpl List.length.
        f_equal. f_equal. lia. }
      split.
      { rewrite Hcalls. unfold w1. simpl trace. rewrite update_calls_app. simpl.
        rewrite <- app_assoc. reflexivity. }
      split.
      { destruct Hds1 as [a1 Ha1]. exists (a1 ++ added)%list.
        rewrite Hadd. simpl docs. rewrite Ha1, app_assoc. reflexivity. }
      split.
      { intro U. apply Huniq. simpl docs. unfold ds1.
        destruct (existsb _ _) eqn:Ex; [exact U | apply unique_keys_snoc; assumption]. }
      intros [| i] ev' Hi Ho; simpl in Hi, Ho.
      * inversion Hi; subst ev'.
        destruct Hin1 as (d & Hin & Hk). exists d. split; [| exact Hk].
        rewrite Hadd. apply in_or_app. left. exact Hin.
      * exact (Hwr i ev' Hi Ho).
Qed.

Lemma write_outcomes_length (env : Env) (events : list Event) :
  forall pos, List.length (write_outcomes env pos events) = List.length events.
Proof.
  induction events as [| ev rest IH]; intro pos; simpl; [reflexivity |].
  destruct (write_fails env pos); simpl; rewrite IH; reflexivity.
Qed.

Lemma successes_le (l : list bool) : 0 <= successes l <= Z.of_nat (List.length l).
Proof.
  unfold successes. pose proof (filter_length_le (fun b : bool => b) l). lia.
Qed.

(** Three records with different coordinates, and an environment in which
    exactly the second write of a batch started in the empty world fails. *)
Definition record_at (lon : Z) : Event :=
  mkEvent "earthquake" VNone (VInt 4) [VInt lon; VInt 20] epoch.

Definition batch3 : list Event := [record_at 70; record_at 75; record_at 80].

Definition env_second_write_fails : Env :=
  mkEnv (fun _ _ => GetRaises ConnectionError) (fun _ => epoch)
        (fun _ => Raise OSError)
        (fun n => if Nat.eqb n 1 then Some WriteError else None)
        (fun _ => true).

(** C1, as the code has it.  [upsert_events] never raises; it calls
    [update_one] once for every record, in order, whether or not earlier
    calls failed; every record whose write did not fail has a document
    matching its key in the collection afterwards; and the count returned is the
    number of writes that did not fail, whatever the collection held
    before (a write that finds its key already stored counts like an
    insert), hence at most the number of records. *)
Theorem upsert_events_counts_successes (events : list Event) (env : Env) (w : World) :
  exists w',
    upsert_events events env w
    = (Ok (successes (write_outcomes env (List.length (trace w)) events)), w')
    /\ update_calls (trace w')
       = (update_calls (trace w) ++ map upsert_call events)%list
    /\ (forall i ev,
           nth_error events i = Some ev ->
           nth_error (write_outcomes env (List.length (trace w)) events) i = Some true ->
           exists d, In d (docs w') /\ matches (coords ev) (time ev) d = true)
    /\ (forall ds,
           fst (upsert_events events env (mkWorld ds (trace w)))
           = Ok (successes (write_outcomes env (List.length (trace w)) events)))
    /\ successes (write_outcomes env (List.length (trace w)) events)
       <= Z.of_nat (List.length events).
Proof.
  unfold upsert_events.
  destruct (upsert_loop_spec events env w 0) as (w' & Hrun & Hcalls & _ & _ & Hwr).
  exists w'. split; [rewrite Hrun; reflexivity |].
  split; [exact Hcalls |]. split; [exact Hwr |]. split.
  - intro ds.
    destruct (upsert_loop_spec events env (mkWorld ds (trace w)) 0) as (w2 & Hrun2 & _).
    rewrite Hrun2. reflexivity.
  - pose proof (successes_le (write_outcomes env (List.length (trace w)) events)) as H.
    rewrite write_outcomes_length in H. lia.
Qed.

(** C1 as stated fails on the count: when the second of three writes
    fails, the first and the third record are stored and the count is 2,
    not the 3 records attempted. *)
Lemma upsert_events_count_counterexample :
  upsert_events batch3 env_second_write_fails w0
  = (Ok 2,
     mkWorld [stored (record_at 70); stored (record_at 80)]
       [UpdateOne [VInt 70; VInt 20] epoch (record_at 70);
        UpdateOne [VInt 75; VInt 20] epoch (record_at 75);
        PrintExn "Upsert failed:" WriteError;
        UpdateOne [VInt 80; VInt 20] epoch (record_at 80)])
  /\ List.length batch3 = 3%nat.
Proof. vm_compute. split; reflexivity. Qed.

(** ** The pipeline *)

(** What one fetch yields: [requests.get(url).json()["features"]]. *)
Definition fetch_outcome (o : http_outcome) : result value :=
  match o with
  | GetRaises e => Raise e
  | GetReturns _ (Raise e) => Raise e
  | GetReturns _ (Ok body) => getitem body "features"
  end.

(** The two fetches of a cycle started in world [w]: the seismic request
    is the second effect of the cycle, the thermal one the fourth. *)
Definition usgs_fetch (env : Env) (w : World) : result value :=
  fetch_outcome (http env (S (List.length (trace w))) USGS_URL).

Definition firms_fetch (env : Env) (w : World) : result value :=
  fetch_outcome (http env (S (S (S (List.length (trace w))))) FIRMS_URL).

Definition MSG_EQ : string := "Fetching earthquake data...".
Definition MSG_FIRE : string := "Fetching fire data...".

Lemma fetch_features_run (url : string) (env : Env) (w : World) :
  fetch_features url env w
  = (fetch_outcome (http env (List.length (trace w)) url),
     mkWorld (docs w) (trace w ++ [HttpGet url])).
Proof.
  unfold fetch_features, fetch_outcome.
  destruct (http env (List.length (trace w)) url) as [e | st [body | e]]; reflexivity.
Qed.

(** Printing ASCII text, and printing the completion message. *)
Lemma print_ascii (msg : string) (env : Env) (w : World) :
  is_ascii_text msg = true ->
  print msg env w = (Ok tt, mkWorld (docs w) (trace w ++ [Print msg])).
Proof. intro H. unfold print. rewrite H. reflexivity. Qed.

Lemma print_completion (n : Z) (env : Env) (w : World) :
  print (completion_message n) env w
  = if stdout_encodes env (completion_message n)
    then (Ok tt, mkWorld (docs w) (trace w ++ [Print (completion_message n)]))
    else (Raise UnicodeEncodeError, w).
Proof. reflexivity. Qed.

(** The cycle up to the end of the second fetch. *)
Lemma run_pipeline_fetches (env : Env) (w : World) :
  run_pipeline env w
  = match usgs_fetch env w with
    | Raise e => (Raise e, mkWorld (docs w) (trace w ++ [Print MSG_EQ; HttpGet USGS_URL]))
    | Ok eq_data =>
        match firms_fetch env w with
        | Raise e =>
            (Raise e,
             mkWorld (docs w)
               (trace w ++ [Print MSG_EQ; HttpGet USGS_URL; Print MSG_FIRE; HttpGet FIRMS_URL]))
        | Ok fire_data =>
            (eq_list <- lift (py_iter eq_data) ;;
             earthquakes <- comprehension normalize_usgs eq_list ;;
             fire_list <- lift (py_iter fire_data) ;;
             fires <- comprehension normalize_firms fire_list ;;
             inserted <- upsert_events (earthquakes ++ fires)%list ;;
             print (completion_message inserted) ;;
             ret inserted) env
              (mkWorld (docs w)
                 (trace w ++ [Print MSG_EQ; HttpGet USGS_URL; Print MSG_FIRE;
                              HttpGet FIRMS_URL]))
        end
    end.
Proof.
  unfold run_pipeline, usgs_fetch, firms_fetch.
  unfold bind at 1. rewrite print_ascii by reflexivity.
  unfold bind at 1. rewrite fetch_features_run. simpl trace. simpl docs.
  rewrite length_app. simpl List.length.
  replace (List.length (trace w) + 1)%nat with (S (List.length (trace w))) by lia.
  destruct (fetch_outcome (http env (S (List.length (trace w))) USGS_URL)) as [eq_data | e].
  - unfold bind at 1. rewrite print_ascii by reflexivity.
    unfold bind at 1. rewrite fetch_features_run. simpl trace. simpl docs.
    rewrite !length_app. simpl List.length.
    replace (List.length (trace w) + 1 + 1 + 1)%nat
      with (S (S (S (List.length (trace w))))) by lia.
    rewrite <- !app_assoc. simpl app.
    destruct (fetch_outcome (http env (S (S (S (List.length (trace w))))) FIRMS_URL));
      reflexivity.
  - rewrite <- !app_assoc. reflexivity.
Qed.

(** C7, as the code has it.  A fetch fails when the request raises, when
    the body is not JSON, or when the decoded body has no [features]
    entry, and in no other case: the status code of the response plays no
    part.  When the seismic fetch fails, the cycle ends with that
    exception after one message and one request: the thermal feed is not
    requested, the clock is not read, nothing is written and the
    collection is as it was.  When the seismic fetch succeeds and the
    thermal one fails, the cycle ends with that exception after the two
    requests, again with nothing normalised or written. *)
Theorem run_pipeline_aborts_on_fetch_failure (env : Env) (w : World) (e : exn) :
  usgs_fetch env w = Raise e
  \/ (is_ok (usgs_fetch env w) = true /\ firms_fetch env w = Raise e) ->
  (exists tr,
      run_pipeline env w = (Raise e, mkWorld (docs w) (trace w ++ tr))
      /\ update_calls tr = []
      /\ ~ In ReadClock tr
      /\ (usgs_fetch env w = Raise e -> tr = [Print MSG_EQ; HttpGet USGS_URL])
      /\ (is_ok (usgs_fetch env w) = true ->
          tr = [Print MSG_EQ; HttpGet USGS_URL; Print MSG_FIRE; HttpGet FIRMS_URL]))
  /\ (forall o e',
         fetch_outcome o = Raise e'
         <-> o = GetRaises e'
             \/ (exists st, o = GetReturns st (Raise e'))
             \/ (exists st body, o = GetReturns st (Ok body)
                                 /\ getitem body "features" = Raise e'))
  /\ (forall st st' body,
         fetch_outcome (GetReturns st body) = fetch_outcome (GetReturns st' body)).
Proof.
  intro H. split; [| split].
  - destruct H as [H1 | [H1 H2]]; rewrite run_pipeline_fetches.
    + rewrite H1. exists [Print MSG_EQ; HttpGet USGS_URL].
      split; [reflexivity |]. split; [reflexivity |]. split.
      * simpl. intros [H | [H | []]]; discriminate.
      * split; [reflexivity | discriminate].
    + destruct (usgs_fetch env w) as [eq_data | e1]; [| discriminate].
      rewrite H2.
      exists [Print MSG_EQ; HttpGet USGS_URL; Print MSG_FIRE; HttpGet FIRMS_URL].
      split; [reflexivity |]. split; [reflexivity |]. split.
      * simpl. intros [H | [H | [H | [H | []]]]]; discriminate.
      * split; [discriminate | reflexivity].
  - intros o e'. destruct o as [e1 | st [body | e1]]; simpl; split.
    + intro E. left. congruence.
    + intros [E | [[st E] | (st & body & E & _)]]; congruence.
    + intro E. right. right. exists st, body. split; [reflexivity | exact E].
    + intros [E | [[st' E] | (st' & body' & E & G)]]; try discriminate.
      inversion E; subst. exact G.
    + intro E. right. left. exists st. congruence.
    + intros [E | [[st' E] | (st' & body' & E & _)]]; congruence.
  - reflexivity.
Qed.

Lemma run_pipeline_aborts_on_fetch_failure_witness :
  (exists tr,
      run_pipeline env0 w0 = (Raise ConnectionError, mkWorld (docs w0) (trace w0 ++ tr))
      /\ update_calls tr = []
      /\ ~ In ReadClock tr
      /\ (usgs_fetch env0 w0 = Raise ConnectionError -> tr = [Print MSG_EQ; HttpGet USGS_URL])
      /\ (is_ok (usgs_fetch env0 w0) = true ->
          tr = [Print MSG_EQ; HttpGet USGS_URL; Print MSG_FIRE; HttpGet FIRMS_URL]))
  /\ (forall o e',
         fetch_outcome o = Raise e'
         <-> o = GetRaises e'
             \/ (exists st, o = GetReturns st (Raise e'))
             \/ (exists st body, o = GetReturns st (Ok body)
                                 /\ getitem body "features" = Raise e'))
  /\ (forall st st' body,
         fetch_outcome (GetReturns st body) = fetch_outcome (GetReturns st' body)).
Proof.
  apply (run_pipeline_aborts_on_fetch_failure env0 w0 ConnectionError).
  left. reflexivity.
Defined.

(** Feeds answered with error statuses: a seismic response with status
    500 and a thermal one with status 404, each with a well-formed body;
    and the same with a thermal body whose [features] is an empty string
    instead of an array. *)
Definition env_error_status : Env :=
  mkEnv (fun _ url =>
           if String.eqb url USGS_URL
           then GetReturns 500 (Ok (VDict [("features", VList [delhi_quake])]))
           else GetReturns 404 (Ok (VDict [("features", VList [good_fire])])))
        (fun _ => epoch) (fun _ => Raise OSError) (fun _ => None) (fun _ => true).

Definition env_features_not_array : Env :=
  mkEnv (fun _ url =>
           if String.eqb url USGS_URL
           then GetReturns 200 (Ok (VDict [("features", VList [delhi_quake])]))
           else GetReturns 200 (Ok (VDict [("features", VStr "")])))
        (fun _ => epoch) (fun _ => Raise OSError) (fun _ => None) (fun _ => true).

(** C7 as stated fails on its failure conditions: a response with a
    non-2xx status is not a failed fetch, nor is a body whose [features]
    is not an array.  With statuses 500 and 404 the cycle completes and
    writes a record of each feed; with an empty string for the thermal
    [features] it completes and writes the seismic record. *)
Lemma run_pipeline_status_counterexample :
  (fst (run_pipeline env_error_status w0) = Ok 2
   /\ List.length (docs (snd (run_pipeline env_error_status w0))) = 2%nat
   /\ List.length (update_calls (trace (snd (run_pipeline env_error_status w0)))) = 2%nat)
  /\ (fst (run_pipeline env_features_not_array w0) = Ok 1
      /\ List.length (docs (snd (run_pipeline env_features_not_array w0))) = 1%nat).
Proof. vm_compute. repeat split; reflexivity. Qed.

(** *** The order of the writes *)

Lemma bind_inv {A B} (c : M A) (k : A -> M B) (env : Env) (w w' : World) (b : B) :
  bind c k env w = (Ok b, w') ->
  exists a w1, c env w = (Ok a, w1) /\ k a env w1 = (Ok b, w').
Proof.
  unfold bind. destruct (c env w) as [[a | e] w1]; intro H; [| discriminate].
  exists a, w1. split; [reflexivity | exact H].
Qed.

(** A feature a comprehension keeps: the filter returns [True]. *)
Definition keeps (f : value) : bool :=
  match feature_in_india f with
  | Ok true => true
  | _ => false
  end.

(** A step that neither touches the collection nor calls [update_one]. *)
Definition quiet (w w' : World) : Prop :=
  docs w' = docs w /\ update_calls (trace w') = update_calls (trace w).

Lemma quiet_refl (w : World) : quiet w w.
Proof. split; reflexivity. Qed.

Lemma quiet_trans (a b c : World) : quiet a b -> quiet b c -> quiet a c.
Proof. intros [D1 U1] [D2 U2]. split; congruence. Qed.

Lemma quiet_emit (w : World) (l : list effect) :
  update_calls l = [] -> quiet w (mkWorld (docs w) (trace w ++ l)).
Proof.
  intro H. split; [reflexivity |]. simpl. rewrite update_calls_app, H, app_nil_r. reflexivity.
Qed.

Lemma normalize_usgs_quiet (f : value) (env : Env) (w : World) :
  quiet w (snd (normalize_usgs f env w)).
Proof. rewrite normalize_usgs_run. apply quiet_refl. Qed.

Lemma normalize_firms_world (f : value) (env : Env) (w : World) :
  snd (normalize_firms f env w) = w
  \/ snd (normalize_firms f env w) = mkWorld (docs w) (trace w ++ [ReadClock]).
Proof.
  unfold normalize_firms, bind, lift, ret, try_except, now_utc.
  destruct (getitem f "geometry") as [g |]; [| left; reflexivity].
  destruct (getitem g "coordinates") as [cs |]; [| left; reflexivity].
  destruct (getitem f "properties") as [props |]; [| left; reflexivity].
  destruct (dict_get props "brightness") as [b |]; [| left; reflexivity].
  destruct (dict_get props "acq_date") as [ad |]; [| left; reflexivity].
  destruct (dict_get props "acq_time") as [at_ |]; [| left; reflexivity].
  destruct (strptime _ _); simpl;
    (destruct (dict_get props "satellite"); simpl; [| auto]);
    (destruct (truthy b); simpl;
     [ destruct (py_float b); simpl; [| auto] | ]);
    (destruct (getindex cs 0); simpl; [| auto]);
    (destruct (getindex cs 1); simpl; auto).
Qed.

Lemma normalize_firms_quiet (f : value) (env : Env) (w : World) :
  quiet w (snd (normalize_firms f env w)).
Proof.
  destruct (normalize_firms_world f env w) as [-> | ->].
  - apply quiet_refl.
  - apply quiet_emit. reflexivity.
Qed.

(** A comprehension returns the records of the kept features, in feed
    order, and is quiet when the normaliser is. *)
Lemma comprehension_inv (N : value -> M Event)
    (HN : forall f env w, quiet w (snd (N f env w))) (env : Env) :
  forall (feats : list value) (w w' : World) (evs : list Event),
    comprehension N feats env w = (Ok evs, w') ->
    Forall2 (fun f e => exists w1, fst (N f env w1) = Ok e) (filter keeps feats) evs
    /\ quiet w w'.
Proof.
  induction feats as [| f rest IH]; intros w w' evs H.
  - simpl in H. unfold ret in H. inversion H; subst.
    split; [constructor | apply quiet_refl].
  - simpl in H.
    apply bind_inv in H. destruct H as (keep & w1 & Hk & H).
    unfold lift in Hk. injection Hk as Hfi Hw. subst w1.
    simpl filter. unfold keeps at 1. rewrite Hfi.
    destruct keep.
    + apply bind_inv in H. destruct H as (ev & w2 & Hev & H).
      apply bind_inv in H. destruct H as (evs' & w3 & Hrest & H).
      unfold ret in H. inversion H; subst.
      destruct (IH _ _ _ Hrest) as [F Q].
      split.
      * constructor; [exists w; rewrite Hev; reflexivity | exact F].
      * eapply quiet_trans; [| exact Q].
        pose proof (HN f env w) as Q1. rewrite Hev in Q1. exact Q1.
    + exact (IH _ _ _ H).
Qed.

(** Feeds for a concrete cycle: a quake near Delhi and one in the
    Atlantic, and the two thermal features above. *)
Definition atlantic_quake : value :=
  feature [VFloat (of_prim (-10.0)%float); VFloat (of_prim 50.0%float); VInt 5]
          [("mag", VFloat (of_prim 5.1%float)); ("place", VStr "Atlantic");
           ("time", VInt 1700000360000)].

Definition env_feeds : Env :=
  mkEnv (fun _ url =>
           if String.eqb url USGS_URL
           then GetReturns 200 (Ok (VDict [("features", VList [atlantic_quake; delhi_quake])]))
           else GetReturns 200 (Ok (VDict [("features", VList [good_fire; odd_fire])])))
        (fun _ => epoch) (fun _ => Raise OSError) (fun _ => None) (fun _ => true).

(** C10. In a cycle that completes, the [update_one] calls are exactly one
    per kept seismic feature, in feed order, followed by one per kept
    thermal feature, in feed order, each call carrying the record
    normalised from its feature. *)
Theorem run_pipeline_preserves_order (env : Env) (w w' : World) (n : Z) :
  run_pipeline env w = (Ok n, w') ->
  exists eq_data fire_data eq_list fire_list earthquakes fires,
    usgs_fetch env w = Ok eq_data /\ py_iter eq_data = Ok eq_list
    /\ firms_fetch env w = Ok fire_data /\ py_iter fire_data = Ok fire_list
    /\ Forall2 (fun f e => usgs_record f = Ok e) (filter keeps eq_list) earthquakes
    /\ Forall2 (fun f e => exists w1, fst (normalize_firms f env w1) = Ok e)
               (filter keeps fire_list) fires
    /\ update_calls (trace w')
       = (update_calls (trace w) ++ map upsert_call (earthquakes ++ fires))%list.
Proof.
  rewrite run_pipeline_fetches.
  destruct (usgs_fetch env w) as [eq_data | e]; [| discriminate].
  destruct (firms_fetch env w) as [fire_data | e]; [| discriminate].
  set (wd := mkWorld (docs w)
               (trace w ++ [Print MSG_EQ; HttpGet USGS_URL; Print MSG_FIRE; HttpGet FIRMS_URL])).
  assert (Qd : quiet w wd) by (apply quiet_emit; reflexivity).
  intro H.
  apply bind_inv in H. destruct H as (eq_list & w1 & H1 & H).
  unfold lift in H1. inversion H1 as [[Eeq Ew1]]. subst w1.
  apply bind_inv in H. destruct H as (earthquakes & w2 & Hc1 & H).
  apply bind_inv in H. destruct H as (fire_list & w3 & H3 & H).
  unfold lift in H3. inversion H3 as [[Efi Ew3]]. subst w3.
  apply bind_inv in H. destruct H as (fires & w4 & Hc2 & H).
  apply bind_inv in H. destruct H as (inserted & w5 & Hu & H).
  apply bind_inv in H. destruct H as (u & w6 & Hp & H).
  unfold ret in H. inversion H; subst. clear H.
  rewrite print_completion in Hp.
  destruct (stdout_encodes env (completion_message n)); [| discriminate].
  inversion Hp; subst. clear Hp.
  destruct (comprehension_inv normalize_usgs normalize_usgs_quiet env _ _ _ _ Hc1) as [F1 Q1].
  destruct (comprehension_inv normalize_firms normalize_firms_quiet env _ _ _ _ Hc2) as [F2 Q2].
  destruct (upsert_loop_spec (earthquakes ++ fires) env w4 0)
    as (w5' & Hrun & Hcalls & _).
  unfold upsert_events in Hu. rewrite Hu in Hrun. inversion Hrun; subst w5'.
  exists eq_data, fire_data, eq_list, fire_list, earthquakes, fires.
  repeat split; try assumption.
  - clear - F1. induction F1 as [| f e fs es [w1 Hfe] _ IH]; constructor; [| exact IH].
    rewrite normalize_usgs_run in Hfe. exact Hfe.
  - simpl trace. rewrite update_calls_app. simpl update_calls at 2.
    rewrite app_nil_r, Hcalls.
    destruct Qd as [_ Ud]. destruct Q1 as [_ U1]. destruct Q2 as [_ U2].
    rewrite U2, U1, Ud. reflexivity.
Qed.

Lemma run_pipeline_preserves_order_witness :
  exists eq_data fire_data eq_list fire_list earthquakes fires,
    usgs_fetch env_feeds w0 = Ok eq_data /\ py_iter eq_data = Ok eq_list
    /\ firms_fetch env_feeds w0 = Ok fire_data /\ py_iter fire_data = Ok fire_list
    /\ Forall2 (fun f e => usgs_record f = Ok e) (filter keeps eq_list) earthquakes
    /\ Forall2 (fun f e => exists w1, fst (normalize_firms f env_feeds w1) = Ok e)
               (filter keeps fire_list) fires
    /\ update_calls (trace (snd (run_pipeline env_feeds w0)))
       = (update_calls (trace w0) ++ map upsert_call (earthquakes ++ fires))%list.
Proof.
  apply (run_pipeline_preserves_order env_feeds w0 (snd (run_pipeline env_feeds w0)) 3).
  vm_compute. reflexivity.
Defined.

(** The end-to-end scenarios of the specification, in one cycle: the quake
    in the Atlantic is dropped, the quake near Delhi is stored as
    [earthquake] at [[77.2, 28.6]] with magnitude 4.5 and time
    2023-11-14T22:13:20Z, then the two fires, in feed order. *)
Example run_pipeline_cycle :
  fst (run_pipeline env_feeds w0) = Ok 3
  /\ docs (snd (run_pipeline env_feeds w0))
     = map stored
         [mkEvent "earthquake" (VStr "Delhi") (VFloat (of_prim 4.5%float))
            [VFloat (of_prim 77.2%float); VFloat (of_prim 28.6%float)]
            (mkdt 2023 11 14 22 13 20 0 (Some utc));
          mkEvent "fire" (VStr "N") (VFloat (of_prim 3.305%float))
            [VFloat (of_prim 78.9%float); VFloat (of_prim 20.5%float)]
            (mkdt 2024 3 1 5 30 0 0 (Some utc));
          mkEvent "fire" (VStr "Unknown area") VNone
            [VFloat (of_prim 78.9%float); VFloat (of_prim 20.5%float)] epoch]
  /\ map (fun c => type (snd c)) (update_calls (trace (snd (run_pipeline env_feeds w0))))
     = ["earthquake"; "fire"; "fire"].
Proof. vm_compute. repeat split; reflexivity. Qed.

(** Running the cycle again stores nothing new: every write finds its key.
    (The clock of [env_feeds] stands still, so the fire without a date gets
    the same time.) *)
Example run_pipeline_twice :
  fst ((run_pipeline ;; run_pipeline) env_feeds w0) = Ok 3
  /\ List.length (docs (snd ((run_pipeline ;; run_pipeline) env_feeds w0))) = 3%nat.
Proof. vm_compute. split; reflexivity. Qed.

(** A comprehension is quiet however it ends. *)
Lemma comprehension_quiet (N : value -> M Event)
    (HN : forall f env w, quiet w (snd (N f env w))) (env : Env) :
  forall (feats : list value) (w : World),
    quiet w (snd (comprehension N feats env w)).
Proof.
  induction feats as [| f rest IH]; intro w.
  - apply quiet_refl.
  - simpl. unfold bind at 1. unfold lift.
    destruct (feature_in_india f) as [[|] | e]; simpl.
    + unfold bind at 1. pose proof (HN f env w) as Q1.
      destruct (N f env w) as [[ev | e] w1]; simpl in *; [| exact Q1].
      unfold bind at 1. pose proof (IH w1) as Q2.
      destruct (comprehension N rest env w1) as [[evs | e] w2]; simpl in *;
        eapply quiet_trans; eassumption.
    + apply IH.
    + apply quiet_refl.
Qed.

(** A cycle keeps the keys of the collection distinct, however it ends. *)
Lemma run_pipeline_keeps_keys (env : Env) (w : World) :
  unique_keys (docs w) -> unique_keys (docs (snd (run_pipeline env w))).
Proof.
  intro U. rewrite run_pipeline_fetches.
  destruct (usgs_fetch env w) as [eq_data | e]; [| exact U].
  destruct (firms_fetch env w) as [fire_data | e]; [| exact U].
  set (wd := mkWorld (docs w)
               (trace w ++ [Print MSG_EQ; HttpGet USGS_URL; Print MSG_FIRE; HttpGet FIRMS_URL])).
  unfold bind at 1. unfold lift at 1.
  destruct (py_iter eq_data) as [eq_list | e]; [| exact U].
  unfold bind at 1.
  pose proof (comprehension_quiet normalize_usgs normalize_usgs_quiet env eq_list wd) as [D1 _].
  destruct (comprehension normalize_usgs eq_list env wd) as [[earthquakes | e] w2];
    simpl in D1; [| simpl; rewrite D1; exact U].
  unfold bind at 1. unfold lift at 1.
  destruct (py_iter fire_data) as [fire_list | e]; [| simpl; rewrite D1; exact U].
  unfold bind at 1.
  pose proof (comprehension_quiet normalize_firms normalize_firms_quiet env fire_list w2) as [D2 _].
  destruct (comprehension normalize_firms fire_list env w2) as [[fires | e] w4];
    simpl in D2; [| simpl; rewrite D2, D1; exact U].
  unfold bind at 1. unfold upsert_events.
  destruct (upsert_loop_spec (earthquakes ++ fires) env w4 0)
    as (w5 & Hrun & _ & _ & Huniq & _).
  rewrite Hrun. unfold bind at 1. rewrite print_completion.
  destruct (stdout_encodes env _); simpl; apply Huniq; rewrite D2, D1; exact U.
Qed.


(** C6, as the code has it.  The collection compares coordinates by
    value and times to the millisecond.  From a collection in which no
    two documents share both [coords] and [time], no batch of upserts and
    no pipeline cycle produces such a pair, whichever writes fail and
    however the cycle ends.  Writing one key twice, both writes
    succeeding, leaves a document the key matches and no second one: the
    second write changes nothing, and when the key was new the one
    document added is the first write's payload as the collection keeps
    it, its time cut to the millisecond. *)
Theorem upsert_keeps_keys_unique (events : list Event) (env : Env) (w : World) :
  unique_keys (docs w) ->
  unique_keys (docs (snd (upsert_events events env w)))
  /\ unique_keys (docs (snd (run_pipeline env w)))
  /\ (forall ev1 ev2,
         same_key ev1 ev2 ->
         write_fails env (List.length (trace w)) = None ->
         write_fails env (S (List.length (trace w))) = None ->
         unique_keys (docs (snd (upsert_events [ev1; ev2] env w)))
         /\ (exists d, In d (docs (snd (upsert_events [ev1; ev2] env w)))
                       /\ matches (coords ev1) (time ev1) d = true
                       /\ matches (coords ev2) (time ev2) d = true)
         /\ fst (upsert_events [ev1; ev2] env w) = Ok 2
         /\ docs (snd (upsert_events [ev1; ev2] env w))
            = docs (snd (upsert_events [ev1] env w))
         /\ (existsb (matches (coords ev1) (time ev1)) (docs w) = false ->
             docs (snd (upsert_events [ev1; ev2] env w)) = (docs w ++ [stored ev1])%list
             /\ same_key ev1 (stored ev1)
             /\ microsecond (time (stored ev1)) = microsecond (time ev1) / 1000 * 1000)).
Proof.
  intro U. split; [| split].
  - unfold upsert_events.
    destruct (upsert_loop_spec events env w 0) as (w' & Hrun & _ & _ & Huniq & _).
    rewrite Hrun. exact (Huniq U).
  - exact (run_pipeline_keeps_keys env w U).
  - intros ev1 ev2 K F1 F2.
    assert (Run2 : upsert_events [ev1; ev2] env w
                   = (Ok 2,
                      mkWorld (if existsb (matches (coords ev1) (time ev1)) (docs w)
                               then docs w else (docs w ++ [stored ev1])%list)
                              ((trace w ++ [UpdateOne (coords ev1) (time ev1) ev1])
                                 ++ [UpdateOne (coords ev2) (time ev2) ev2]))).
    { unfold upsert_events. rewrite upsert_loop_cons, F1, upsert_loop_cons.
      simpl trace. rewrite length_app. simpl List.length.
      replace (List.length (trace w) + 1)%nat with (S (List.length (trace w))) by lia.
      rewrite F2. simpl docs.
      assert (Same : forall ds, existsb (matches (coords ev2) (time ev2)) ds
                                = existsb (matches (coords ev1) (time ev1)) ds).
      { intro ds. induction ds as [| d ds IH]; [reflexivity |].
        simpl. rewrite IH, (matches_congr ev1 ev2 d K). reflexivity. }
      rewrite Same.
      destruct (existsb (matches (coords ev1) (time ev1)) (docs w)) eqn:Ex.
      - rewrite Ex. reflexivity.
      - rewrite existsb_app. simpl existsb.
        rewrite (same_key_matches ev1 (stored ev1) (same_key_stored ev1)).
        rewrite orb_true_r. reflexivity. }
    assert (Run1 : upsert_events [ev1] env w
                   = (Ok 1,
                      mkWorld (if existsb (matches (coords ev1) (time ev1)) (docs w)
                               then docs w else (docs w ++ [stored ev1])%list)
                              (trace w ++ [UpdateOne (coords ev1) (time ev1) ev1]))).
    { unfold upsert_events. rewrite upsert_loop_cons, F1. reflexivity. }
    rewrite Run2, Run1. simpl fst. simpl snd. simpl docs.
    destruct (existsb (matches (coords ev1) (time ev1)) (docs w)) eqn:Ex.
    + split; [exact U |]. split.
      * apply existsb_matches in Ex. destruct Ex as (d & Hin & Hm).
        exists d. split; [exact Hin |]. split; [exact Hm |].
        rewrite <- (matches_congr ev1 ev2 d K). exact Hm.
      * split; [reflexivity |]. split; [reflexivity | discriminate].
    + split; [apply unique_keys_snoc; assumption |]. split.
      * exists (stored ev1). split; [apply in_or_app; right; left; reflexivity |].
        split; [apply same_key_matches, same_key_stored |].
        rewrite <- (matches_congr ev1 ev2 _ K). apply same_key_matches, same_key_stored.
      * split; [reflexivity |]. split; [reflexivity |]. intros _.
        split; [reflexivity |]. split; [apply same_key_stored | reflexivity].
Qed.

Lemma unique_keys_nil : unique_keys [].
Proof. intros [| i] j di dj H; discriminate. Qed.

Lemma upsert_keeps_keys_unique_witness :
  unique_keys (docs (snd (upsert_events batch3 env0 w0)))
  /\ unique_keys (docs (snd (run_pipeline env0 w0)))
  /\ (forall ev1 ev2,
         same_key ev1 ev2 ->
         write_fails env0 (List.length (trace w0)) = None ->
         write_fails env0 (S (List.length (trace w0))) = None ->
         unique_keys (docs (snd (upsert_events [ev1; ev2] env0 w0)))
         /\ (exists d, In d (docs (snd (upsert_events [ev1; ev2] env0 w0)))
                       /\ matches (coords ev1) (time ev1) d = true
                       /\ matches (coords ev2) (time ev2) d = true)
         /\ fst (upsert_events [ev1; ev2] env0 w0) = Ok 2
         /\ docs (snd (upsert_events [ev1; ev2] env0 w0))
            = docs (snd (upsert_events [ev1] env0 w0))
         /\ (existsb (matches (coords ev1) (time ev1)) (docs w0) = false ->
             docs (snd (upsert_events [ev1; ev2] env0 w0)) = (docs w0 ++ [stored ev1])%list
             /\ same_key ev1 (stored ev1)
             /\ microsecond (time (stored ev1)) = microsecond (time ev1) / 1000 * 1000)).
Proof.
  apply (upsert_keeps_keys_unique batch3 env0 w0). exact unique_keys_nil.
Defined.

(** A record whose time carries microseconds, as the clock's reading
    does, and the same place given with integer coordinates and with
    floats, a fraction of a millisecond apart. *)
Definition precise_record : Event :=
  mkEvent "fire" (VStr "Unknown area") VNone [VInt 77; VInt 28]
          (mkdt 2024 3 1 5 30 0 123456 (Some utc)).

Definition precise_record' : Event :=
  mkEvent "fire" (VStr "N") VNone [VFloat (of_Z 77); VFloat (of_Z 28)]
          (mkdt 2024 3 1 5 30 0 123999 (Some utc)).

(** C6 as stated fails on the stored document: the collection keeps dates
    to the millisecond, so the document stored for a payload whose time
    has microseconds is not that payload.  (The two writes below, of one
    place and one millisecond, leave one document.) *)
Lemma upsert_stored_time_counterexample :
  exists d,
    docs (snd (upsert_events [precise_record; precise_record'] env0 w0)) = [d]
    /\ fst (upsert_events [precise_record; precise_record'] env0 w0) = Ok 2
    /\ microsecond (time precise_record) = 123456
    /\ microsecond (time d) = 123000
    /\ d <> precise_record.
Proof.
  eexists. split; [vm_compute; reflexivity |].
  split; [vm_compute; reflexivity |]. split; [reflexivity |]. split; [reflexivity |].
  discriminate.
Qed.

(** The same record written twice into the empty collection is stored
    once: the second write is a no-op, and both are counted. *)
Example upsert_twice :
  upsert_events [record_at 70; record_at 70] env0 w0
  = (Ok 2,
     mkWorld [stored (record_at 70)]
       [UpdateOne [VInt 70; VInt 20] epoch (record_at 70);
        UpdateOne [VInt 70; VInt 20] epoch (record_at 70)]).
Proof. vm_compute. reflexivity. Qed.

(** One place given with integers and with floats is one key: written
    one after the other, or onto a collection that holds it already, the
    two forms leave one document. *)
Example upsert_by_value :
  List.length (docs (snd (upsert_events
                            [mkEvent "fire" VNone VNone [VInt 77; VInt 28] epoch;
                             mkEvent "fire" VNone VNone [VFloat (of_Z 77); VFloat (of_Z 28)]
                                     epoch]
                            env0 w0))) = 1%nat
  /\ docs (snd (upsert_events
                  [mkEvent "fire" VNone VNone [VInt 77; VInt 28] epoch;
                   mkEvent "fire" VNone VNone [VInt 77; VInt 28] epoch]
                  env0
                  (mkWorld [stored (mkEvent "fire" VNone VNone
                                            [VFloat (of_Z 77); VFloat (of_Z 28)] epoch)] [])))
     = [stored (mkEvent "fire" VNone VNone [VFloat (of_Z 77); VFloat (of_Z 28)] epoch)]
  /\ bson_eqb (VBool true) (VInt 1) = false
  /\ bson_eqb (VFloat NaN) (VFloat NaN) = true.
Proof. vm_compute. repeat split; reflexivity. Qed.

(** ** The float model against the kernel's binary64 arithmetic *)

Example fdiv_agrees_1 :
  fdiv (of_Z 1700000000000) (of_Z 1000) = of_prim (1700000000000 / 1000)%float.
Proof. vm_compute. reflexivity. Qed.

Example fdiv_agrees_2 :
  fdiv (of_Z 100000000000001) (of_Z 1000) = of_prim (100000000000001 / 1000)%float.
Proof. vm_compute. reflexivity. Qed.

Example fdiv_agrees_3 :
  fdiv (of_Z 1) (of_Z 3) = of_prim (1 / 3)%float
  /\ fdiv (of_Z (-7)) (of_Z 100) = of_prim (-7 / 100)%float
  /\ fdiv (of_prim 1e-320%float) (of_Z 100) = of_prim (1e-320 / 100)%float
  /\ fdiv (of_prim 1.5e308%float) (of_prim 0.5%float) = of_prim (1.5e308 / 0.5)%float
  /\ fdiv (of_prim 3.3125e2%float) (of_Z 100) = of_prim (3.3125e2 / 100)%float.
Proof. vm_compute. repeat split; reflexivity. Qed.

Example fmul_agrees :
  fmul (of_prim 0.001007080078125%float) (of_Z 1000000)
  = of_prim (0.001007080078125 * 1000000)%float
  /\ fmul (of_prim 0.1%float) (of_prim 0.1%float) = of_prim (0.1 * 0.1)%float
  /\ fmul (of_prim 1e-200%float) (of_prim 1e-200%float) = of_prim (1e-200 * 1e-200)%float
  /\ fmul (of_prim 3e-310%float) (of_prim 0.3%float) = of_prim (3e-310 * 0.3)%float.
Proof. vm_compute. repeat split; reflexivity. Qed.

Example fadd_agrees :
  fadd (of_prim 0.1%float) (of_prim 0.2%float) = of_prim (0.1 + 0.2)%float
  /\ fadd (of_prim 9007199254740992%float) (of_Z 1) = of_prim (9007199254740992 + 1)%float
  /\ fadd (of_prim 1e300%float) (of_prim (-1e284)%float) = of_prim (1e300 + -1e284)%float.
Proof. vm_compute. repeat split; reflexivity. Qed.

Example true_division_agrees :
  truediv_int (VInt 1700000000000) 1000 = Ok (of_prim 1700000000%float)
  /\ truediv_int (VInt 100000000000001) 1000 = Ok (of_prim 100000000000.001%float)
  /\ py_float (VStr "330.5") = Ok (of_prim 330.5%float)
  /\ float_repr (of_prim 100000000000.001%float) = "100000000000.001"
  /\ float_repr (of_prim 1e22%float) = "1e+22"
  /\ float_repr (of_prim 0.00001%float) = "1e-05".
Proof. vm_compute. repeat split; reflexivity. Qed.

(** White space around a number: [float()] strips blanks, tabs, line
    ends and, in this alphabet, U+0085 and U+00A0, but not the separators
    U+001C to U+001F, which [str.isspace] accepts. *)
Example float_white_space :
  py_float (VStr (String (chr 9) " 12.5 " +++ String (chr 10) ""))
  = Ok (of_prim 12.5%float)
  /\ py_float (VStr (String (chr 160) "12.5" +++ String (chr 133) ""))
     = Ok (of_prim 12.5%float)
  /\ py_float (VStr (String (chr 31) "12.5")) = Raise ValueError
  /\ py_float (VStr ("12.5" +++ String (chr 28) "")) = Raise ValueError
  /\ is_space (chr 31) = true.
Proof. vm_compute. repeat split; reflexivity. Qed.

(** * Further properties of the agent *)

(** ** The filter's errors *)

Lemma between_not_number (lo hi : float) (v : value) :
  is_number v = false -> between lo v hi = Raise TypeError.
Proof. destruct v; simpl; try discriminate; reflexivity. Qed.

(** The box bounds as [between_spec] wants them. *)
Lemma lat_bounds (v : value) :
  (between f6 v f37 = Ok true <->
   exists x, num_value v = Some x /\ (inject_Z 6 <= x)%Q /\ (x <= inject_Z 37)%Q)
  /\ (is_number v = true -> exists r, between f6 v f37 = Ok r).
Proof.
  destruct literal_values as (V6 & V37 & _ & _).
  apply (between_spec f6 f37 _ _ 6 37 v V6 V37); reflexivity.
Qed.

Lemma lon_bounds (v : value) :
  (between f68 v f97 = Ok true <->
   exists x, num_value v = Some x /\ (inject_Z 68 <= x)%Q /\ (x <= inject_Z 97)%Q)
  /\ (is_number v = true -> exists r, between f68 v f97 = Ok r).
Proof.
  destruct literal_values as (_ & _ & V68 & V97).
  apply (between_spec f68 f97 _ _ 68 97 v V68 V97); reflexivity.
Qed.

Lemma in_india_true_in_box (lat lon : value) :
  in_india lat lon = Ok true -> in_box lat lon.
Proof.
  unfold in_india, in_box.
  destruct (between f6 lat f37) as [[|] | e] eqn:E; simpl; try discriminate.
  intro H.
  destruct (proj1 (proj1 (lat_bounds lat)) E) as (x & Hx & Hx1 & Hx2).
  destruct (proj1 (proj1 (lon_bounds lon)) H) as (y & Hy & Hy1 & Hy2).
  exists x, y. repeat split; assumption.
Qed.

(** X1. [in_india] raises only [TypeError], and exactly in two cases: the
    latitude is not a number, or the latitude is inside [[6, 37]] and the
    longitude is not a number.  A latitude outside the range hides a bad
    longitude: the second comparison is never made. *)
Theorem in_india_raises_iff (lat lon : value) :
  (in_india lat lon = Raise TypeError <->
   is_number lat = false
   \/ ((exists x, num_value lat = Some x /\ (6 <= x)%Q /\ (x <= 37)%Q)
       /\ is_number lon = false))
  /\ (forall e, in_india lat lon = Raise e -> e = TypeError).
Proof.
  destruct (lat_bounds lat) as [Lat LatT].
  destruct (lon_bounds lon) as [Lon LonT].
  unfold in_india.
  destruct (is_number lat) eqn:Nlat.
  - destruct (LatT eq_refl) as [r Er]. rewrite Er. simpl.
    destruct r.
    + destruct (is_number lon) eqn:Nlon.
      * destruct (LonT eq_refl) as [r' Er']. rewrite Er'.
        split; [| intros e H; discriminate].
        split; [discriminate |].
        intros [H | [_ H]]; discriminate.
      * rewrite (between_not_number f68 f97 lon Nlon).
        split; [| intros e H; inversion H; reflexivity].
        split; [| reflexivity].
        intros _. right. split; [| reflexivity].
        apply Lat. exact Er.
    + split; [| intros e H; discriminate].
      split; [discriminate |].
      intros [H | [H _]]; [discriminate |].
      apply Lat in H. congruence.
  - rewrite (between_not_number f6 f37 lat Nlat). simpl.
    split; [| intros e H; inversion H; reflexivity].
    split; [intros _; left; reflexivity | reflexivity].
Qed.

(** ** What the normalisers return, and when they raise *)

(** A datetime the constructor accepts. *)
Definition valid_datetime (d : datetime) : Prop :=
  1 <= year d <= 9999 /\ 1 <= month d <= 12
  /\ 1 <= day d <= days_in_month (year d) (month d)
  /\ 0 <= hour d <= 23 /\ 0 <= minute d <= 59 /\ 0 <= second d <= 59
  /\ 0 <= microsecond d <= 999999.

Lemma new_datetime_valid (y m d hh mm ss us : Z) (tz : option timezone) (r : datetime) :
  new_datetime y m d hh mm ss us tz = Ok r ->
  valid_datetime r /\ tzinfo r = tz.
Proof.
  unfold new_datetime, MINYEAR, MAXYEAR.
  repeat match goal with
         | |- context [negb ((?a <=? ?b) && (?c <=? ?d))] =>
             let E := fresh "E" in
             destruct ((a <=? b) && (c <=? d)) eqn:E; simpl negb; cbv iota;
             [ apply andb_true_iff in E; destruct E as [?E ?E] | discriminate ]
         end.
  intro H. inversion H; subst. unfold valid_datetime. simpl.
  repeat match goal with E : (_ <=? _) = true |- _ => apply Z.leb_le in E end.
  repeat split; assumption.
Qed.

Lemma fromtimestamp_with_valid (conv : Z -> result broken_down) (t : float)
    (tz : option timezone) (r : datetime) :
  fromtimestamp_with conv t tz = Ok r -> valid_datetime r /\ tzinfo r = tz.
Proof.
  unfold fromtimestamp_with.
  destruct t as [| s | s m e]; [discriminate | |];
    (destruct (modf _) as [frac ip];
     destruct (py_round _) as [us |]; [| discriminate];
     destruct (to_time_t _) as [secs |]; simpl; [| discriminate];
     destruct (conv secs) as [[[[[[y mo] d] hh] mm] ss] |]; simpl; [| discriminate];
     apply new_datetime_valid).
Qed.

Lemma usgs_record_inv (event : value) (r : Event) :
  usgs_record event = Ok r ->
  exists g cs c0 c1 props ms t,
    getitem event "geometry" = Ok g /\ getitem g "coordinates" = Ok cs
    /\ getindex cs 0 = Ok c0 /\ getindex cs 1 = Ok c1
    /\ getitem event "properties" = Ok props
    /\ getitem props "time" = Ok ms /\ truediv_int ms 1000 = Ok t
    /\ utc_fromtimestamp t = Ok (time r)
    /\ type r = "earthquake" /\ coords r = [c0; c1].
Proof.
  unfold usgs_record.
  destruct (getitem event "geometry") as [g |] eqn:Eg; simpl; [| discriminate].
  destruct (getitem g "coordinates") as [cs |] eqn:Ec; simpl; [| discriminate].
  destruct (getitem event "properties") as [props |] eqn:Ep; simpl; [| discriminate].
  destruct (dict_get props "place") as [pl |]; simpl; [| discriminate].
  destruct (dict_get props "mag") as [mag |]; simpl; [| discriminate].
  destruct (getindex cs 0) as [c0 |] eqn:E0; simpl; [| discriminate].
  destruct (getindex cs 1) as [c1 |] eqn:E1; simpl; [| discriminate].
  destruct (getitem props "time") as [ms |] eqn:Em; simpl; [| discriminate].
  destruct (truediv_int ms 1000) as [t |] eqn:Ed; simpl; [| discriminate].
  destruct (utc_fromtimestamp t) as [tm |] eqn:Et; simpl; [| discriminate].
  intro H. inversion H; subst. simpl.
  exists g, cs, c0, c1, props, ms, t. repeat split; assumption.
Qed.

(** X12. Whenever [normalize_usgs] returns a record, its coordinates are
    exactly the first two coordinates of the feature, and its time is a
    valid datetime (year 1 to 9999, a real calendar day, microseconds
    below a million) that is aware, in UTC. *)
Theorem normalize_usgs_shape (event : value) (env : Env) (w w' : World) (r : Event) :
  normalize_usgs event env w = (Ok r, w') ->
  (exists g cs c0 c1,
      getitem event "geometry" = Ok g /\ getitem g "coordinates" = Ok cs
      /\ getindex cs 0 = Ok c0 /\ getindex cs 1 = Ok c1
      /\ coords r = [c0; c1])
  /\ valid_datetime (time r)
  /\ tzinfo (time r) = Some utc.
Proof.
  rewrite normalize_usgs_run. intro H. inversion H as [[Hr Hw]].
  destruct (usgs_record_inv event r Hr)
    as (g & cs & c0 & c1 & props & ms & t & Hg & Hc & H0 & H1 & _ & _ & _ & Ht & _ & Hco).
  split.
  - exists g, cs, c0, c1. repeat split; assumption.
  - exact (fromtimestamp_with_valid gmtime t (Some utc) (time r) Ht).
Qed.

Lemma normalize_usgs_shape_witness :
  (exists g cs c0 c1,
      getitem delhi_quake "geometry" = Ok g /\ getitem g "coordinates" = Ok cs
      /\ getindex cs 0 = Ok c0 /\ getindex cs 1 = Ok c1
      /\ coords (mkEvent "earthquake" (VStr "Delhi") (VFloat (of_prim 4.5%float))
                   [VFloat (of_prim 77.2%float); VFloat (of_prim 28.6%float)]
                   (mkdt 2023 11 14 22 13 20 0 (Some utc))) = [c0; c1])
  /\ valid_datetime (mkdt 2023 11 14 22 13 20 0 (Some utc))
  /\ tzinfo (mkdt 2023 11 14 22 13 20 0 (Some utc)) = Some utc.
Proof.
  apply (normalize_usgs_shape delhi_quake env0 w0 w0
           (mkEvent "earthquake" (VStr "Delhi") (VFloat (of_prim 4.5%float))
              [VFloat (of_prim 77.2%float); VFloat (of_prim 28.6%float)]
              (mkdt 2023 11 14 22 13 20 0 (Some utc)))).
  vm_compute. reflexivity.
Defined.

(** X13. A seismic feature with two coordinates and a [time] that is not a
    number ([None], text, a list, a dictionary) makes [normalize_usgs]
    raise [TypeError]: the division by 1000 is not guarded. *)
Theorem normalize_usgs_time_type_error (event g c0 c1 : value) (rest : list value)
    (d : list (string * value)) (ms : value) (env : Env) (w : World) :
  getitem event "geometry" = Ok g ->
  getitem g "coordinates" = Ok (VList (c0 :: c1 :: rest)) ->
  getitem event "properties" = Ok (VDict d) ->
  dict_lookup "time" d = Some ms ->
  is_number ms = false ->
  normalize_usgs event env w = (Raise TypeError, w).
Proof.
  intros Hg Hc Hp Ht Hn. rewrite normalize_usgs_run. f_equal.
  unfold usgs_record. rewrite Hg; simpl. rewrite Hc; simpl. rewrite Hp; simpl.
  rewrite Ht.
  destruct (dict_lookup "place" d); destruct (dict_lookup "mag" d); simpl;
    destruct ms; simpl in *; try discriminate; reflexivity.
Qed.

Lemma normalize_usgs_time_type_error_witness :
  normalize_usgs
    (feature [VInt 77; VInt 28] [("place", VStr "Delhi"); ("time", VStr "2023-11-14")])
    env0 w0
  = (Raise TypeError, w0).
Proof.
  apply (normalize_usgs_time_type_error _
           (VDict [("type", VStr "Point"); ("coordinates", VList [VInt 77; VInt 28])])
           (VInt 77) (VInt 28) []
           [("place", VStr "Delhi"); ("time", VStr "2023-11-14")]
           (VStr "2023-11-14") env0 w0); reflexivity.
Defined.

Lemma normalize_firms_coords (event : value) (env : Env) (w w' : World) (r : Event) :
  normalize_firms event env w = (Ok r, w') ->
  exists g cs c0 c1,
    getitem event "geometry" = Ok g /\ getitem g "coordinates" = Ok cs
    /\ getindex cs 0 = Ok c0 /\ getindex cs 1 = Ok c1
    /\ coords r = [c0; c1].
Proof.
  unfold normalize_firms, bind, lift, ret, try_except, now_utc.
  destruct (getitem event "geometry") as [g |] eqn:Eg; [| discriminate].
  destruct (getitem g "coordinates") as [cs |] eqn:Ec; [| discriminate].
  destruct (getitem event "properties") as [props |]; [| discriminate].
  destruct (dict_get props "brightness") as [b |]; [| discriminate].
  destruct (dict_get props "acq_date") as [ad |]; [| discriminate].
  destruct (dict_get props "acq_time") as [at_ |]; [| discriminate].
  intro H. exists g, cs.
  destruct (strptime _ _); simpl in H;
    (destruct (dict_get props "satellite"); simpl in H; [| discriminate]);
    (destruct (truthy b); simpl in H;
     [ destruct (py_float b); simpl in H; [| discriminate] | ]);
    (destruct (getindex cs 0) as [c0 |] eqn:E0; simpl in H; [| discriminate]);
    (destruct (getindex cs 1) as [c1 |] eqn:E1; simpl in H; [| discriminate]);
    inversion H; subst; exists c0, c1; repeat split; first [assumption | reflexivity].
Qed.

(** X11. Whenever [normalize_firms] returns a record, its place is never
    [None] nor empty (it is truthy), its magnitude is [None] or a float,
    and its coordinates are exactly the first two coordinates of the
    feature. *)
Theorem normalize_firms_shape (event : value) (env : Env) (w w' : World) (r : Event) :
  normalize_firms event env w = (Ok r, w') ->
  truthy (place r) = true
  /\ (magnitude r = VNone \/ exists f, magnitude r = VFloat f)
  /\ (exists g cs c0 c1,
         getitem event "geometry" = Ok g /\ getitem g "coordinates" = Ok cs
         /\ getindex cs 0 = Ok c0 /\ getindex cs 1 = Ok c1
         /\ coords r = [c0; c1]).
Proof.
  intro H.
  destruct (normalize_firms_inv _ _ _ _ _ H) as (d & _ & _ & Hpl & Hm).
  split; [| split].
  - rewrite Hpl. unfold py_or.
    destruct (truthy (get_or_none "satellite" d)) eqn:T; [exact T | reflexivity].
  - unfold firms_magnitude in Hm.
    destruct (truthy (get_or_none "brightness" d)).
    + destruct (py_float (get_or_none "brightness" d)) as [f |]; [| discriminate].
      right. exists (fdiv f (of_Z 100)).
      change (Ok (VFloat (fdiv f (of_Z 100))) = Ok (magnitude r)) in Hm.
      inversion Hm. reflexivity.
    + left. inversion Hm. reflexivity.
  - exact (normalize_firms_coords _ _ _ _ _ H).
Qed.

Lemma normalize_firms_shape_witness :
  truthy (place (mkEvent "fire" (VStr "Unknown area") VNone
                   [VFloat (of_prim 78.9%float); VFloat (of_prim 20.5%float)] epoch)) = true
  /\ (magnitude (mkEvent "fire" (VStr "Unknown area") VNone
                   [VFloat (of_prim 78.9%float); VFloat (of_prim 20.5%float)] epoch) = VNone
      \/ exists f,
          magnitude (mkEvent "fire" (VStr "Unknown area") VNone
                       [VFloat (of_prim 78.9%float); VFloat (of_prim 20.5%float)] epoch)
          = VFloat f)
  /\ (exists g cs c0 c1,
         getitem odd_fire "geometry" = Ok g /\ getitem g "coordinates" = Ok cs
         /\ getindex cs 0 = Ok c0 /\ getindex cs 1 = Ok c1
         /\ coords (mkEvent "fire" (VStr "Unknown area") VNone
                      [VFloat (of_prim 78.9%float); VFloat (of_prim 20.5%float)] epoch)
            = [c0; c1]).
Proof.
  apply (normalize_firms_shape odd_fire env0 w0 (mkWorld [] [ReadClock])
           (mkEvent "fire" (VStr "Unknown area") VNone
              [VFloat (of_prim 78.9%float); VFloat (of_prim 20.5%float)] epoch)).
  vm_compute. reflexivity.
Defined.

(** X10. Unlike a date that does not parse, a brightness that [float()]
    rejects is not forgiven: on a feature with a properties dictionary
    whose brightness is truthy, [normalize_firms] raises whatever [float]
    raises ([ValueError] for text that is not a number, [TypeError] for a
    non-empty list or dictionary), and returns no record. *)
Theorem normalize_firms_bad_brightness (event g cs : value)
    (d : list (string * value)) (e : exn) (env : Env) (w : World) :
  getitem event "geometry" = Ok g ->
  getitem g "coordinates" = Ok cs ->
  getitem event "properties" = Ok (VDict d) ->
  truthy (get_or_none "brightness" d) = true ->
  py_float (get_or_none "brightness" d) = Raise e ->
  fst (normalize_firms event env w) = Raise e
  /\ (forall l, get_or_none "brightness" d = VList l -> e = TypeError)
  /\ (forall kv, get_or_none "brightness" d = VDict kv -> e = TypeError)
  /\ (forall s, get_or_none "brightness" d = VStr s -> e = ValueError).
Proof.
  intros Hg Hc Hp Ht Hf. split.
  - unfold normalize_firms, bind, lift, ret, try_except, now_utc.
    rewrite Hg, Hc, Hp, !dict_get_dict, Ht, Hf.
    destruct (strptime _ _); reflexivity.
  - split; [| split].
    + intros l E. rewrite E in Hf. simpl in Hf. congruence.
    + intros kv E. rewrite E in Hf. simpl in Hf. congruence.
    + intros s E. rewrite E in Hf. simpl in Hf.
      unfold float_of_string in Hf.
      repeat match type of Hf with
             | context [match ?x with _ => _ end] => destruct x; try discriminate
             | context [if ?x then _ else _] => destruct x; try discriminate
             end;
        congruence.
Qed.

Lemma normalize_firms_bad_brightness_witness :
  fst (normalize_firms
         (feature [VInt 78; VInt 20]
                  [("brightness", VStr "high"); ("acq_date", VStr "2024-03-01");
                   ("acq_time", VStr "0530")])
         env0 w0) = Raise ValueError
  /\ (forall l, VStr "high" = VList l -> ValueError = TypeError)
  /\ (forall kv, VStr "high" = VDict kv -> ValueError = TypeError)
  /\ (forall s, VStr "high" = VStr s -> ValueError = ValueError).
Proof.
  apply (normalize_firms_bad_brightness _
           (VDict [("type", VStr "Point"); ("coordinates", VList [VInt 78; VInt 20])])
           (VList [VInt 78; VInt 20])
           [("brightness", VStr "high"); ("acq_date", VStr "2024-03-01");
            ("acq_time", VStr "0530")]
           ValueError env0 w0); reflexivity.
Defined.

(** A brightness padded with the separator U+001F is text that [float()]
    rejects: the normaliser raises. *)
Example normalize_firms_padded_brightness :
  fst (normalize_firms
         (feature [VInt 78; VInt 20]
                  [("brightness", VStr (String (chr 31) "12.5"));
                   ("acq_date", VStr "2024-03-01"); ("acq_time", VStr "0530")])
         env0 w0) = Raise ValueError.
Proof. vm_compute. reflexivity. Qed.

(** ** More on the upsert writer *)

Definition is_failure_message (e : effect) : bool :=
  match e with
  | PrintExn _ _ => true
  | _ => false
  end.

(** The number of [Upsert failed:] messages in a trace. *)
Definition failure_messages (tr : list effect) : Z :=
  Z.of_nat (List.length (filter is_failure_message tr)).

Lemma failure_messages_app (a b : list effect) :
  failure_messages (a ++ b) = failure_messages a + failure_messages b.
Proof. unfold failure_messages. rewrite filter_app, length_app. lia. Qed.

Lemma upsert_loop_accounting (events : list Event) :
  forall (env : Env) (w : World) (n : Z),
  exists k added w',
    upsert_loop events n env w = (Ok (n + k), w')
    /\ docs w' = (docs w ++ added)%list
    /\ incl added (map stored events)
    /\ Z.of_nat (List.length added) <= k <= Z.of_nat (List.length events)
    /\ k + failure_messages (trace w')
       = Z.of_nat (List.length events) + failure_messages (trace w).
Proof.
  induction events as [| ev rest IH]; intros env w n.
  - exists 0, [], w. simpl. unfold ret.
    split; [f_equal; f_equal; lia |].
    split; [rewrite app_nil_r; reflexivity |].
    split; [apply incl_refl |]. split; lia.
  - rewrite upsert_loop_cons.
    destruct (write_fails env (List.length (trace w))) as [e |].
    + match goal with
      | |- context [upsert_loop rest n env ?w1] =>
          destruct (IH env w1 n) as (k & added & w' & Hrun & Hd & Hi & Hl & Hf)
      end.
      exists k, added, w'. rewrite Hrun.
      split; [reflexivity |]. split; [exact Hd |].
      split; [apply incl_tl; exact Hi |].
      split; [simpl List.length; lia |].
      simpl trace in Hf. rewrite !failure_messages_app in Hf.
      change (failure_messages [UpdateOne (coords ev) (time ev) ev]) with 0 in Hf.
      change (failure_messages [PrintExn "Upsert failed:" e]) with 1 in Hf.
      simpl List.length. lia.
    + match goal with
      | |- context [upsert_loop rest (n + 1) env ?w1] =>
          destruct (IH env w1 (n + 1)) as (k & added & w' & Hrun & Hd & Hi & Hl & Hf)
      end.
      simpl docs in Hd. simpl trace in Hf.
      rewrite failure_messages_app in Hf.
      change (failure_messages [UpdateOne (coords ev) (time ev) ev]) with 0 in Hf.
      destruct (existsb (matches (coords ev) (time ev)) (docs w)).
      * exists (k + 1), added, w'. rewrite Hrun.
        split; [f_equal; f_equal; lia |]. split; [exact Hd |].
        split; [apply incl_tl; exact Hi |].
        split; simpl List.length; lia.
      * exists (k + 1), (stored ev :: added), w'. rewrite Hrun.
        split; [f_equal; f_equal; lia |].
        split; [rewrite Hd, <- app_assoc; reflexivity |].
        split.
        { intros x [<- | Hx]; [left; reflexivity | right; apply Hi; exact Hx]. }
        split; simpl List.length; lia.
Qed.

(** X6. [upsert_events] only ever appends: the documents stored before a
    batch are all still there, unchanged and in place; what is added are
    records of the batch, as the collection keeps them, and no more of
    them than the count returned, which is itself at most the size of the
    batch. *)
Theorem upsert_events_appends_only (events : list Event) (env : Env) (w : World) :
  exists n added,
    fst (upsert_events events env w) = Ok n
    /\ docs (snd (upsert_events events env w)) = (docs w ++ added)%list
    /\ incl added (map stored events)
    /\ Z.of_nat (List.length added) <= n <= Z.of_nat (List.length events).
Proof.
  unfold upsert_events.
  destruct (upsert_loop_accounting events env w 0) as (k & added & w' & Hrun & Hd & Hi & Hl & _).
  exists k, added. rewrite Hrun. simpl.
  repeat split; try assumption; lia.
Qed.

(** X9. Every record of a batch is either counted or reported: the count
    returned plus the number of [Upsert failed:] messages printed during
    the batch is the number of records. *)
Theorem upsert_events_counts_or_reports (events : list Event) (env : Env) (w : World) :
  exists n,
    fst (upsert_events events env w) = Ok n
    /\ n + (failure_messages (trace (snd (upsert_events events env w)))
            - failure_messages (trace w))
       = Z.of_nat (List.length events).
Proof.
  unfold upsert_events.
  destruct (upsert_loop_accounting events env w 0) as (k & added & w' & Hrun & _ & _ & _ & Hf).
  exists k. rewrite Hrun. simpl. split; [reflexivity | lia].
Qed.

Lemma upsert_loop_present (events : list Event) :
  forall (env : Env) (w : World) (n : Z),
    (forall ev, In ev events ->
                existsb (matches (coords ev) (time ev)) (docs w) = true) ->
    docs (snd (upsert_loop events n env w)) = docs w.
Proof.
  induction events as [| ev rest IH]; intros env w n Hall.
  - reflexivity.
  - rewrite upsert_loop_cons.
    destruct (write_fails env (List.length (trace w))) as [e |].
    + rewrite IH; [reflexivity |]. intros x Hx. simpl docs. apply Hall. right. exact Hx.
    + rewrite (Hall ev (or_introl eq_refl)).
      rewrite IH; [reflexivity |]. intros x Hx. simpl docs. apply Hall. right. exact Hx.
Qed.

Lemma successes_full (l : list bool) :
  successes l = Z.of_nat (List.length l) -> forall b, In b l -> b = true.
Proof.
  unfold successes. induction l as [| a l IH]; intros H b Hb; [destruct Hb |].
  pose proof (filter_length_le (fun x : bool => x) l) as Hle.
  destruct a; simpl in H.
  - destruct Hb as [<- | Hb]; [reflexivity |]. apply IH; [lia | exact Hb].
  - simpl List.length in H. lia.
Qed.

(** X7. Replaying a batch is harmless: after a batch all of whose writes
    succeeded (the count equals the number of records), upserting the same
    records again changes no document, whichever of the new writes fail. *)
Theorem upsert_events_replay (events : list Event) (env env' : Env) (w w1 : World) :
  upsert_events events env w = (Ok (Z.of_nat (List.length events)), w1) ->
  docs (snd (upsert_events events env' w1)) = docs w1.
Proof.
  intro H. unfold upsert_events in *.
  destruct (upsert_loop_spec events env w 0) as (w' & Hrun & _ & _ & _ & Hwr).
  rewrite H in Hrun. inversion Hrun as [[Hn Hw]]. subst w'.
  apply upsert_loop_present. intros ev Hin.
  destruct (In_nth_error _ _ Hin) as [i Hi].
  assert (Ho : nth_error (write_outcomes env (List.length (trace w)) events) i = Some true).
  { destruct (nth_error (write_outcomes env (List.length (trace w)) events) i) as [b |] eqn:E.
    - f_equal.
      assert (Hfull : successes (write_outcomes env (List.length (trace w)) events)
                      = Z.of_nat (List.length
                                    (write_outcomes env (List.length (trace w)) events)))
        by (rewrite write_outcomes_length; lia).
      apply (successes_full _ Hfull b). eapply nth_error_In. exact E.
    - apply nth_error_None in E. rewrite write_outcomes_length in E.
      assert (i < List.length events)%nat by (apply nth_error_Some; congruence). lia. }
  apply existsb_matches. exact (Hwr i ev Hi Ho).
Qed.

Lemma upsert_events_replay_witness :
  docs (snd (upsert_events batch3 env_second_write_fails
               (mkWorld (map stored batch3)
                  [UpdateOne [VInt 70; VInt 20] epoch (record_at 70);
                   UpdateOne [VInt 75; VInt 20] epoch (record_at 75);
                   UpdateOne [VInt 80; VInt 20] epoch (record_at 80)])))
  = docs (mkWorld (map stored batch3)
            [UpdateOne [VInt 70; VInt 20] epoch (record_at 70);
             UpdateOne [VInt 75; VInt 20] epoch (record_at 75);
             UpdateOne [VInt 80; VInt 20] epoch (record_at 80)]).
Proof.
  apply (upsert_events_replay batch3 env0 env_second_write_fails w0).
  vm_compute. reflexivity.
Defined.

(** ** More on the cycle *)

(** How a cycle ends: it raises before any write, or it fetches both
    feeds, normalises the kept features and upserts the records. *)
Lemma run_pipeline_cases (env : Env) (w : World) :
  (exists e w', run_pipeline env w = (Raise e, w') /\ quiet w w')
  \/ (exists eq_data fire_data eq_list fire_list E F w4 w5 n,
         usgs_fetch env w = Ok eq_data /\ py_iter eq_data = Ok eq_list
         /\ firms_fetch env w = Ok fire_data /\ py_iter fire_data = Ok fire_list
         /\ Forall2 (fun f e => usgs_record f = Ok e) (filter keeps eq_list) E
         /\ Forall2 (fun f e => exists w1, fst (normalize_firms f env w1) = Ok e)
                    (filter keeps fire_list) F
         /\ quiet w w4
         /\ upsert_events (E ++ F) env w4 = (Ok n, w5)
         /\ run_pipeline env w
            = if stdout_encodes env (completion_message n)
              then (Ok n, mkWorld (docs w5) (trace w5 ++ [Print (completion_message n)]))
              else (Raise UnicodeEncodeError, w5)).
Proof.
  assert (Hcases : forall r, run_pipeline env w = r ->
            (exists e w', r = (Raise e, w') /\ quiet w w')
            \/ (exists eq_data fire_data eq_list fire_list E F w4 w5 n,
                   usgs_fetch env w = Ok eq_data /\ py_iter eq_data = Ok eq_list
                   /\ firms_fetch env w = Ok fire_data /\ py_iter fire_data = Ok fire_list
                   /\ Forall2 (fun f e => usgs_record f = Ok e) (filter keeps eq_list) E
                   /\ Forall2 (fun f e => exists w1, fst (normalize_firms f env w1) = Ok e)
                              (filter keeps fire_list) F
                   /\ quiet w w4
                   /\ upsert_events (E ++ F) env w4 = (Ok n, w5)
                   /\ r = if stdout_encodes env (completion_message n)
                          then (Ok n,
                                mkWorld (docs w5) (trace w5 ++ [Print (completion_message n)]))
                          else (Raise UnicodeEncodeError, w5))).
  { intros r Hr. rewrite run_pipeline_fetches in Hr.
    destruct (usgs_fetch env w) as [eq_data | e] eqn:Eu.
    2: { left. exists e. eexists. split; [symmetry; exact Hr | apply quiet_emit; reflexivity]. }
    destruct (firms_fetch env w) as [fire_data | e] eqn:Ef.
    2: { left. exists e. eexists. split; [symmetry; exact Hr | apply quiet_emit; reflexivity]. }
    set (wd := mkWorld (docs w)
                 (trace w ++ [Print MSG_EQ; HttpGet USGS_URL; Print MSG_FIRE; HttpGet FIRMS_URL]))
      in *.
    assert (Qd : quiet w wd) by (apply quiet_emit; reflexivity).
    unfold bind at 1 in Hr. unfold lift at 1 in Hr.
    destruct (py_iter eq_data) as [eq_list | e] eqn:Ei1.
    2: { left. exists e, wd. split; [symmetry; exact Hr | exact Qd]. }
    unfold bind at 1 in Hr.
    pose proof (comprehension_quiet normalize_usgs normalize_usgs_quiet env eq_list wd) as Q1.
    destruct (comprehension normalize_usgs eq_list env wd) as [[E | e] w2] eqn:C1;
      simpl in Q1.
    2: { left. exists e, w2. split; [symmetry; exact Hr | eapply quiet_trans; eassumption]. }
    unfold bind at 1 in Hr. unfold lift at 1 in Hr.
    destruct (py_iter fire_data) as [fire_list | e] eqn:Ei2.
    2: { left. exists e, w2. split; [symmetry; exact Hr | eapply quiet_trans; eassumption]. }
    unfold bind at 1 in Hr.
    pose proof (comprehension_quiet normalize_firms normalize_firms_quiet env fire_list w2) as Q2.
    destruct (comprehension normalize_firms fire_list env w2) as [[F | e] w4] eqn:C2;
      simpl in Q2.
    2: { left. exists e, w4. split; [symmetry; exact Hr |].
         eapply quiet_trans; [| exact Q2]. eapply quiet_trans; eassumption. }
    unfold bind at 1 in Hr.
    destruct (upsert_loop_spec (E ++ F) env w4 0) as (w5 & Hrun & _).
    simpl (0 + _) in Hrun.
    unfold upsert_events in Hr. rewrite Hrun in Hr.
    unfold bind at 1 in Hr. rewrite print_completion in Hr.
    assert (Hr' : (if stdout_encodes env
                        (completion_message
                           (successes (write_outcomes env (List.length (trace w4)) (E ++ F))))
                   then (Ok (successes (write_outcomes env (List.length (trace w4)) (E ++ F))),
                         mkWorld (docs w5)
                           (trace w5 ++
                            [Print (completion_message
                                      (successes (write_outcomes env (List.length (trace w4))
                                                    (E ++ F))))]))
                   else (Raise UnicodeEncodeError, w5)) = r).
    { rewrite <- Hr. destruct (stdout_encodes env _); reflexivity. }
    clear Hr. rename Hr' into Hr.
    right.
    destruct (comprehension_inv normalize_usgs normalize_usgs_quiet env _ _ _ _ C1) as [F1 _].
    destruct (comprehension_inv normalize_firms normalize_firms_quiet env _ _ _ _ C2) as [F2 _].
    exists eq_data, fire_data, eq_list, fire_list, E, F, w4, w5.
    exists (successes (write_outcomes env (List.length (trace w4)) (E ++ F))).
    split; [reflexivity |]. split; [exact Ei1 |].
    split; [reflexivity |]. split; [exact Ei2 |].
    split.
    { clear - F1. induction F1 as [| f e fs es [w1 Hfe] _ IH]; constructor; [| exact IH].
      rewrite normalize_usgs_run in Hfe. exact Hfe. }
    split; [exact F2 |].
    split; [eapply quiet_trans; [| exact Q2]; eapply quiet_trans; eassumption |].
    split; [unfold upsert_events; exact Hrun |].
    symmetry. exact Hr. }
  exact (Hcases _ eq_refl).
Qed.

(** Whether or not the completion message can be printed, printing it
    writes nothing. *)
Lemma completion_quiet (env : Env) (n : Z) (w5 : World) :
  quiet w5
    (snd (if stdout_encodes env (completion_message n)
          then (Ok n, mkWorld (docs w5) (trace w5 ++ [Print (completion_message n)]))
          else (Raise UnicodeEncodeError, w5))).
Proof.
  destruct (stdout_encodes env (completion_message n)); simpl;
    [apply quiet_emit; reflexivity | apply quiet_refl].
Qed.

(** X3. A cycle that raises before its last line has written nothing:
    the collection is as it was and [update_one] was never called (both
    comprehensions are evaluated before the first write, so one bad kept
    feature of either feed costs the whole cycle).  The one raise that
    comes after the writes is [UnicodeEncodeError] from the completion
    message, when standard output cannot encode it: then every write of
    the cycle has been made. *)
Theorem run_pipeline_raise_writes_nothing (env : Env) (w w' : World) (e : exn) :
  run_pipeline env w = (Raise e, w') ->
  (docs w' = docs w /\ update_calls (trace w') = update_calls (trace w))
  \/ (e = UnicodeEncodeError
      /\ exists events w4 n,
           quiet w w4
           /\ upsert_events events env w4 = (Ok n, w')
           /\ stdout_encodes env (completion_message n) = false).
Proof.
  intro H.
  destruct (run_pipeline_cases env w) as [(e1 & w1 & Hr & Q) | Hok].
  - left. rewrite H in Hr. inversion Hr; subst. exact Q.
  - destruct Hok as (? & ? & ? & ? & E & F & w4 & w5 & n
                     & _ & _ & _ & _ & _ & _ & Q & Hu & Hr).
    rewrite H in Hr.
    destruct (stdout_encodes env (completion_message n)) eqn:Enc; [discriminate |].
    inversion Hr; subst. right. split; [reflexivity |].
    exists (E ++ F)%list, w4, n. repeat split; try assumption; apply Q.
Qed.

(** A seismic feed whose second feature, inside the box, has no [time]. *)
Definition env_bad_feed : Env :=
  mkEnv (fun _ url =>
           if String.eqb url USGS_URL
           then GetReturns 200
                  (Ok (VDict [("features",
                               VList [delhi_quake;
                                      feature [VInt 80; VInt 20] [("mag", VInt 3)]])]))
           else GetReturns 200 (Ok (VDict [("features", VList [good_fire])])))
        (fun _ => epoch) (fun _ => Raise OSError) (fun _ => None) (fun _ => true).

Lemma run_pipeline_raise_writes_nothing_witness :
  (docs (snd (run_pipeline env_bad_feed w0)) = docs w0
   /\ update_calls (trace (snd (run_pipeline env_bad_feed w0))) = update_calls (trace w0))
  \/ (KeyError "time" = UnicodeEncodeError
      /\ exists events w4 n,
           quiet w0 w4
           /\ upsert_events events env_bad_feed w4
              = (Ok n, snd (run_pipeline env_bad_feed w0))
           /\ stdout_encodes env_bad_feed (completion_message n) = false).
Proof.
  apply (run_pipeline_raise_writes_nothing env_bad_feed w0
           (snd (run_pipeline env_bad_feed w0)) (KeyError "time")).
  vm_compute. reflexivity.
Defined.

(** The feeds of [env_feeds] on a standard output that encodes ASCII
    only: the three records are written, then the completion message
    raises. *)
Definition env_ascii_stdout : Env :=
  mkEnv (http env_feeds) (clock env_feeds) (localtime env_feeds) (write_fails env_feeds)
        (fun _ => false).

Example run_pipeline_unprintable :
  fst (run_pipeline env_ascii_stdout w0) = Raise UnicodeEncodeError
  /\ List.length (docs (snd (run_pipeline env_ascii_stdout w0))) = 3%nat
  /\ List.length (update_calls (trace (snd (run_pipeline env_ascii_stdout w0)))) = 3%nat.
Proof. vm_compute. repeat split; reflexivity. Qed.

Lemma keeps_inv (f : value) :
  keeps f = true ->
  exists g cs lat lon,
    getitem f "geometry" = Ok g /\ getitem g "coordinates" = Ok cs
    /\ getindex cs 1 = Ok lat /\ getindex cs 0 = Ok lon
    /\ in_india lat lon = Ok true.
Proof.
  unfold keeps, feature_in_india.
  destruct (getitem f "geometry") as [g |] eqn:Eg; simpl; [| discriminate].
  destruct (getitem g "coordinates") as [cs |] eqn:Ec; simpl; [| discriminate].
  destruct (getindex cs 1) as [lat |] eqn:E1; simpl; [| discriminate].
  destruct (getindex cs 0) as [lon |] eqn:E0; simpl; [| discriminate].
  destruct (in_india lat lon) as [[|] |] eqn:Ei; try discriminate.
  intros _. exists g, cs, lat, lon. repeat split; assumption.
Qed.

(** A record whose coordinates are a longitude and a latitude inside the
    box. *)
Definition inside_box (ev : Event) : Prop :=
  exists lon lat, coords ev = [lon; lat] /\ in_box lat lon.

Lemma kept_usgs_inside (f : value) (e : Event) :
  keeps f = true -> usgs_record f = Ok e -> inside_box e.
Proof.
  intros K H.
  destruct (keeps_inv f K) as (g & cs & lat & lon & Hg & Hc & H1 & H0 & Hi).
  destruct (usgs_record_inv f e H)
    as (g' & cs' & c0 & c1 & _ & _ & _ & Hg' & Hc' & H0' & H1' & _ & _ & _ & _ & _ & Hco).
  assert (g' = g) by congruence. subst g'.
  assert (cs' = cs) by congruence. subst cs'.
  assert (c0 = lon) by congruence. assert (c1 = lat) by congruence. subst.
  exists lon, lat. split; [exact Hco | apply in_india_true_in_box; exact Hi].
Qed.

Lemma kept_firms_inside (f : value) (e : Event) (env : Env) (w1 : World) :
  keeps f = true -> fst (normalize_firms f env w1) = Ok e -> inside_box e.
Proof.
  intros K H.
  destruct (keeps_inv f K) as (g & cs & lat & lon & Hg & Hc & H1 & H0 & Hi).
  destruct (normalize_firms f env w1) as [r w2] eqn:E. simpl in H. subst r.
  destruct (normalize_firms_coords f env w1 w2 e E)
    as (g' & cs' & c0 & c1 & Hg' & Hc' & H0' & H1' & Hco).
  assert (g' = g) by congruence. subst g'.
  assert (cs' = cs) by congruence. subst cs'.
  assert (c0 = lon) by congruence. assert (c1 = lat) by congruence. subst.
  exists lon, lat. split; [exact Hco | apply in_india_true_in_box; exact Hi].
Qed.

Lemma Forall2_kept {R : value -> Event -> Prop} {P : Event -> Prop}
    (feats : list value) (evs : list Event) :
  (forall f e, keeps f = true -> R f e -> P e) ->
  Forall2 R (filter keeps feats) evs -> Forall P evs.
Proof.
  intros HP H.
  assert (K : Forall (fun f => keeps f = true) (filter keeps feats)).
  { apply Forall_forall. intros f Hf. apply filter_In in Hf. tauto. }
  induction H as [| f e fs es Hfe _ IH]; constructor.
  - inversion K; subst. eapply HP; eassumption.
  - apply IH. inversion K; assumption.
Qed.

(** X2. Whatever the feeds hold and however the cycle ends, every
    [update_one] call of a cycle is keyed on its own record's coordinates
    and time, and that record lies inside the box: its coordinates are a
    longitude in [[68, 97]] and a latitude in [[6, 37]].  Nothing outside
    India is ever written. *)
Theorem run_pipeline_writes_inside_box (env : Env) (w : World) :
  exists new,
    update_calls (trace (snd (run_pipeline env w)))
    = (update_calls (trace w) ++ new)%list
    /\ Forall (fun call =>
                 fst (fst call) = coords (snd call)
                 /\ snd (fst call) = time (snd call)
                 /\ inside_box (snd call)) new.
Proof.
  destruct (run_pipeline_cases env w) as [(e & w' & Hr & [_ Q]) | Hok].
  - exists []. rewrite Hr. simpl. rewrite app_nil_r. split; [exact Q | constructor].
  - destruct Hok as (eq_data & fire_data & eq_list & fire_list & E & F & w4 & w5 & n
                     & _ & _ & _ & _ & F1 & F2 & [_ Q4] & Hu & Hr).
    exists (map upsert_call (E ++ F)). rewrite Hr.
    destruct (completion_quiet env n w5) as [_ Qc]. rewrite Qc.
    unfold upsert_events in Hu.
    destruct (upsert_loop_spec (E ++ F) env w4 0) as (w5' & Hrun & Hcalls & _).
    rewrite Hu in Hrun. inversion Hrun; subst w5'.
    split.
    + rewrite Hcalls, Q4. reflexivity.
    + apply Forall_map. apply Forall_app. split.
      * apply (Forall2_kept eq_list E (R := fun f e => usgs_record f = Ok e)); [| exact F1].
        intros f e K H. simpl. repeat split. exact (kept_usgs_inside f e K H).
      * apply (Forall2_kept fire_list F
                 (R := fun f e => exists w1, fst (normalize_firms f env w1) = Ok e));
          [| exact F2].
        intros f e K [w1 H]. simpl. repeat split. exact (kept_firms_inside f e env w1 K H).
Qed.

Lemma write_outcomes_no_failure (env : Env) (events : list Event) :
  (forall k, write_fails env k = None) ->
  forall pos, successes (write_outcomes env pos events) = Z.of_nat (List.length events).
Proof.
  intro Hnf. unfold successes.
  induction events as [| ev rest IH]; intro pos; [reflexivity |].
  cbn [write_outcomes]. rewrite Hnf. cbn [filter List.length].
  rewrite !Nat2Z.inj_succ, IH. reflexivity.
Qed.

(** X4. The count a completed cycle returns is at most the number of
    features of both feeds that pass the filter, and it is exactly that
    number when no write fails: dropped features are not counted, kept
    ones are counted whether their write inserted a document or found
    one. *)
Theorem run_pipeline_count (env : Env) (w w' : World) (n : Z) :
  run_pipeline env w = (Ok n, w') ->
  exists eq_data fire_data eq_list fire_list,
    usgs_fetch env w = Ok eq_data /\ py_iter eq_data = Ok eq_list
    /\ firms_fetch env w = Ok fire_data /\ py_iter fire_data = Ok fire_list
    /\ 0 <= n <= Z.of_nat (List.length (filter keeps eq_list)
                           + List.length (filter keeps fire_list))
    /\ ((forall k, write_fails env k = None) ->
        n = Z.of_nat (List.length (filter keeps eq_list)
                      + List.length (filter keeps fire_list))).
Proof.
  intro H.
  destruct (run_pipeline_cases env w) as [(e & w1 & Hr & _) | Hok].
  - rewrite H in Hr. discriminate.
  - destruct Hok as (eq_data & fire_data & eq_list & fire_list & E & F & w4 & w5 & n'
                     & Hu1 & Hi1 & Hf1 & Hi2 & F1 & F2 & _ & Hu & Hr).
    rewrite H in Hr.
    destruct (stdout_encodes env (completion_message n')); [| discriminate].
    inversion Hr; subst n'.
    exists eq_data, fire_data, eq_list, fire_list.
    split; [exact Hu1 |]. split; [exact Hi1 |]. split; [exact Hf1 |]. split; [exact Hi2 |].
    pose proof (Forall2_length F1) as L1. pose proof (Forall2_length F2) as L2.
    unfold upsert_events in Hu.
    destruct (upsert_loop_spec (E ++ F) env w4 0) as (w5' & Hrun & _).
    rewrite Hu in Hrun. inversion Hrun as [[Hn Hw]].
    pose proof (successes_le (write_outcomes env (List.length (trace w4)) (E ++ F))) as Hle.
    rewrite write_outcomes_length, length_app in Hle.
    split; [lia |].
    intro Hnf. rewrite (write_outcomes_no_failure env (E ++ F) Hnf), length_app. lia.
Qed.

Lemma run_pipeline_count_witness :
  exists eq_data fire_data eq_list fire_list,
    usgs_fetch env_feeds w0 = Ok eq_data /\ py_iter eq_data = Ok eq_list
    /\ firms_fetch env_feeds w0 = Ok fire_data /\ py_iter fire_data = Ok fire_list
    /\ 0 <= 3 <= Z.of_nat (List.length (filter keeps eq_list)
                           + List.length (filter keeps fire_list))
    /\ ((forall k, write_fails env_feeds k = None) ->
        3 = Z.of_nat (List.length (filter keeps eq_list)
                      + List.length (filter keeps fire_list))).
Proof.
  apply (run_pipeline_count env_feeds w0 (snd (run_pipeline env_feeds w0)) 3).
  vm_compute. reflexivity.
Defined.

(** ** The filter runs first *)

(** The filter answers [False] on the feature. *)
Definition dropped (f : value) : bool :=
  match feature_in_india f with
  | Ok false => true
  | _ => false
  end.

(** One turn of a comprehension. *)
Lemma comprehension_cons (N : value -> M Event) (f : value) (rest : list value)
    (env : Env) (w : World) :
  comprehension N (f :: rest) env w
  = match feature_in_india f with
    | Raise e => (Raise e, w)
    | Ok false => comprehension N rest env w
    | Ok true =>
        match N f env w with
        | (Raise e, w1) => (Raise e, w1)
        | (Ok ev, w1) =>
            match comprehension N rest env w1 with
            | (Ok evs, w2) => (Ok (ev :: evs), w2)
            | (Raise e, w2) => (Raise e, w2)
            end
        end
    end.
Proof.
  cbn [comprehension]. unfold bind, lift, ret.
  destruct (feature_in_india f) as [[|] | e]; reflexivity.
Qed.

(** X5. The filter runs before the normaliser, so a feature the filter
    rejects is never normalised: a comprehension behaves on a feed exactly
    as on the feed without its rejected features, whatever else those
    features hold or lack. *)
Theorem comprehension_skips_dropped (normalize : value -> M Event)
    (features : list value) (env : Env) (w : World) :
  comprehension normalize features env w
  = comprehension normalize (filter (fun f => negb (dropped f)) features) env w.
Proof.
  revert w. induction features as [| f rest IH]; intro w; [reflexivity |].
  cbn [filter]. unfold dropped at 1. rewrite comprehension_cons.
  destruct (feature_in_india f) as [[|] | e] eqn:E; cbn [negb].
  - rewrite comprehension_cons, E.
    destruct (normalize f env w) as [[ev | e] w1]; [| reflexivity].
    rewrite IH. reflexivity.
  - apply IH.
  - rewrite comprehension_cons, E. reflexivity.
Qed.

Lemma comprehension_ok_filters (N : value -> M Event) (env : Env) :
  forall (feats : list value) (w w' : World) (evs : list Event),
    comprehension N feats env w = (Ok evs, w') ->
    Forall (fun f => exists b, feature_in_india f = Ok b) feats.
Proof.
  induction feats as [| f rest IH]; intros w w' evs H; [constructor |].
  simpl in H.
  apply bind_inv in H. destruct H as (keep & w1 & Hk & H).
  unfold lift in Hk. injection Hk as Hfi Hw. subst w1.
  constructor; [exists keep; exact Hfi |].
  destruct keep.
  - apply bind_inv in H. destruct H as (ev & w2 & _ & H).
    apply bind_inv in H. destruct H as (evs' & w3 & H & _).
    exact (IH _ _ _ H).
  - exact (IH _ _ _ H).
Qed.

(** X14. One feature on which the filter raises (no [geometry], no
    [coordinates], fewer than two of them, or a coordinate that is not a
    number), anywhere in either feed and whatever the other features are,
    makes the whole cycle raise, and nothing of either feed is written. *)
Theorem run_pipeline_bad_feature (env : Env) (w : World)
    (eq_data fire_data : value) (eq_list fire_list : list value) (f : value) (e : exn) :
  usgs_fetch env w = Ok eq_data -> py_iter eq_data = Ok eq_list ->
  firms_fetch env w = Ok fire_data -> py_iter fire_data = Ok fire_list ->
  In f (eq_list ++ fire_list) ->
  feature_in_india f = Raise e ->
  exists e' w',
    run_pipeline env w = (Raise e', w')
    /\ docs w' = docs w
    /\ update_calls (trace w') = update_calls (trace w).
Proof.
  intros Hu Hi1 Hf Hi2 Hin Hbad.
  assert (Hno : forall evs w1 w2 N l, In f l -> comprehension N l env w1 <> (Ok evs, w2)).
  { intros evs w1 w2 N l Hl C.
    pose proof (comprehension_ok_filters N env l w1 w2 evs C) as A.
    rewrite Forall_forall in A. destruct (A f Hl) as [b Hb]. congruence. }
  rewrite run_pipeline_fetches, Hu, Hf.
  set (wd := mkWorld (docs w)
               (trace w ++ [Print MSG_EQ; HttpGet USGS_URL; Print MSG_FIRE; HttpGet FIRMS_URL])).
  assert (Qd : quiet w wd) by (apply quiet_emit; reflexivity).
  unfold bind at 1. unfold lift at 1. rewrite Hi1.
  unfold bind at 1.
  pose proof (comprehension_quiet normalize_usgs normalize_usgs_quiet env eq_list wd) as Q1.
  destruct (comprehension normalize_usgs eq_list env wd) as [[E | e1] w2] eqn:C1;
    simpl in Q1.
  2: { exists e1, w2. split; [reflexivity |]. apply (quiet_trans w wd w2); assumption. }
  unfold bind at 1. unfold lift at 1. rewrite Hi2.
  unfold bind at 1.
  pose proof (comprehension_quiet normalize_firms normalize_firms_quiet env fire_list w2) as Q2.
  destruct (comprehension normalize_firms fire_list env w2) as [[F | e2] w4] eqn:C2;
    simpl in Q2.
  2: { exists e2, w4. split; [reflexivity |].
       apply (quiet_trans w w2 w4); [apply (quiet_trans w wd w2) |]; assumption. }
  exfalso. apply in_app_or in Hin. destruct Hin as [Hin | Hin].
  - exact (Hno _ _ _ _ _ Hin C1).
  - exact (Hno _ _ _ _ _ Hin C2).
Qed.

(** A thermal feed whose second feature has no geometry. *)
Definition env_no_geometry : Env :=
  mkEnv (fun _ url =>
           if String.eqb url USGS_URL
           then GetReturns 200 (Ok (VDict [("features", VList [delhi_quake])]))
           else GetReturns 200
                  (Ok (VDict [("features",
                               VList [good_fire;
                                      VDict [("type", VStr "Feature");
                                             ("properties", VDict [])]])])))
        (fun _ => epoch) (fun _ => Raise OSError) (fun _ => None) (fun _ => true).

Lemma run_pipeline_bad_feature_witness :
  exists e' w',
    run_pipeline env_no_geometry w0 = (Raise e', w')
    /\ docs w' = docs w0
    /\ update_calls (trace w') = update_calls (trace w0).
Proof.
  apply (run_pipeline_bad_feature env_no_geometry w0
           (VList [delhi_quake])
           (VList [good_fire; VDict [("type", VStr "Feature"); ("properties", VDict [])]])
           [delhi_quake]
           [good_fire; VDict [("type", VStr "Feature"); ("properties", VDict [])]]
           (VDict [("type", VStr "Feature"); ("properties", VDict [])])
           (KeyError "geometry")).
  - vm_compute. reflexivity.
  - reflexivity.
  - vm_compute. reflexivity.
  - reflexivity.
  - simpl. right. right. left. reflexivity.
  - vm_compute. reflexivity.
Defined.

(** ** The response's status code *)

(** The same environment with every response's status code replaced. *)
Definition with_status (s : nat -> string -> Z -> Z) (env : Env) : Env :=
  mkEnv (fun k url =>
           match http env k url with
           | GetRaises e => GetRaises e
           | GetReturns st body => GetReturns (s k url st) body
           end)
        (clock env) (localtime env) (write_fails env) (stdout_encodes env).

Lemma bind_ext {A B} (c : M A) (k : A -> M B) (env env' : Env) (w : World) :
  c env' w = c env w ->
  (forall a w1, k a env' w1 = k a env w1) ->
  bind c k env' w = bind c k env w.
Proof.
  intros Hc Hk. unfold bind. rewrite Hc.
  destruct (c env w) as [[a | e] w1]; [apply Hk | reflexivity].
Qed.

Lemma comprehension_ext (N : value -> M Event) (env env' : Env) :
  (forall f w, N f env' w = N f env w) ->
  forall feats w, comprehension N feats env' w = comprehension N feats env w.
Proof.
  intros HN. induction feats as [| f rest IH]; intro w; [reflexivity |].
  rewrite !comprehension_cons, HN.
  destruct (feature_in_india f) as [[|] | e]; [| apply IH | reflexivity].
  destruct (N f env w) as [[ev | e] w1]; [| reflexivity].
  rewrite IH. reflexivity.
Qed.

Lemma upsert_loop_ext (env env' : Env) :
  (forall k, write_fails env' k = write_fails env k) ->
  forall events n w, upsert_loop events n env' w = upsert_loop events n env w.
Proof.
  intro Hw. induction events as [| ev rest IH]; intros n w; [reflexivity |].
  rewrite !upsert_loop_cons, Hw.
  destruct (write_fails env (List.length (trace w))); apply IH.
Qed.

(** X8. The cycle never looks at a response's status code: with every
    status replaced by any other (a 404 or a 500 for a 200, or the
    reverse) a cycle returns the same result, makes the same calls and
    leaves the same collection.  Only a body that is not JSON, or has no
    [features], stops it. *)
Theorem run_pipeline_ignores_status (s : nat -> string -> Z -> Z) (env : Env) (w : World) :
  run_pipeline (with_status s env) w = run_pipeline env w.
Proof.
  assert (Hf : forall k url,
             fetch_outcome (http (with_status s env) k url) = fetch_outcome (http env k url)).
  { intros k url. simpl. destruct (http env k url) as [e | st [body | e]]; reflexivity. }
  rewrite !run_pipeline_fetches. unfold usgs_fetch, firms_fetch. rewrite !Hf.
  destruct (fetch_outcome (http env (S (List.length (trace w))) USGS_URL))
    as [eq_data | e]; [| reflexivity].
  destruct (fetch_outcome (http env (S (S (S (List.length (trace w))))) FIRMS_URL))
    as [fire_data | e]; [| reflexivity].
  apply bind_ext; [reflexivity |]. intros eq_list w1.
  apply bind_ext.
  { apply comprehension_ext. intros f w2. rewrite !normalize_usgs_run. reflexivity. }
  intros earthquakes w2.
  apply bind_ext; [reflexivity |]. intros fire_list w3.
  apply bind_ext.
  { apply comprehension_ext. intros f w4.
    unfold normalize_firms, bind, lift, ret, try_except, now_utc.
    repeat match goal with
           | |- _ = _ => reflexivity
           | |- context [match ?x with Ok _ => _ | Raise _ => _ end] => destruct x
           | |- context [if ?b then _ else _] => destruct b
           end. }
  intros fires w4.
  apply bind_ext.
  { unfold upsert_events. apply upsert_loop_ext. reflexivity. }
  intros inserted w5. reflexivity.
Qed.

(** ** The main loop *)

(** The process after some turns of [while True]: still running, with the
    seconds it has slept, or ended by an exception nothing catches. *)
Inductive process : Type :=
| Running (w : World) (slept : Z)
| Crashed (e : exn) (w : World) (slept : Z).

Definition world_of (p : process) : World :=
  match p with
  | Running w _ => w
  | Crashed _ w _ => w
  end.

Definition slept_of (p : process) : Z :=
  match p with
  | Running _ s => s
  | Crashed _ _ s => s
  end.

(** One turn of the loop:
    [run_pipeline(); print("Sleeping for 1 hour..."); time.sleep(3600)]. *)
Definition main_turn (env : Env) (w : World) (slept : Z) : process :=
  match (run_pipeline ;; print "Sleeping for 1 hour...") env w with
  | (Ok _, w') => Running w' (slept + 3600)
  | (Raise e, w') => Crashed e w' slept
  end.

(** The first [turns] turns of [while True: ...]. *)
Fixpoint main_loop (turns : nat) (env : Env) (p : process) : process :=
  match turns with
  | O => p
  | S k =>
      match p with
      | Running w slept => main_loop k env (main_turn env w slept)
      | Crashed _ _ _ => p
      end
  end.

Lemma main_turn_run (env : Env) (w : World) (slept : Z) :
  main_turn env w slept
  = match run_pipeline env w with
    | (Ok _, w1) =>
        Running (mkWorld (docs w1) (trace w1 ++ [Print "Sleeping for 1 hour..."]))
                (slept + 3600)
    | (Raise e, w1) => Crashed e w1 slept
    end.
Proof.
  unfold main_turn, bind.
  destruct (run_pipeline env w) as [[n | e] w1]; [| reflexivity].
  rewrite print_ascii by reflexivity. reflexivity.
Qed.

Lemma main_loop_crashed (turns : nat) (env : Env) (e : exn) (w : World) (s : Z) :
  main_loop turns env (Crashed e w s) = Crashed e w s.
Proof. destruct turns; reflexivity. Qed.

Lemma main_loop_add (n m : nat) (env : Env) :
  forall p, main_loop (n + m) env p = main_loop m env (main_loop n env p).
Proof.
  induction n as [| n IH]; intro p; [reflexivity |].
  simpl. destruct p as [w s | e w s]; [apply IH |].
  rewrite main_loop_crashed. reflexivity.
Qed.

(** The turn after the first [n]. *)
Lemma main_loop_succ (n : nat) (env : Env) (p : process) :
  main_loop (S n) env p
  = match main_loop n env p with
    | Running w s => main_turn env w s
    | Crashed e w s => Crashed e w s
    end.
Proof.
  replace (S n) with (n + 1)%nat by lia. rewrite main_loop_add.
  destruct (main_loop n env p); reflexivity.
Qed.

(** What a cycle does to the collection. *)
Lemma run_pipeline_grows (env : Env) (w : World) :
  exists added,
    docs (snd (run_pipeline env w)) = (docs w ++ added)%list
    /\ Forall inside_box added.
Proof.
  destruct (run_pipeline_cases env w) as [(e & w' & Hr & [D _]) | Hok].
  - exists []. rewrite Hr, app_nil_r. split; [exact D | constructor].
  - destruct Hok as (eq_data & fire_data & eq_list & fire_list & E & F & w4 & w5 & n
                     & _ & _ & _ & _ & F1 & F2 & [D4 _] & Hu & Hr).
    unfold upsert_events in Hu.
    destruct (upsert_loop_accounting (E ++ F) env w4 0)
      as (k & added & w5' & Hrun & Hd & Hincl & _).
    rewrite Hu in Hrun. inversion Hrun; subst w5'.
    exists added. rewrite Hr.
    destruct (completion_quiet env n w5) as [Dc _]. rewrite Dc, Hd, D4.
    split; [reflexivity |].
    assert (HEF : Forall inside_box (E ++ F)).
    { apply Forall_app. split.
      - apply (Forall2_kept eq_list E (R := fun f e => usgs_record f = Ok e)); [| exact F1].
        intros f e K H. exact (kept_usgs_inside f e K H).
      - apply (Forall2_kept fire_list F
                 (R := fun f e => exists w1, fst (normalize_firms f env w1) = Ok e));
          [| exact F2].
        intros f e K [w1 H]. exact (kept_firms_inside f e env w1 K H). }
    rewrite Forall_forall in *. intros x Hx.
    apply Hincl, in_map_iff in Hx. destruct Hx as (ev & <- & Hev).
    exact (HEF ev Hev).
Qed.

Lemma main_turn_docs (env : Env) (w : World) (s : Z) :
  docs (world_of (main_turn env w s)) = docs (snd (run_pipeline env w)).
Proof.
  rewrite main_turn_run. destruct (run_pipeline env w) as [[n | e] w1]; reflexivity.
Qed.

(** X15. However many turns the loop has made and however it has fared,
    the collection has only grown at its end: the documents it started
    with are still there, unchanged and in place; every document added
    lies inside the box; and if the initial keys were distinct, so are the
    keys now. *)
Theorem main_loop_collection (turns : nat) (env : Env) (w : World) (slept : Z) :
  exists added,
    docs (world_of (main_loop turns env (Running w slept))) = (docs w ++ added)%list
    /\ Forall inside_box added
    /\ (unique_keys (docs w) ->
        unique_keys (docs (world_of (main_loop turns env (Running w slept))))).
Proof.
  induction turns as [| n IH].
  - exists []. simpl. rewrite app_nil_r. split; [reflexivity |]. split; [constructor | tauto].
  - destruct IH as (added & Hd & Hin & Hu).
    rewrite main_loop_succ.
    destruct (main_loop n env (Running w slept)) as [wn sn | e wn sn]; simpl in Hd, Hu.
    + rewrite main_turn_docs.
      destruct (run_pipeline_grows env wn) as (more & Hd' & Hin').
      exists (added ++ more)%list.
      split; [rewrite Hd', Hd, app_assoc; reflexivity |].
      split; [apply Forall_app; split; assumption |].
      intro U. apply run_pipeline_keeps_keys. exact (Hu U).
    + exists added. simpl. split; [exact Hd |]. split; [exact Hin | exact Hu].
Qed.

(** X16. The loop has no handler.  After [n] turns the process either
    still runs, having slept exactly [3600 * n] seconds, or it ended in
    the first cycle that raised, with that cycle's exception: [k] cycles
    completed before it, it slept [3600 * k] seconds and not after the
    failure, and no later turn does anything. *)
Theorem main_loop_ends_at_first_raise (n : nat) (env : Env) (w : World) (slept : Z) :
  match main_loop n env (Running w slept) with
  | Running _ s => s = slept + 3600 * Z.of_nat n
  | Crashed e w' s =>
      exists k wk,
        (k < n)%nat
        /\ main_loop k env (Running w slept) = Running wk s
        /\ s = slept + 3600 * Z.of_nat k
        /\ run_pipeline env wk = (Raise e, w')
        /\ forall m, main_loop (n + m) env (Running w slept) = Crashed e w' s
  end.
Proof.
  induction n as [| n IH]; [simpl; lia |].
  rewrite main_loop_succ.
  destruct (main_loop n env (Running w slept)) as [wn sn | e wn sn] eqn:En.
  - rewrite main_turn_run.
    destruct (run_pipeline env wn) as [[r | e] w1] eqn:Er.
    + lia.
    + exists n, wn. split; [lia |]. split; [exact En |]. split; [exact IH |].
      split; [exact Er |].
      intro m. replace (S n + m)%nat with (n + S m)%nat by lia.
      rewrite main_loop_add, En. simpl. rewrite main_turn_run, Er.
      apply main_loop_crashed.
  - destruct IH as (k & wk & Hk & Hrun & Hs & Hr & Hm).
    exists k, wk. split; [lia |]. split; [exact Hrun |]. split; [exact Hs |].
    split; [exact Hr |].
    intro m. replace (S n + m)%nat with (n + S m)%nat by lia. apply Hm.
Qed.

(** X17. A failed request ends the agent for good: if, after any number
    of completed cycles, the next seismic request raises (or its body is
    not JSON, or has no [features]), the process ends with that exception
    after the message and the request, without sleeping and without ever
    asking again. *)
Theorem main_loop_fetch_failure_is_final (n m : nat) (env : Env) (w wn : World)
    (slept sn : Z) (e : exn) :
  main_loop n env (Running w slept) = Running wn sn ->
  usgs_fetch env wn = Raise e ->
  main_loop (n + S m) env (Running w slept)
  = Crashed e (mkWorld (docs wn) (trace wn ++ [Print MSG_EQ; HttpGet USGS_URL])) sn.
Proof.
  intros Hn Hf.
  rewrite main_loop_add, Hn. simpl.
  rewrite main_turn_run, run_pipeline_fetches, Hf.
  apply main_loop_crashed.
Qed.

Lemma main_loop_fetch_failure_is_final_witness :
  main_loop (0 + 3) env0 (Running w0 0)
  = Crashed ConnectionError
            (mkWorld (docs w0) (trace w0 ++ [Print MSG_EQ; HttpGet USGS_URL])) 0.
Proof.
  apply (main_loop_fetch_failure_is_final 0 2 env0 w0 w0 0 0 ConnectionError);
    reflexivity.
Defined.

(** ** Thermal records without a usable date *)

Lemma normalize_firms_time_inv (event : value) (d : list (string * value))
    (env : Env) (w w' : World) (r : Event) :
  normalize_firms event env w = (Ok r, w') ->
  getitem event "properties" = Ok (VDict d) ->
  match strptime (acq_text d) FIRMS_FORMAT with
  | Ok dt => time r = replace_tzinfo dt (Some utc) /\ w' = w
  | Raise _ =>
      time r = clock env (List.length (trace w))
      /\ w' = mkWorld (docs w) (trace w ++ [ReadClock])
  end.
Proof.
  intros H Hp. revert H.
  unfold normalize_firms, bind, lift, ret, try_except, now_utc.
  destruct (getitem event "geometry") as [g |]; [| discriminate].
  destruct (getitem g "coordinates") as [cs |]; [| discriminate].
  rewrite Hp, !dict_get_dict. unfold acq_text, FIRMS_FORMAT.
  destruct (strptime _ _); simpl; intro H;
    (destruct (truthy (get_or_none "brightness" d));
     [ destruct (py_float (get_or_none "brightness" d)); simpl in H; [| discriminate] | ];
     (destruct (getindex cs 0); simpl in H; [| discriminate]);
     (destruct (getindex cs 1); simpl in H; [| discriminate]);
     inversion H; subst; simpl; split; reflexivity).
Qed.

(** X18. A thermal record whose date did not parse is keyed on the clock
    reading taken while it was normalised.  Writing it therefore inserts
    a new document whenever no stored document's time falls in the
    millisecond of that reading, even if the same detection, normalised
    in an earlier cycle, is already stored: such detections are stored
    again by every cycle. *)
Theorem undated_fire_is_stored_again (f : value) (d : list (string * value))
    (env : Env) (w w' wu : World) (r : Event) (e : exn) :
  normalize_firms f env w = (Ok r, w') ->
  getitem f "properties" = Ok (VDict d) ->
  strptime (acq_text d) FIRMS_FORMAT = Raise e ->
  Forall (fun x => millis (time x) <> millis (clock env (List.length (trace w)))) (docs wu) ->
  write_fails env (List.length (trace wu)) = None ->
  time r = clock env (List.length (trace w))
  /\ upsert_events [r] env wu
     = (Ok 1,
        mkWorld (docs wu ++ [stored r]) (trace wu ++ [UpdateOne (coords r) (time r) r])).
Proof.
  intros Hn Hp Hs Hfresh Hw.
  pose proof (normalize_firms_time_inv f d env w w' r Hn Hp) as Ht.
  rewrite Hs in Ht. destruct Ht as [Ht _].
  split; [exact Ht |].
  unfold upsert_events. rewrite upsert_loop_cons, Hw.
  destruct (existsb (matches (coords r) (time r)) (docs wu)) eqn:Ex.
  - exfalso. apply existsb_matches in Ex. destruct Ex as (x & Hin & Hm).
    unfold matches in Hm. apply andb_true_iff in Hm. destruct Hm as [_ Hm].
    apply Z.eqb_eq in Hm.
    rewrite Forall_forall in Hfresh. apply (Hfresh x Hin). congruence.
  - reflexivity.
Qed.

(** A clock that advances with every effect. *)
Definition env_ticking : Env :=
  mkEnv (fun _ _ => GetRaises ConnectionError)
        (fun k => mkdt 2024 3 1 0 (Z.of_nat k) 0 0 (Some utc))
        (fun _ => Raise OSError) (fun _ => None) (fun _ => true).

(** The record of [odd_fire], normalised after [k] effects. *)
Definition odd_record (k : nat) : Event :=
  mkEvent "fire" (VStr "Unknown area") VNone
          [VFloat (of_prim 78.9%float); VFloat (of_prim 20.5%float)]
          (clock env_ticking k).

Lemma undated_fire_is_stored_again_witness :
  time (odd_record 1) = clock env_ticking 1
  /\ upsert_events [odd_record 1] env_ticking (mkWorld [stored (odd_record 0)] [])
     = (Ok 1,
        mkWorld ([stored (odd_record 0)] ++ [stored (odd_record 1)])
                ([] ++ [UpdateOne (coords (odd_record 1)) (time (odd_record 1))
                                  (odd_record 1)])).
Proof.
  apply (undated_fire_is_stored_again odd_fire
           [("satellite", VStr ""); ("brightness", VInt 0);
            ("acq_date", VStr "yesterday"); ("acq_time", VNone)]
           env_ticking (mkWorld [] [ReadClock])
           (mkWorld [] [ReadClock; ReadClock]) (mkWorld [stored (odd_record 0)] [])
           (odd_record 1) ValueError).
  - vm_compute. reflexivity.
  - reflexivity.
  - vm_compute. reflexivity.
  - constructor; [vm_compute; discriminate | constructor].
  - reflexivity.
Defined.
